(** * A buffered search tree: model of [buffered_tree.c] and its properties

    The C program keeps every object (payload, container, node, tree handle)
    behind a pointer and mutates it in place.  The model below follows it
    statement by statement over an explicit store: one arena per C struct,
    addresses handed out by a bump allocator, [free] removing the cell.  A
    read or write through a null or released pointer, an out-of-bounds array
    access and a read of an uninitialised local end the run with a [Fault]:
    they are undefined behaviour in C. *)

From stdpp Require Import gmap list strings sorting.
From Stdlib Require Import ZArith Lia.

Local Open Scope Z_scope.

(** ** Machine integers and pointers *)

(** [uint32_t] arithmetic wraps modulo 2^32. *)
Definition wrap32 (z : Z) : Z := z mod 4294967296.

(** Conversion of a [uint32_t] to [int] and back (two's complement). *)
Definition to_int (z : Z) : Z :=
  let w := wrap32 z in if w <? 2147483648 then w else w - 4294967296.

Definition to_uint (z : Z) : Z := wrap32 z.

(** Addresses of heap cells; [NULL] is address zero. *)
Abbreviation ptr := N.
Definition NULL : ptr := 0%N.

Definition is_null (p : ptr) : bool := N.eqb p NULL.

(** ** Outcomes of a run *)

Inductive fault :=
  | BadPointer      (* dereference of NULL or of a released cell *)
  | OutOfBounds     (* array access outside the allocated block *)
  | Uninitialized   (* read of a local that was never assigned *)
  | AssertFailed    (* a failing [assert] *)
  | SignedOverflow. (* arithmetic on an [int] that leaves its range *)

Inductive outcome (S A : Type) :=
  | Ret (a : A) (s : S)
  | Fault (f : fault)
  | OutOfFuel.

Arguments Ret {S A} a s.
Arguments Fault {S A} f.
Arguments OutOfFuel {S A}.

(** ** Data model (structs of [buffered_tree.c]) *)

Inductive payload_type := Put | Del.

Definition payload_type_eqb (a b : payload_type) : bool :=
  match a, b with
  | Put, Put | Del, Del => true
  | _, _ => false
  end.

(** The only value of the status code the library returns. *)
Inductive status := BF_OK.

(** The three calls a handler trace records: the overflow handlers and the
    node splitter that [container_insert] can reach. *)
Inductive handler := PushToChild | SplitContainer | TrySplitNode.

Section BufferedTree.

(** Keys and values are caller-owned buffers reached through [void *]: an
    [option K] is a key pointer ([None] is the null pointer), likewise for
    values.  Two different buffers may hold equal keys; the comparator, not
    Leibniz equality, decides. *)
Context {K V : Type}.

(** Constants of [buffered_tree.h], which is not part of the sources. *)
Variable BFTREE_DEFAULT_CONTAINER : Z.
Variable BFTREE_CONTAINER_THRESHOLD : Z.
Variable BFTREE_PAYLOAD_THRESHOLD : Z.

Definition key_compare_func := option K -> option K -> Z.

Record payload := mk_payload {
  key : option K;
  val : option V;
  type : payload_type;
  next : ptr
}.

Record container := mk_container {
  payload_first : ptr;
  payload_size : Z;
  child : ptr
}.

(** [containers] holds the first [container_size] slots of the C array;
    [container_count] is its capacity.  In C the slots from [container_size]
    up to the capacity hold stale or indeterminate pointers; reading one of
    them is reported as [OutOfBounds] by [array_get]. *)
Record node := mk_node {
  parent : ptr;
  containers : list ptr;
  container_count : Z
}.

Definition container_size (n : node) : Z := Z.of_nat (length (containers n)).

(** [struct bftree_opts]: a destructor is either absent (null) or installed;
    an installed one is observed through the log of its calls. *)
Record bftree_opts := mk_opts {
  key_destructor : bool;
  val_destructor : bool;
  key_compare : key_compare_func
}.

Record bftree := mk_bftree {
  root : ptr;
  height : Z;
  opts : bftree_opts;
  is_migrated : Z;
  del_payload_count : Z;
  put_payload_count : Z
}.

(** ** The store *)

Record mem := mk_mem {
  tree_obj : option bftree;              (* the tree handle, until freed *)
  payload_heap : gmap N payload;
  container_heap : gmap N container;
  node_heap : gmap N node;
  brk : N;                               (* next address [malloc] returns *)
  key_destroyed : list K;                (* calls of the key destructor *)
  val_destroyed : list V;                (* calls of the value destructor *)
  handler_calls : list handler           (* entries into overflow handlers *)
}.

Definition M (A : Type) : Type := mem -> outcome mem A.

Definition ret {A} (a : A) : M A := fun s => Ret a s.

Definition bind {A B} (m : M A) (k : A -> M B) : M B :=
  fun s => match m s with
           | Ret a s' => k a s'
           | Fault f => Fault f
           | OutOfFuel => OutOfFuel
           end.

Definition fail {A} (f : fault) : M A := fun _ => Fault f.
Definition out_of_fuel {A} : M A := fun _ => OutOfFuel.

Notation "'let*' x := m 'in' k" := (bind m (fun x => k))
  (at level 10, x name, m at level 100, k at level 200).
Notation "'do' m 'in' k" := (bind m (fun _ => k))
  (at level 10, m at level 100, k at level 200).

Definition with_tree (s : mem) (t : option bftree) : mem :=
  mk_mem t (payload_heap s) (container_heap s) (node_heap s) (brk s)
         (key_destroyed s) (val_destroyed s) (handler_calls s).
Definition with_payloads (s : mem) (h : gmap N payload) : mem :=
  mk_mem (tree_obj s) h (container_heap s) (node_heap s) (brk s)
         (key_destroyed s) (val_destroyed s) (handler_calls s).
Definition with_containers (s : mem) (h : gmap N container) : mem :=
  mk_mem (tree_obj s) (payload_heap s) h (node_heap s) (brk s)
         (key_destroyed s) (val_destroyed s) (handler_calls s).
Definition with_nodes (s : mem) (h : gmap N node) : mem :=
  mk_mem (tree_obj s) (payload_heap s) (container_heap s) h (brk s)
         (key_destroyed s) (val_destroyed s) (handler_calls s).

(** [malloc]: a fresh non-null address (allocation never fails here). *)
Definition malloc : M ptr :=
  fun s => Ret (brk s)
     (mk_mem (tree_obj s) (payload_heap s) (container_heap s) (node_heap s)
             (N.succ (brk s)) (key_destroyed s) (val_destroyed s) (handler_calls s)).

(** Reads and writes of whole cells; field updates are built on them. *)
Definition load_tree : M bftree :=
  fun s => match tree_obj s with Some t => Ret t s | None => Fault BadPointer end.
Definition store_tree (t : bftree) : M unit :=
  fun s => match tree_obj s with
           | Some _ => Ret tt (with_tree s (Some t))
           | None => Fault BadPointer
           end.

Definition load_payload (p : ptr) : M payload :=
  fun s => match payload_heap s !! p with Some x => Ret x s | None => Fault BadPointer end.
Definition store_payload (p : ptr) (x : payload) : M unit :=
  fun s => match payload_heap s !! p with
           | Some _ => Ret tt (with_payloads s (<[p := x]> (payload_heap s)))
           | None => Fault BadPointer
           end.
Definition free_payload (p : ptr) : M unit :=
  fun s => match payload_heap s !! p with
           | Some _ => Ret tt (with_payloads s (delete p (payload_heap s)))
           | None => Fault BadPointer
           end.

Definition load_container (p : ptr) : M container :=
  fun s => match container_heap s !! p with Some x => Ret x s | None => Fault BadPointer end.
Definition store_container (p : ptr) (x : container) : M unit :=
  fun s => match container_heap s !! p with
           | Some _ => Ret tt (with_containers s (<[p := x]> (container_heap s)))
           | None => Fault BadPointer
           end.
Definition free_container (p : ptr) : M unit :=
  fun s => match container_heap s !! p with
           | Some _ => Ret tt (with_containers s (delete p (container_heap s)))
           | None => Fault BadPointer
           end.

Definition load_node (p : ptr) : M node :=
  fun s => match node_heap s !! p with Some x => Ret x s | None => Fault BadPointer end.
Definition store_node (p : ptr) (x : node) : M unit :=
  fun s => match node_heap s !! p with
           | Some _ => Ret tt (with_nodes s (<[p := x]> (node_heap s)))
           | None => Fault BadPointer
           end.
Definition free_node (p : ptr) : M unit :=
  fun s => match node_heap s !! p with
           | Some _ => Ret tt (with_nodes s (delete p (node_heap s)))
           | None => Fault BadPointer
           end.

(** Typed allocation: [malloc] followed by the stores that initialise every
    field of the new cell. *)
Definition malloc_payload (x : payload) : M ptr :=
  let* p := malloc in
  fun s => Ret p (with_payloads s (<[p := x]> (payload_heap s))).
Definition malloc_container (x : container) : M ptr :=
  let* p := malloc in
  fun s => Ret p (with_containers s (<[p := x]> (container_heap s))).
Definition malloc_node (x : node) : M ptr :=
  let* p := malloc in
  fun s => Ret p (with_nodes s (<[p := x]> (node_heap s))).

(** Field updates. *)
Definition set_val (x : payload) (v : option V) := mk_payload (key x) v (type x) (next x).
Definition set_type (x : payload) (ty : payload_type) := mk_payload (key x) (val x) ty (next x).
Definition set_next (x : payload) (q : ptr) := mk_payload (key x) (val x) (type x) q.

Definition set_payload_first (c : container) (p : ptr) :=
  mk_container p (payload_size c) (child c).
Definition set_payload_size (c : container) (z : Z) :=
  mk_container (payload_first c) z (child c).
Definition set_child (c : container) (p : ptr) :=
  mk_container (payload_first c) (payload_size c) p.

Definition set_parent (n : node) (p : ptr) := mk_node p (containers n) (container_count n).
Definition set_containers (n : node) (l : list ptr) := mk_node (parent n) l (container_count n).
Definition set_container_count (n : node) (z : Z) := mk_node (parent n) (containers n) z.

Definition set_root (t : bftree) (p : ptr) :=
  mk_bftree p (height t) (opts t) (is_migrated t) (del_payload_count t) (put_payload_count t).
Definition set_height (t : bftree) (z : Z) :=
  mk_bftree (root t) z (opts t) (is_migrated t) (del_payload_count t) (put_payload_count t).
Definition set_is_migrated (t : bftree) (z : Z) :=
  mk_bftree (root t) (height t) (opts t) z (del_payload_count t) (put_payload_count t).
Definition set_del_payload_count (t : bftree) (z : Z) :=
  mk_bftree (root t) (height t) (opts t) (is_migrated t) z (put_payload_count t).
Definition set_put_payload_count (t : bftree) (z : Z) :=
  mk_bftree (root t) (height t) (opts t) (is_migrated t) (del_payload_count t) z.

(** [p->next = q], [c->payload_first = p], ... as read-modify-write of the cell. *)
Definition write_val (p : ptr) (v : option V) : M unit :=
  let* x := load_payload p in store_payload p (set_val x v).
Definition write_type (p : ptr) (ty : payload_type) : M unit :=
  let* x := load_payload p in store_payload p (set_type x ty).
Definition write_next (p q : ptr) : M unit :=
  let* x := load_payload p in store_payload p (set_next x q).
Definition write_payload_first (c p : ptr) : M unit :=
  let* x := load_container c in store_container c (set_payload_first x p).
Definition write_payload_size (c : ptr) (z : Z) : M unit :=
  let* x := load_container c in store_container c (set_payload_size x z).
Definition write_child (c p : ptr) : M unit :=
  let* x := load_container c in store_container c (set_child x p).
Definition write_parent (n p : ptr) : M unit :=
  let* x := load_node n in store_node n (set_parent x p).

(** [a[i]] for an index held in a C integer; a fault outside the used part
    of the array. *)
Definition array_get (l : list ptr) (i : Z) : M ptr :=
  if i <? 0 then fail OutOfBounds
  else match l !! Z.to_nat i with
       | Some p => ret p
       | None => fail OutOfBounds
       end.

(** [++i] on an [int]. *)
Definition int_succ (i : Z) : Z := to_int (i + 1).

(** Calls of the caller-supplied destructors, and entries into handlers. *)
Definition call_key_destructor (k : K) : M unit :=
  fun s => Ret tt
     (mk_mem (tree_obj s) (payload_heap s) (container_heap s) (node_heap s) (brk s)
             (key_destroyed s ++ [k]) (val_destroyed s) (handler_calls s)).
Definition call_val_destructor (v : V) : M unit :=
  fun s => Ret tt
     (mk_mem (tree_obj s) (payload_heap s) (container_heap s) (node_heap s) (brk s)
             (key_destroyed s) (val_destroyed s ++ [v]) (handler_calls s)).
Definition enter (h : handler) : M unit :=
  fun s => Ret tt
     (mk_mem (tree_obj s) (payload_heap s) (container_heap s) (node_heap s) (brk s)
             (key_destroyed s) (val_destroyed s) (handler_calls s ++ [h])).

(** ** The functions of [buffered_tree.c] *)

Definition payload_create (k : option K) (v : option V) (ty : payload_type) : M ptr :=
  malloc_payload (mk_payload k v ty NULL).

Definition payload_free (payload_p : ptr) : M unit :=
  let* x := load_payload payload_p in
  let* t := load_tree in
  do (match key x with
      | Some k => if key_destructor (opts t) then call_key_destructor k else ret tt
      | None => ret tt
      end) in
  do (match val x with
      | Some v => if val_destructor (opts t) then call_val_destructor v else ret tt
      | None => ret tt
      end) in
  do (if payload_type_eqb (type x) Put
      then store_tree (set_put_payload_count t (wrap32 (put_payload_count t - 1)))
      else store_tree (set_del_payload_count t (wrap32 (del_payload_count t - 1)))) in
  free_payload payload_p.

Definition payload_replace (older newer : ptr) : M unit :=
  let* o := load_payload older in
  let temp := val o in
  let* n := load_payload newer in
  do write_val older (val n) in
  do write_val newer temp in
  let* n := load_payload newer in
  do write_type older (type n) in
  payload_free newer.

Definition container_create : M ptr :=
  malloc_container (mk_container NULL 0 NULL).

Fixpoint container_free_loop (fuel : nat) (curr : ptr) : M unit :=
  if is_null curr then ret tt
  else match fuel with
       | O => out_of_fuel
       | S f =>
         let* x := load_payload curr in
         let nxt := next x in
         do payload_free curr in
         container_free_loop f nxt
       end.

Definition container_free (fuel : nat) (container_p : ptr) : M unit :=
  let* c := load_container container_p in
  do container_free_loop fuel (payload_first c) in
  free_container container_p.

(** [realloc] keeps the slots and doubles the capacity; the [memmove] opens
    slot [container_idx+1], which must lie within the used part, and the
    array must have room for one more pointer. *)
Definition insert_after_container (node_p container_p : ptr) (container_idx : Z) : M unit :=
  let* n := load_node node_p in
  let count := if container_size n =? container_count n
               then wrap32 (container_count n * 2) else container_count n in
  if count <=? container_size n then fail OutOfBounds
  else if container_size n =? 0
  then store_node node_p (mk_node (parent n) [container_p] count)
  else
    let pos := wrap32 (container_idx + 1) in
    if container_size n <? pos then fail OutOfBounds
    else store_node node_p
           (mk_node (parent n)
                    (take (Z.to_nat pos) (containers n) ++ container_p
                       :: drop (Z.to_nat pos) (containers n))
                    count).

Definition node_create (parent_node : ptr) : M ptr :=
  malloc_node (mk_node parent_node [] BFTREE_DEFAULT_CONTAINER).

Fixpoint node_free_loop (fuel : nat) (node_p : ptr) (i : Z) : M unit :=
  let* n := load_node node_p in
  if to_uint i <? container_size n then
    match fuel with
    | O => out_of_fuel
    | S f =>
      let* container_p := array_get (containers n) i in
      do container_free f container_p in
      node_free_loop f node_p (int_succ i)
    end
  else ret tt.

Definition node_free (fuel : nat) (node_p : ptr) : M unit :=
  do node_free_loop fuel node_p 0 in
  free_node node_p.

(** The tree handle lives in [tree_obj]; it is the [tree] argument of every
    function below. *)
Definition bftree_create (o : bftree_opts) : M unit :=
  let* root_p := node_create NULL in
  fun s => Ret tt (with_tree s (Some (mk_bftree root_p 1 o 0 0 0))).

Fixpoint bftree_free_node (fuel : nat) (node_p : ptr) : M unit :=
  match fuel with
  | O => out_of_fuel
  | S f =>
    do bftree_free_children f node_p 0 in
    node_free f node_p
  end
with bftree_free_children (fuel : nat) (node_p : ptr) (i : Z) : M unit :=
  match fuel with
  | O => out_of_fuel
  | S f =>
    let* n := load_node node_p in
    if to_uint i <? container_size n then
      let* container_p := array_get (containers n) i in
      let* c := load_container container_p in
      do (if is_null (child c) then ret tt else bftree_free_node f (child c)) in
      bftree_free_children f node_p (int_succ i)
    else ret tt
  end.

Definition bftree_free (fuel : nat) : M unit :=
  let* t := load_tree in
  do bftree_free_node fuel (root t) in
  fun s => Ret tt (with_tree s None).

(** The scan visits at most [container_size] slots, so the loop is given
    that many steps. *)
Fixpoint find_container_loop (steps : nat) (compare : key_compare_func)
    (node_p : ptr) (k : option K) (i : Z) : M Z :=
  let* n := load_node node_p in
  if to_uint i <? container_size n then
    match steps with
    | O => out_of_fuel
    | S steps' =>
      let* container_p := array_get (containers n) i in
      let* c := load_container container_p in
      let* first := load_payload (payload_first c) in
      if compare k (key first) <? 0 then ret i
      else find_container_loop steps' compare node_p k (int_succ i)
    end
  else ret i.

Definition find_container (compare : key_compare_func) (node_p : ptr)
    (k : option K) (start_container : Z) : M Z :=
  let* n := load_node node_p in
  let* i := find_container_loop (length (containers n)) compare node_p k
              (to_int start_container) in
  if i =? 0 then ret 0
  else if i =? -2147483648 then fail SignedOverflow   (* [i - 1] on INT_MIN *)
  else ret (to_uint (i - 1)).

Definition remove_container (node_p : ptr) (idx : Z) : M ptr :=
  let* n := load_node node_p in
  let* removed := array_get (containers n) idx in
  do store_node node_p (set_containers n (delete (Z.to_nat idx) (containers n))) in
  ret removed.

(** Returns the pointer and [*is_equal]. *)
Fixpoint get_payload_loop (fuel : nat) (compare : key_compare_func) (k : option K)
    (prev_payload curr_payload : ptr) : M (ptr * bool) :=
  if is_null curr_payload then ret (prev_payload, false)
  else match fuel with
       | O => out_of_fuel
       | S f =>
         let* x := load_payload curr_payload in
         let compared := compare k (key x) in
         if compared <=? 0 then
           if compared =? 0 then ret (curr_payload, true)
           else ret (prev_payload, false)
         else get_payload_loop f compare k curr_payload (next x)
       end.

Definition get_payload (fuel : nat) (compare : key_compare_func)
    (payload_start : ptr) (k : option K) : M (ptr * bool) :=
  get_payload_loop fuel compare k NULL payload_start.

(** [while (prev->next != separator) prev = prev->next;] *)
Fixpoint find_prev_loop (fuel : nat) (prev separator : ptr) : M ptr :=
  let* x := load_payload prev in
  if N.eqb (next x) separator then ret prev
  else match fuel with
       | O => out_of_fuel
       | S f => find_prev_loop f (next x) separator
       end.

(** [for (i = 0; i < half_count - 1; ++i) payload = payload->next;] with
    [uint32_t] counters. *)
Fixpoint split_walk_loop (fuel : nat) (i bound : Z) (payload_p : ptr) : M ptr :=
  if i <? bound then
    match fuel with
    | O => out_of_fuel
    | S f =>
      let* x := load_payload payload_p in
      split_walk_loop f (wrap32 (i + 1)) bound (next x)
    end
  else ret payload_p.

(** The copy loop of [try_split_node]; returns the final [i].  It visits at
    most [container_size] slots. *)
Fixpoint move_containers_loop (steps : nat) (node_p new_node : ptr)
    (middle_container_idx i : Z) : M Z :=
  let* n := load_node node_p in
  if to_uint i <? container_size n then
    match steps with
    | O => out_of_fuel
    | S steps' =>
      let* container_p := array_get (containers n) i in
      do insert_after_container new_node container_p
           (wrap32 (i - middle_container_idx - 2)) in
      move_containers_loop steps' node_p new_node middle_container_idx (int_succ i)
    end
  else ret i.

(** [container_insert] and the overflow handlers call one another; [fuel]
    bounds the depth of calls and the number of loop iterations. *)
Fixpoint container_insert (fuel : nat) (node_p : ptr) (container_idx : Z)
    (new_payload : ptr) : M ptr :=
  match fuel with
  | O => out_of_fuel
  | S f =>
    let* t := load_tree in
    let compare := key_compare (opts t) in
    let* n := load_node node_p in
    let* target :=
      (if container_size n <=? container_idx then
         let* target := container_create in
         do insert_after_container node_p target 0 in
         ret target
       else array_get (containers n) container_idx) in
    let* tc := load_container target in
    let* np := load_payload new_payload in
    let* found := get_payload f compare (payload_first tc) (key np) in
    let curr_payload := fst found in
    let is_equal := snd found in
    do (if is_equal then
          (* exist same key, swap value of payload *)
          payload_replace curr_payload new_payload
        else
          do (if negb (is_null curr_payload) then
                (* not at the header of payload list *)
                let* cp := load_payload curr_payload in
                do write_next new_payload (next cp) in
                write_next curr_payload new_payload
              else
                (* at the header of payload list *)
                let* tc := load_container target in
                do write_next new_payload (payload_first tc) in
                write_payload_first target new_payload) in
          let* tc := load_container target in
          write_payload_size target (wrap32 (payload_size tc + 1))) in
    let* tc := load_container target in
    let* t := load_tree in
    do (if (BFTREE_PAYLOAD_THRESHOLD <? payload_size tc) && negb (is_migrated t =? 0) then
          if negb (is_null (child tc)) then push_to_child f node_p target
          else split_container f node_p container_idx
        else ret tt) in
    ret target
  end

with push_to_child (fuel : nat) (node_p container_p : ptr) : M unit :=
  match fuel with
  | O => out_of_fuel
  | S f =>
    do enter PushToChild in
    let* t := load_tree in
    let compare := key_compare (opts t) in
    let* c := load_container container_p in
    let* first := load_payload (payload_first c) in
    let curr_payload := next first in
    let child_container := 0 in
    let push_count := payload_size c / 2 in
    do write_payload_size container_p (wrap32 (payload_size c - push_count)) in
    let* t := load_tree in
    (* [skip_delete] is assigned only when deletes outnumber puts *)
    let skip_delete : option Z :=
      if put_payload_count t <? del_payload_count t then Some 1 else None in
    push_to_child_loop f compare container_p skip_delete push_count
                       curr_payload child_container
  end

with push_to_child_loop (fuel : nat) (compare : key_compare_func) (container_p : ptr)
    (skip_delete : option Z) (push_count : Z) (curr_payload : ptr)
    (child_container : Z) : M unit :=
  match fuel with
  | O => out_of_fuel
  | S f =>
    if push_count =? 0 then ret tt      (* while (push_count--) *)
    else
      let push_count := wrap32 (push_count - 1) in
      let* cp := load_payload curr_payload in
      let next_payload := next cp in
      let* c := load_container container_p in
      do write_next (payload_first c) next_payload in
      let* cp := load_payload curr_payload in
      let* skip :=
        (match type cp with
         | Del => match skip_delete with
                  | Some z => ret (negb (z =? 0))
                  | None => fail Uninitialized
                  end
         | Put => ret false
         end) in
      if skip then
        do payload_free curr_payload in
        push_to_child_loop f compare container_p skip_delete push_count
                           curr_payload child_container
      else
        let* c := load_container container_p in
        let* cp := load_payload curr_payload in
        let* child_container :=
          find_container compare (child c) (key cp) child_container in
        let* c := load_container container_p in
        let* _ := container_insert f (child c) child_container curr_payload in
        push_to_child_loop f compare container_p skip_delete push_count
                           next_payload child_container
  end

with order_container_payload (fuel : nat) (node_p : ptr)
    (migrated_idx import_idx : Z) : M unit :=
  match fuel with
  | O => out_of_fuel
  | S f =>
    let* n := load_node node_p in
    let* left := array_get (containers n) migrated_idx in
    let* right := array_get (containers n) import_idx in
    let* t := load_tree in
    let compare := key_compare (opts t) in
    let* lc := load_container left in
    let* rc := load_container right in
    let* rfirst := load_payload (payload_first rc) in
    let* found := get_payload f compare (payload_first lc) (key rfirst) in
    let is_equal := snd found in
    let* separator :=
      (if is_equal then
         let* lc := load_container left in
         let* prev := find_prev_loop f (payload_first lc) (fst found) in
         let* rc := load_container right in
         do payload_replace (payload_first rc) (fst found) in
         let* lc := load_container left in
         do write_payload_size left (wrap32 (payload_size lc - 1)) in
         ret prev
       else ret (fst found)) in
    if negb (is_null separator) then
      let* sp := load_payload separator in
      let curr := next sp in
      do write_next separator NULL in
      let* t := load_tree in
      do store_tree (set_is_migrated t 1) in
      do order_container_payload_loop f node_p left import_idx curr in
      let* t := load_tree in
      store_tree (set_is_migrated t 0)
    else ret tt
  end

with order_container_payload_loop (fuel : nat) (node_p left : ptr)
    (import_idx : Z) (curr : ptr) : M unit :=
  match fuel with
  | O => out_of_fuel
  | S f =>
    if is_null curr then ret tt
    else
      let* lc := load_container left in
      do write_payload_size left (wrap32 (payload_size lc - 1)) in
      let* _ := container_insert f node_p import_idx curr in
      let* x := load_payload curr in
      order_container_payload_loop f node_p left import_idx (next x)
  end

with try_split_node (fuel : nat) (node_p : ptr) : M unit :=
  match fuel with
  | O => out_of_fuel
  | S f =>
    do enter TrySplitNode in
    let* n := load_node node_p in
    if container_size n <? BFTREE_CONTAINER_THRESHOLD then ret tt
    else
      let middle_container_idx := container_size n / 2 in
      let* new_node := node_create (parent n) in
      let* new_node_first_container := array_get (containers n) middle_container_idx in
      do write_child new_node_first_container new_node in
      let* i := move_containers_loop (length (containers n)) node_p new_node
                  middle_container_idx (to_int (middle_container_idx + 1)) in
      let* n := load_node node_p in
      let size' := wrap32 (container_size n - wrap32 (i - middle_container_idx)) in
      do (if size' <=? container_size n
          then store_node node_p (set_containers n (take (Z.to_nat size') (containers n)))
          else fail OutOfBounds) in
      let* t := load_tree in
      if N.eqb node_p (root t) then
        (* produce new root *)
        let* new_root := node_create NULL in
        do store_tree (set_root t new_root) in
        let* t := load_tree in
        do store_tree (set_height t (wrap32 (height t + 1))) in
        do write_parent node_p new_root in
        do write_parent new_node new_root in
        let* container_p := remove_container node_p 0 in
        do write_child container_p node_p in
        do insert_after_container new_root container_p 0 in
        insert_after_container new_root new_node_first_container 0
      else
        let* n := load_node node_p in
        let* seam := load_container new_node_first_container in
        let* first := load_payload (payload_first seam) in
        let* parent_container_idx :=
          find_container (key_compare (opts t)) (parent n) (key first) 0 in
        let* n := load_node node_p in
        do insert_after_container (parent n) new_node_first_container
             parent_container_idx in
        let* n := load_node node_p in
        do order_container_payload f (parent n) parent_container_idx
             (wrap32 (parent_container_idx + 1)) in
        let* n := load_node node_p in
        try_split_node f (parent n)
  end

with split_container (fuel : nat) (node_p : ptr) (container_idx : Z) : M unit :=
  match fuel with
  | O => out_of_fuel
  | S f =>
    do enter SplitContainer in
    let* new_container := container_create in
    do insert_after_container node_p new_container container_idx in
    let* n := load_node node_p in
    let* target := array_get (containers n) container_idx in
    let* tc := load_container target in
    let half_count := payload_size tc / 2 in
    let* payload_p := split_walk_loop f 0 (wrap32 (half_count - 1)) (payload_first tc) in
    let* x := load_payload payload_p in
    do write_payload_first new_container (next x) in
    do write_next payload_p NULL in
    let* tc := load_container target in
    do write_payload_size new_container (wrap32 (payload_size tc - half_count)) in
    do write_payload_size target half_count in
    try_split_node f node_p
  end.

Fixpoint container_get (fuel : nat) (node_p : ptr) (container_idx : Z)
    (k : option K) : M ptr :=
  match fuel with
  | O => out_of_fuel
  | S f =>
    let* n := load_node node_p in
    if container_size n <=? container_idx then ret NULL
    else
      let* t := load_tree in
      let compare := key_compare (opts t) in
      let* container_p := array_get (containers n) container_idx in
      let* c := load_container container_p in
      let* found := get_payload f compare (payload_first c) k in
      let curr_payload := fst found in
      if snd found then
        let* cp := load_payload curr_payload in
        if payload_type_eqb (type cp) Put then ret curr_payload
        else ret NULL
      else if negb (is_null (child c)) then
        let* container_idx := find_container compare (child c) k 0 in
        container_get f (child c) container_idx k
      else ret NULL
  end.

Definition bftree_put (fuel : nat) (k : option K) (v : option V) : M status :=
  let* new_payload := payload_create k v Put in
  let* t := load_tree in
  let* np := load_payload new_payload in
  let* idx := find_container (key_compare (opts t)) (root t) (key np) 0 in
  let* _ := container_insert fuel (root t) idx new_payload in
  ret BF_OK.

Definition bftree_get (fuel : nat) (k : option K) : M (option V) :=
  let* t := load_tree in
  let* idx := find_container (key_compare (opts t)) (root t) k 0 in
  let* r := container_get fuel (root t) idx k in
  if negb (is_null r) then
    let* x := load_payload r in ret (val x)
  else ret None.

Definition bftree_del (fuel : nat) (k : option K) : M status :=
  let* new_payload := payload_create k None Del in
  let* t := load_tree in
  let* np := load_payload new_payload in
  let* idx := find_container (key_compare (opts t)) (root t) (key np) 0 in
  let* _ := container_insert fuel (root t) idx new_payload in
  ret BF_OK.

(** Debug area: the assertions of [validate_containers]. *)
Fixpoint validate_chain_loop (fuel : nat) (compare : key_compare_func)
    (prev curr : ptr) : M unit :=
  if is_null curr then ret tt
  else match fuel with
       | O => out_of_fuel
       | S f =>
         let* px := load_payload prev in
         let* cx := load_payload curr in
         if compare (key px) (key cx) <? 0
         then validate_chain_loop f compare curr (next cx)
         else fail AssertFailed
       end.

Fixpoint validate_containers_loop (steps fuel : nat) (node_p : ptr)
    (compare : key_compare_func) (i : Z) : M unit :=
  let* n := load_node node_p in
  if to_uint i <? container_size n then
    match steps with
    | O => out_of_fuel
    | S steps' =>
      let* ci := array_get (containers n) i in
      let* c := load_container ci in
      let prev := payload_first c in
      let* px := load_payload prev in
      do validate_chain_loop fuel compare prev (next px) in
      do (if i =? 0 then ret tt
          else
            let* cj := array_get (containers n) (i - 1) in
            let* c' := load_container cj in
            let* f' := load_payload (payload_first c') in
            let* f := load_payload (payload_first c) in
            if compare (key f') (key f) <? 0 then ret tt else fail AssertFailed) in
      validate_containers_loop steps' fuel node_p compare (int_succ i)
    end
  else ret tt.

Definition validate_containers (fuel : nat) (node_p : ptr)
    (compare : key_compare_func) : M unit :=
  let* n := load_node node_p in
  validate_containers_loop (length (containers n)) fuel node_p compare 0.

(** ** Sequences of public operations *)

Inductive op :=
  | OpPut (k : option K) (v : option V)
  | OpDel (k : option K)
  | OpGet (k : option K).

Definition exec_op (fuel : nat) (o : op) : M unit :=
  match o with
  | OpPut k v => do bftree_put fuel k v in ret tt
  | OpDel k => do bftree_del fuel k in ret tt
  | OpGet k => do bftree_get fuel k in ret tt
  end.

Fixpoint exec_ops (fuel : nat) (l : list op) : M unit :=
  match l with
  | [] => ret tt
  | o :: l' => do exec_op fuel o in exec_ops fuel l'
  end.

(** Nothing is allocated before [bftree_create]. *)
Definition empty_mem : mem := mk_mem None ∅ ∅ ∅ 1%N [] [] [].

(** [bftree_create(opts)] followed by the operations of [l]. *)
Definition run (fuel : nat) (o : bftree_opts) (l : list op) : outcome mem unit :=
  (do bftree_create o in exec_ops fuel l) empty_mem.

(** ** Comparators

    The caller's comparator is a total order on keys up to the equivalence
    [compare a b = 0]: exchanging the arguments flips the sign, and
    [<=] is transitive. *)
Record total_order (cmp : key_compare_func) : Prop := {
  cmp_sgn : ∀ a b, Z.sgn (cmp a b) = - Z.sgn (cmp b a);
  cmp_trans : ∀ a b c, cmp a b <= 0 → cmp b c <= 0 → cmp a c <= 0
}.

(** ** What a chain holds, read off the cells

    An [entry] is a payload without its link.  [model_insert] and
    [model_get] are the scans of [container_insert] and [container_get]
    on the sequence of entries of one chain. *)
Definition entry : Type := option K * option V * payload_type.

Definition e_key (e : entry) : option K := e.1.1.
Definition e_val (e : entry) : option V := e.1.2.
Definition e_type (e : entry) : payload_type := e.2.

Lemma e_key_mk (a : option K) (b : option V) (c : payload_type) : e_key (a, b, c) = a.
Proof. reflexivity. Qed.
Lemma e_val_mk (a : option K) (b : option V) (c : payload_type) : e_val (a, b, c) = b.
Proof. reflexivity. Qed.
Lemma e_type_mk (a : option K) (b : option V) (c : payload_type) : e_type (a, b, c) = c.
Proof. reflexivity. Qed.

Definition content (x : payload) : entry := (key x, val x, type x).

Definition contents (l : list (ptr * payload)) : list entry :=
  map (λ ax, content ax.2) l.

Fixpoint model_insert (cmp : key_compare_func) (e : entry) (m : list entry) : list entry :=
  match m with
  | [] => [e]
  | y :: m' =>
    let c := cmp (e_key e) (e_key y) in
    if c <=? 0 then
      if c =? 0 then (e_key y, e_val e, e_type e) :: m'
      else e :: y :: m'
    else y :: model_insert cmp e m'
  end.

(** The entry with a key equal to [k], as the scan meets it. *)
Fixpoint model_find (cmp : key_compare_func) (k : option K) (m : list entry) : option entry :=
  match m with
  | [] => None
  | y :: m' =>
    let c := cmp k (e_key y) in
    if c <=? 0 then (if c =? 0 then Some y else None)
    else model_find cmp k m'
  end.

Definition model_get (cmp : key_compare_func) (k : option K) (m : list entry) : option V :=
  match model_find cmp k m with
  | Some y => match e_type y with Put => e_val y | Del => None end
  | None => None
  end.

Definition key_lt (cmp : key_compare_func) (x y : entry) : Prop :=
  cmp (e_key x) (e_key y) < 0.

Definition sorted (cmp : key_compare_func) (m : list entry) : Prop :=
  StronglySorted (key_lt cmp) m.

Section Order.
Context (cmp : key_compare_func) (Hcmp : total_order cmp).

Lemma cmp_refl a : cmp a a = 0.
Proof. pose proof (cmp_sgn cmp Hcmp a a). lia. Qed.

Lemma cmp_flip_lt a b : cmp a b < 0 ↔ 0 < cmp b a.
Proof. pose proof (cmp_sgn cmp Hcmp a b). lia. Qed.

Lemma cmp_flip_eq a b : cmp a b = 0 ↔ cmp b a = 0.
Proof. pose proof (cmp_sgn cmp Hcmp a b). lia. Qed.

Lemma cmp_lt_le_trans a b c : cmp a b < 0 → cmp b c <= 0 → cmp a c < 0.
Proof.
  intros Hab Hbc.
  destruct (Z_lt_le_dec (cmp a c) 0) as [|Hac]; [done|].
  assert (cmp c a <= 0) by (pose proof (cmp_sgn cmp Hcmp a c); lia).
  assert (cmp b a <= 0) by eauto using cmp_trans.
  pose proof (cmp_sgn cmp Hcmp a b). lia.
Qed.

Lemma cmp_le_lt_trans a b c : cmp a b <= 0 → cmp b c < 0 → cmp a c < 0.
Proof.
  intros Hab Hbc.
  destruct (Z_lt_le_dec (cmp a c) 0) as [|Hac]; [done|].
  assert (cmp c a <= 0) by (pose proof (cmp_sgn cmp Hcmp a c); lia).
  assert (cmp c b <= 0) by eauto using cmp_trans.
  pose proof (cmp_sgn cmp Hcmp b c). lia.
Qed.

(** Keys that compare equal are interchangeable on either side. *)
Lemma cmp_eq_l a a' b : cmp a' a = 0 → Z.sgn (cmp a' b) = Z.sgn (cmp a b).
Proof.
  intros Heq. apply cmp_flip_eq in Heq as Heq'.
  destruct (Z.lt_trichotomy (cmp a b) 0) as [Hlt|[Hz|Hgt]].
  - assert (cmp a' b < 0) by (apply cmp_le_lt_trans with a; lia). lia.
  - assert (cmp a' b <= 0) by (apply (cmp_trans cmp Hcmp) with a; lia).
    apply cmp_flip_eq in Hz as Hz'.
    assert (cmp b a' <= 0) by (apply (cmp_trans cmp Hcmp) with a; lia).
    pose proof (cmp_sgn cmp Hcmp a' b). lia.
  - apply cmp_flip_lt in Hgt as Hgt'.
    assert (cmp b a' < 0) by (apply cmp_lt_le_trans with a; lia).
    apply cmp_flip_lt in H. lia.
Qed.

Lemma cmp_eq_r a b b' : cmp b' b = 0 → Z.sgn (cmp a b') = Z.sgn (cmp a b).
Proof.
  intros Heq. pose proof (cmp_eq_l b b' a Heq).
  pose proof (cmp_sgn cmp Hcmp a b'). pose proof (cmp_sgn cmp Hcmp a b). lia.
Qed.

Lemma model_find_insert_same e m k' :
  cmp k' (e_key e) = 0 →
  ∃ y, model_find cmp k' (model_insert cmp e m) = Some y
       ∧ e_val y = e_val e ∧ e_type y = e_type e.
Proof.
  intros Heq. induction m as [|y m IH]; cbn [model_insert model_find].
  - rewrite Heq. simpl. eauto.
  - pose proof (cmp_eq_l (e_key e) k' (e_key y) Heq) as Hs.
    destruct (cmp (e_key e) (e_key y) <=? 0) eqn:Hle.
    + destruct (cmp (e_key e) (e_key y) =? 0) eqn:Hz; cbn [model_find].
      * rewrite e_key_mk.
        replace (cmp k' (e_key y)) with 0 by lia. simpl. eauto.
      * rewrite Heq. simpl. eauto.
    + cbn [model_find].
      replace (cmp k' (e_key y) <=? 0) with false by lia. done.
Qed.

Lemma model_find_insert_other e m k' :
  cmp k' (e_key e) ≠ 0 →
  model_find cmp k' (model_insert cmp e m) = model_find cmp k' m.
Proof.
  intros Hne. induction m as [|y m IH]; cbn [model_insert model_find].
  - destruct (cmp k' (e_key e) <=? 0) eqn:?; [|done].
    replace (cmp k' (e_key e) =? 0) with false by lia. done.
  - destruct (cmp (e_key e) (e_key y) <=? 0) eqn:Hle.
    + destruct (cmp (e_key e) (e_key y) =? 0) eqn:Hz; cbn [model_find].
      * rewrite e_key_mk.
        assert (cmp k' (e_key y) ≠ 0).
        { assert (cmp (e_key y) (e_key e) = 0) by (apply cmp_flip_eq; lia).
          pose proof (cmp_eq_r k' (e_key e) (e_key y) H). lia. }
        destruct (cmp k' (e_key y) <=? 0) eqn:?; [|done].
        replace (cmp k' (e_key y) =? 0) with false by lia. done.
      * destruct (cmp k' (e_key e) <=? 0) eqn:Hk.
        -- replace (cmp k' (e_key e) =? 0) with false by lia.
           assert (cmp k' (e_key y) < 0) by (apply cmp_lt_le_trans with (e_key e); lia).
           replace (cmp k' (e_key y) <=? 0) with true by lia.
           replace (cmp k' (e_key y) =? 0) with false by lia. done.
        -- done.
    + cbn [model_find]. destruct (cmp k' (e_key y) <=? 0); [done|]. apply IH.
Qed.

Lemma model_get_insert_same e m k' :
  cmp k' (e_key e) = 0 →
  model_get cmp k' (model_insert cmp e m)
  = match e_type e with Put => e_val e | Del => None end.
Proof.
  intros Heq. unfold model_get.
  destruct (model_find_insert_same e m k' Heq) as (y & -> & -> & ->). done.
Qed.

Lemma model_get_insert_other e m k' :
  cmp k' (e_key e) ≠ 0 →
  model_get cmp k' (model_insert cmp e m) = model_get cmp k' m.
Proof. intros. unfold model_get. by rewrite model_find_insert_other. Qed.

Lemma model_insert_Forall_lt y e m :
  key_lt cmp y e → Forall (key_lt cmp y) m → Forall (key_lt cmp y) (model_insert cmp e m).
Proof.
  intros Hye Hm. induction Hm as [|z m Hz Hm IH]; cbn [model_insert].
  - by constructor.
  - destruct (_ <=? 0); [destruct (_ =? 0)|]; repeat constructor; auto.
Qed.

Lemma model_insert_sorted e m : sorted cmp m → sorted cmp (model_insert cmp e m).
Proof.
  unfold sorted. induction 1 as [|y m Hm IH Hy]; cbn [model_insert].
  - repeat constructor.
  - destruct (cmp (e_key e) (e_key y) <=? 0) eqn:Hle.
    + destruct (cmp (e_key e) (e_key y) =? 0) eqn:Hz.
      * constructor; [done|]. eapply Forall_impl; [exact Hy|]. done.
      * constructor; [by constructor|].
        assert (key_lt cmp e y) by (unfold key_lt; lia).
        constructor; [done|].
        eapply Forall_impl; [exact Hy|]. intros z Hyz. unfold key_lt in *.
        apply cmp_lt_le_trans with (e_key y); lia.
    + constructor; [done|]. apply model_insert_Forall_lt; [|done].
      unfold key_lt. apply cmp_flip_lt. lia.
Qed.

Lemma model_insert_app e m1 m2 :
  Forall (λ y, 0 < cmp (e_key e) (e_key y)) m1 →
  model_insert cmp e (m1 ++ m2) = m1 ++ model_insert cmp e m2.
Proof.
  induction 1 as [|y m1 Hy _ IH]; [done|]. cbn [model_insert app].
  replace (cmp (e_key e) (e_key y) <=? 0) with false by lia. by rewrite IH.
Qed.

Lemma model_find_app k m1 m2 :
  Forall (λ y, 0 < cmp k (e_key y)) m1 →
  model_find cmp k (m1 ++ m2) = model_find cmp k m2.
Proof.
  induction 1 as [|y m1 Hy _ IH]; [done|]. cbn [model_find app].
  replace (cmp k (e_key y) <=? 0) with false by lia. done.
Qed.

End Order.

(** ** Chains in the store

    A chain is described by the list of its cells, each with its address.
    [lseg l q]: the cells of [l] are linked in this order and the last one
    points to [q]. *)
Definition head_or (l : list (ptr * payload)) (q : ptr) : ptr :=
  match l with
  | [] => q
  | ax :: _ => ax.1
  end.

Fixpoint lseg (l : list (ptr * payload)) (q : ptr) : Prop :=
  match l with
  | [] => True
  | ax :: l' => ax.1 ≠ NULL ∧ next ax.2 = head_or l' q ∧ lseg l' q
  end.

(** The pair [get_payload] returns on a chain whose cells are [l]. *)
Fixpoint get_payload_spec (cmp : key_compare_func) (k : option K) (prev : ptr)
    (l : list (ptr * payload)) : ptr * bool :=
  match l with
  | [] => (prev, false)
  | ax :: l' =>
    let c := cmp k (key ax.2) in
    if c <=? 0 then (if c =? 0 then (ax.1, true) else (prev, false))
    else get_payload_spec cmp k ax.1 l'
  end.

(** A well-formed chain below the allocation mark [b]. *)
Record chain_ok (cmp : key_compare_func) (b : N) (l : list (ptr * payload)) : Prop := {
  ck_nodup : NoDup l.*1;
  ck_lseg : lseg l NULL;
  ck_sorted : sorted cmp (contents l);
  ck_below : Forall (λ a, (a < b)%N) l.*1
}.

(** The stores public operations produce: a root node that is a leaf, with
    no container yet or with exactly one, whose chain holds every payload. *)
Inductive shape (o : bftree_opts) : mem → list (ptr * payload) → Prop :=
  | shape_empty r dc pc b kd vd :
      (0 < b)%N →
      shape o (mk_mem (Some (mk_bftree r 1 o 0 dc pc)) ∅ ∅
                      {[ r := mk_node NULL [] BFTREE_DEFAULT_CONTAINER ]}
                      b kd vd []) []
  | shape_chain r c dc pc b kd vd l :
      l ≠ [] →
      chain_ok (key_compare o) b l →
      shape o (mk_mem (Some (mk_bftree r 1 o 0 dc pc)) (list_to_map l)
                      {[ c := mk_container (head_or l NULL)
                                           (wrap32 (Z.of_nat (length l))) NULL ]}
                      {[ r := mk_node NULL [c] BFTREE_DEFAULT_CONTAINER ]}
                      b kd vd []) l.

Lemma lseg_app l1 l2 q : lseg (l1 ++ l2) q ↔ lseg l1 (head_or l2 q) ∧ lseg l2 q.
Proof.
  induction l1 as [|ax l1 IH]; simpl; [tauto|].
  rewrite IH. destruct l1; simpl; tauto.
Qed.

Lemma list_to_map_update (l1 l2 : list (ptr * payload)) a y y' :
  NoDup (l1 ++ (a, y) :: l2).*1 →
  <[a := y']> (list_to_map (l1 ++ (a, y) :: l2) : gmap N payload)
  = list_to_map (l1 ++ (a, y') :: l2).
Proof.
  induction l1 as [|[b z] l1 IH]; simpl; intros Hnd.
  - by rewrite insert_insert_eq.
  - apply NoDup_cons in Hnd as [Hb Hnd].
    rewrite insert_insert_ne.
    + by rewrite IH.
    + intros ->. apply Hb. rewrite fmap_app. simpl. set_solver.
Qed.

Lemma list_to_map_add (l1 l2 : list (ptr * payload)) a x :
  a ∉ l1.*1 →
  <[a := x]> (list_to_map (l1 ++ l2) : gmap N payload)
  = list_to_map (l1 ++ (a, x) :: l2).
Proof.
  induction l1 as [|[b z] l1 IH]; simpl; intros Hnd; [done|].
  apply not_elem_of_cons in Hnd as [Hb Hnd].
  rewrite insert_insert_ne; [|done]. by rewrite IH.
Qed.

(** ** Running the code on well-formed chains *)

Lemma bind_Ret {A B} (m : M A) (k : A → M B) s a s' :
  m s = Ret a s' → bind m k s = k a s'.
Proof. unfold bind. by intros ->. Qed.

Lemma load_payload_Some p x s :
  payload_heap s !! p = Some x → load_payload p s = Ret x s.
Proof. unfold load_payload. by intros ->. Qed.

Lemma get_payload_loop_ok cmp k l : ∀ fuel prev s,
  (∀ ax, ax ∈ l → payload_heap s !! ax.1 = Some ax.2) →
  lseg l NULL →
  (length l ≤ fuel)%nat →
  get_payload_loop fuel cmp k prev (head_or l NULL) s
  = Ret (get_payload_spec cmp k prev l) s.
Proof.
  induction l as [|[a x] l IH]; intros fuel prev s Hheap Hseg Hfuel.
  - by destruct fuel.
  - destruct Hseg as (Ha & Hnext & Hseg). simpl in Ha, Hnext, Hfuel.
    destruct fuel as [|f]; [lia|].
    cbn [get_payload_loop head_or fst].
    replace (is_null a) with false
      by (symmetry; apply N.eqb_neq; exact Ha).
    rewrite (bind_Ret _ _ s x s) by (apply load_payload_Some, (Hheap (a, x)); left).
    cbn [get_payload_spec fst snd].
    destruct (cmp k (key x) <=? 0); [by destruct (cmp k (key x) =? 0)|].
    rewrite Hnext. apply IH; [|done|lia].
    intros ax Hax. apply Hheap. by right.
Qed.

(** The three ways the scan for [k] can end on a chain. *)
Inductive scan_result (cmp : key_compare_func) (k : option K) (prev : ptr)
    (l : list (ptr * payload)) : ptr * bool → Prop :=
  | scan_equal l1 p y l2 :
      l = l1 ++ (p, y) :: l2 →
      Forall (λ ax, 0 < cmp k (key ax.2)) l1 →
      cmp k (key y) = 0 →
      scan_result cmp k prev l (p, true)
  | scan_head :
      match l with [] => True | ax :: _ => cmp k (key ax.2) < 0 end →
      scan_result cmp k prev l (prev, false)
  | scan_after l1 p y l2 :
      l = l1 ++ (p, y) :: l2 →
      Forall (λ ax, 0 < cmp k (key ax.2)) (l1 ++ [(p, y)]) →
      match l2 with [] => True | ax :: _ => cmp k (key ax.2) < 0 end →
      scan_result cmp k prev l (p, false).

Lemma get_payload_spec_cases cmp k l : ∀ prev,
  scan_result cmp k prev l (get_payload_spec cmp k prev l).
Proof.
  induction l as [|[a x] l IH]; intros prev; cbn [get_payload_spec fst snd].
  - by apply scan_head.
  - destruct (cmp k (key x) <=? 0) eqn:Hle.
    + destruct (cmp k (key x) =? 0) eqn:Hz.
      * apply (scan_equal _ _ _ _ [] a x l); [done|constructor|lia].
      * apply scan_head. simpl. lia.
    + destruct (IH a) as [l1 p y l2 -> Hl1 Hy| Hhd |l1 p y l2 -> Hl1 Hl2].
      * apply (scan_equal _ _ _ _ ((a, x) :: l1) p y l2); [done| |done].
        constructor; [simpl; lia|done].
      * apply (scan_after _ _ _ _ [] a x l); [done| |done].
        repeat constructor. simpl. lia.
      * apply (scan_after _ _ _ _ ((a, x) :: l1) p y l2); [done| |done].
        constructor; [simpl; lia|done].
Qed.

Lemma load_container_Some p x s :
  container_heap s !! p = Some x → load_container p s = Ret x s.
Proof. unfold load_container. by intros ->. Qed.

Lemma load_node_Some p x s :
  node_heap s !! p = Some x → load_node p s = Ret x s.
Proof. unfold load_node. by intros ->. Qed.

Lemma load_tree_Some t s : tree_obj s = Some t → load_tree s = Ret t s.
Proof. unfold load_tree. by intros ->. Qed.

Lemma wrap32_small z : 0 <= z < 4294967296 → wrap32 z = z.
Proof. intros. unfold wrap32. by apply Z.mod_small. Qed.

Lemma to_int_small z : 0 <= z < 2147483648 → to_int z = z.
Proof.
  intros. unfold to_int. rewrite wrap32_small by lia.
  destruct (z <? 2147483648) eqn:?; lia.
Qed.

Lemma to_uint_to_int z : to_uint (to_int z) = wrap32 z.
Proof.
  unfold to_uint, to_int, wrap32.
  pose proof (Z.mod_pos_bound z 4294967296 ltac:(lia)).
  destruct (z mod 4294967296 <? 2147483648).
  - by rewrite Z.mod_mod.
  - rewrite <- (Z.mod_add _ 1) by lia.
    replace (z mod 4294967296 - 4294967296 + 1 * 4294967296) with (z mod 4294967296) by lia.
    by rewrite Z.mod_mod.
Qed.

Lemma array_get_Some (l : list ptr) i p :
  0 <= i → l !! Z.to_nat i = Some p → array_get l i = ret p.
Proof.
  intros Hi Hl. unfold array_get. rewrite Hl.
  destruct (i <? 0) eqn:?; [lia|done].
Qed.

(** ** [find_container] on a node whose containers are allocated and
    non-empty: [seps] lists their separator keys. *)
Definition sep_of (s : mem) (c : ptr) (k : option K) : Prop :=
  ∃ cc x, container_heap s !! c = Some cc
          ∧ payload_heap s !! payload_first cc = Some x ∧ key x = k.

Definition node_seps (s : mem) (n : node) (seps : list (option K)) : Prop :=
  Forall2 (sep_of s) (containers n) seps.

Lemma find_container_loop_exit steps cmp r k i s n :
  node_heap s !! r = Some n →
  container_size n <= to_uint i →
  find_container_loop steps cmp r k i s = Ret i s.
Proof.
  intros Hr Hi.
  destruct steps; cbn [find_container_loop];
    rewrite (bind_Ret _ _ s n s) by (by apply load_node_Some);
    replace (to_uint i <? container_size n) with false by lia; done.
Qed.

Lemma find_container_loop_scan cmp r k s n seps :
  node_heap s !! r = Some n →
  node_seps s n seps →
  container_size n < 2147483648 →
  ∀ steps i,
    0 <= i <= container_size n →
    (Z.to_nat (container_size n - i) ≤ steps)%nat →
    ∃ j, find_container_loop steps cmp r k i s = Ret j s
         ∧ i <= j <= container_size n
         ∧ (∀ m sep, i <= Z.of_nat m < j → seps !! m = Some sep → 0 <= cmp k sep)
         ∧ (∀ sep, seps !! Z.to_nat j = Some sep → cmp k sep < 0).
Proof.
  intros Hr Hseps Hsize. induction steps as [|steps IH]; intros i Hi Hsteps.
  - exists i. rewrite (find_container_loop_exit _ _ _ _ _ _ n) by
      (try done; unfold to_uint; rewrite wrap32_small; lia).
    split_and!; [done|lia|lia|intros; lia|].
    intros sep Hsep. apply lookup_lt_Some in Hsep.
    apply Forall2_length in Hseps. unfold container_size in *. lia.
  - destruct (Z_lt_le_dec i (container_size n)) as [Hlt|Hge].
    + cbn [find_container_loop].
      rewrite (bind_Ret _ _ s n s) by (by apply load_node_Some).
      replace (to_uint i <? container_size n) with true
        by (unfold to_uint; rewrite wrap32_small; lia).
      destruct (lookup_lt_is_Some_2 (containers n) (Z.to_nat i)) as [c Hc].
      { unfold container_size in *. lia. }
      destruct (Forall2_lookup_l _ _ _ _ _ Hseps Hc) as (sep & Hsep & cc & x & Hcc & Hx & Hkey).
      rewrite (array_get_Some _ _ c) by (done || lia).
      rewrite (bind_Ret _ _ s c s) by done.
      rewrite (bind_Ret _ _ s cc s) by (by apply load_container_Some).
      rewrite (bind_Ret _ _ s x s) by (by apply load_payload_Some).
      destruct (cmp k (key x) <? 0) eqn:Hcmp.
      * exists i. split_and!; [done|lia|lia|intros; lia|].
        intros sep' Hsep'. rewrite Hsep in Hsep'. injection Hsep' as <-. subst sep. lia.
      * unfold int_succ. rewrite to_int_small by lia.
        destruct (IH (i + 1)) as (j & Hj & Hij & Hbefore & Hat); [lia|lia|].
        exists j. split_and!; [done|lia|lia| |done].
        intros m sep' Hm Hsep'.
        destruct (decide (Z.of_nat m = i)) as [Hmi|Hmi].
        -- replace (Z.to_nat i) with m in Hsep by lia.
           rewrite Hsep in Hsep'. injection Hsep' as <-. subst sep. lia.
        -- apply (Hbefore m); [lia|done].
    + exists i. rewrite (find_container_loop_exit _ _ _ _ _ _ n) by
        (try done; unfold to_uint; rewrite wrap32_small; lia).
      split_and!; [done|lia|lia|intros; lia|].
      intros sep Hsep. apply lookup_lt_Some in Hsep.
      apply Forall2_length in Hseps. unfold container_size in *. lia.
Qed.

Lemma to_uint_to_int_add z d : to_uint (to_int z + d) = wrap32 (z + d).
Proof.
  unfold to_uint, to_int, wrap32.
  destruct (z mod 4294967296 <? 2147483648).
  - by rewrite Zplus_mod_idemp_l.
  - replace (z mod 4294967296 - 4294967296 + d)
      with (z mod 4294967296 + d + (-1) * 4294967296) by lia.
    rewrite Z.mod_add by lia. by rewrite Zplus_mod_idemp_l.
Qed.

Lemma to_int_eq_0 z : 0 <= z < 4294967296 → to_int z = 0 ↔ z = 0.
Proof.
  intros Hz. unfold to_int. rewrite wrap32_small by done.
  destruct (z <? 2147483648) eqn:?; lia.
Qed.

(** The value [find_container] returns, in terms of the index [j] at which
    its scan stops. *)
Lemma find_container_ok cmp r k s n seps start :
  node_heap s !! r = Some n →
  node_seps s n seps →
  container_size n < 2147483648 →
  0 <= start < 2147483648 →
  ∃ res, find_container cmp r k start s = Ret res s
    ∧ ((container_size n <= start ∧ res = if start =? 0 then 0 else start - 1)
       ∨ (start < container_size n
          ∧ ∃ j, start <= j <= container_size n
               ∧ (∀ m sep, start <= Z.of_nat m < j → seps !! m = Some sep → 0 <= cmp k sep)
               ∧ (∀ sep, seps !! Z.to_nat j = Some sep → cmp k sep < 0)
               ∧ res = if j =? 0 then 0 else j - 1)).
Proof.
  intros Hr Hseps Hsize Hstart. unfold find_container.
  rewrite (bind_Ret _ _ s n s) by (by apply load_node_Some).
  rewrite to_int_small by lia.
  destruct (Z_lt_le_dec start (container_size n)) as [Hlt|Hge].
  - destruct (find_container_loop_scan cmp r k s n seps Hr Hseps Hsize
                (length (containers n)) start) as (j & Hj & Hsj & Hbefore & Hat).
    { lia. } { unfold container_size. lia. }
    rewrite (bind_Ret _ _ s j s) by done.
    exists (if j =? 0 then 0 else j - 1). split.
    + destruct (j =? 0) eqn:?; [done|].
      replace (j =? -2147483648) with false by lia.
      unfold ret, to_uint. rewrite wrap32_small by lia. done.
    + right. split; [done|]. exists j. split_and!; try done; lia.
  - rewrite (bind_Ret _ _ s start s).
    2:{ apply find_container_loop_exit with n; [done|].
        unfold to_uint. rewrite wrap32_small; lia. }
    exists (if start =? 0 then 0 else start - 1). split; [|by left].
    destruct (start =? 0) eqn:?; [done|].
    replace (start =? -2147483648) with false by lia.
    unfold ret, to_uint. rewrite wrap32_small by lia. done.
Qed.


Definition bftree_write (fuel : nat) (k : option K) (v : option V)
    (ty : payload_type) : M status :=
  let* new_payload := payload_create k v ty in
  let* t := load_tree in
  let* np := load_payload new_payload in
  let* idx := find_container (key_compare (opts t)) (root t) (key np) 0 in
  let* _ := container_insert fuel (root t) idx new_payload in
  ret BF_OK.

Lemma container_insert_unfold f node_p container_idx new_payload :
  container_insert (S f) node_p container_idx new_payload =
    let* t := load_tree in
    let compare := key_compare (opts t) in
    let* n := load_node node_p in
    let* target :=
      (if container_size n <=? container_idx then
         let* target := container_create in
         do insert_after_container node_p target 0 in
         ret target
       else array_get (containers n) container_idx) in
    let* tc := load_container target in
    let* np := load_payload new_payload in
    let* found := get_payload f compare (payload_first tc) (key np) in
    let curr_payload := fst found in
    let is_equal := snd found in
    do (if is_equal then
          payload_replace curr_payload new_payload
        else
          do (if negb (is_null curr_payload) then
                let* cp := load_payload curr_payload in
                do write_next new_payload (next cp) in
                write_next curr_payload new_payload
              else
                let* tc := load_container target in
                do write_next new_payload (payload_first tc) in
                write_payload_first target new_payload) in
          let* tc := load_container target in
          write_payload_size target (wrap32 (payload_size tc + 1))) in
    let* tc := load_container target in
    let* t := load_tree in
    do (if (BFTREE_PAYLOAD_THRESHOLD <? payload_size tc) && negb (is_migrated t =? 0) then
          if negb (is_null (child tc)) then push_to_child f node_p target
          else split_container f node_p container_idx
        else ret tt) in
    ret target.
Proof. reflexivity. Qed.

Ltac munfold :=
  cbv beta iota zeta delta
      [bind ret fail out_of_fuel
       load_tree store_tree load_payload store_payload free_payload
       load_container store_container free_container
       load_node store_node free_node
       malloc malloc_payload malloc_container malloc_node
       with_tree with_payloads with_containers with_nodes
       write_val write_type write_next write_payload_first write_payload_size
       write_child write_parent
       call_key_destructor call_val_destructor enter
       payload_create container_create node_create array_get
       insert_after_container
       set_val set_type set_next set_payload_first set_payload_size set_child
       set_parent set_containers set_container_count
       set_root set_height set_is_migrated set_del_payload_count
       set_put_payload_count].
Ltac mproj :=
  cbn [tree_obj payload_heap container_heap node_heap brk
       key_destroyed val_destroyed handler_calls
       set_val set_type set_next set_payload_first set_payload_size set_child
       set_parent set_containers set_container_count
       set_root set_height set_is_migrated set_del_payload_count set_put_payload_count
       key val type next payload_first payload_size child
       parent containers container_count container_size
       root height opts is_migrated del_payload_count put_payload_count
       fst snd length].
Ltac msimpl := munfold; mproj.


Ltac mdiff := first [done | lia | congruence].
Ltac mlookup1 :=
  match goal with
  | |- context [<[?a:=?x]> ?m !! ?a] => rewrite (lookup_insert_eq m a x)
  | |- context [<[?a:=?x]> ?m !! ?p] => rewrite (lookup_insert_ne m a p x) by mdiff
  | |- context [delete ?a ?m !! ?p] => rewrite (lookup_delete_ne m a p) by mdiff
  | |- context [{[?a:=?x]} !! ?a] => rewrite lookup_singleton_eq
  | H : ?h !! ?p = _ |- context [?h !! ?p] => rewrite H
  end.
Ltac mlookup := repeat mlookup1.
Lemma find_container_leaf0 cmp r k s pa cnt :
  node_heap s !! r = Some (mk_node pa [] cnt) →
  find_container cmp r k 0 s = Ret 0 s.
Proof.
  intros Hr.
  destruct (find_container_ok cmp r k s _ [] 0 Hr) as (res & -> & Hres).
  - constructor.
  - done.
  - done.
  - destruct Hres as [[_ ->]|[Hlt _]]; [done|]. unfold container_size in Hlt. simpl in Hlt. lia.
Qed.



Ltac is_plit p :=
  lazymatch p with
  | xH => idtac
  | xO ?q => is_plit q
  | xI ?q => is_plit q
  end.
Ltac is_zclosed z :=
  lazymatch z with
  | Z0 => idtac
  | Zpos ?p => is_plit p
  | Zneg ?p => is_plit p
  | Z.add ?a ?b => is_zclosed a; is_zclosed b
  | Z.sub ?a ?b => is_zclosed a; is_zclosed b
  | Z.mul ?a ?b => is_zclosed a; is_zclosed b
  | Z.div ?a ?b => is_zclosed a; is_zclosed b
  | wrap32 ?a => is_zclosed a
  | to_int ?a => is_zclosed a
  | to_uint ?a => is_zclosed a
  | int_succ ?a => is_zclosed a
  end.
Ltac zdecide :=
  repeat match goal with
  | |- context [Z.leb ?a ?b] =>
      is_zclosed a; is_zclosed b;
      let r := eval vm_compute in (Z.leb a b) in change (Z.leb a b) with r
  | |- context [Z.ltb ?a ?b] =>
      is_zclosed a; is_zclosed b;
      let r := eval vm_compute in (Z.ltb a b) in change (Z.ltb a b) with r
  | |- context [Z.eqb ?a ?b] =>
      is_zclosed a; is_zclosed b;
      let r := eval vm_compute in (Z.eqb a b) in change (Z.eqb a b) with r
  | |- context [wrap32 ?a] =>
      is_zclosed a;
      let r := eval vm_compute in (wrap32 a) in change (wrap32 a) with r
  | |- context [to_int ?a] =>
      is_zclosed a;
      let r := eval vm_compute in (to_int a) in change (to_int a) with r
  | |- context [to_uint ?a] =>
      is_zclosed a;
      let r := eval vm_compute in (to_uint a) in change (to_uint a) with r
  | |- context [int_succ ?a] =>
      is_zclosed a;
      let r := eval vm_compute in (int_succ a) in change (int_succ a) with r
  | |- context [Z.to_nat ?a] =>
      is_zclosed a;
      let r := eval vm_compute in (Z.to_nat a) in change (Z.to_nat a) with r
  end.
Ltac mint :=
  repeat first
    [ progress change (container_size (mk_node ?p [] ?c)) with 0
    | progress change (container_size (mk_node ?p [?x] ?c)) with 1
    | progress change (Z.to_nat 0) with 0%nat
    | progress change (is_null NULL) with true
    | progress zdecide
    | progress change ([?c] !! 0%nat) with (Some c)
    | rewrite andb_false_r
    | progress cbn [negb andb] ].






Ltac mrun := do 12 (munfold; mproj; mlookup; mint).

Lemma find_container_leaf1 cmp r k s pa c cnt sep :
  node_heap s !! r = Some (mk_node pa [c] cnt) →
  sep_of s c sep →
  find_container cmp r k 0 s = Ret 0 s.
Proof.
  intros Hr Hsep.
  destruct (find_container_ok cmp r k s _ [sep] 0 Hr) as (res & -> & Hres).
  - by repeat constructor.
  - done.
  - done.
  - destruct Hres as [[_ ->]|[_ (j & Hj & _ & _ & ->)]]; [done|].
    change (container_size (mk_node pa [c] cnt)) with 1 in Hj.
    assert (j = 0 ∨ j = 1) as [-> | ->] by lia; done.
Qed.



(** The tree handle after [payload_free] has counted a payload of kind [ty] out. *)
Definition count_out (t : bftree) (ty : payload_type) : bftree :=
  match ty with
  | Put => set_put_payload_count t (wrap32 (put_payload_count t - 1))
  | Del => set_del_payload_count t (wrap32 (del_payload_count t - 1))
  end.

Definition destroyed_keys (o : bftree_opts) (k : option K) : list K :=
  if key_destructor o then option_list k else [].
Definition destroyed_vals (o : bftree_opts) (v : option V) : list V :=
  if val_destructor o then option_list v else [].

Lemma payload_free_ok p x t s :
  payload_heap s !! p = Some x →
  tree_obj s = Some t →
  payload_free p s
  = Ret tt (mk_mem (Some (count_out t (type x))) (delete p (payload_heap s))
                   (container_heap s) (node_heap s) (brk s)
                   (key_destroyed s ++ destroyed_keys (opts t) (key x))
                   (val_destroyed s ++ destroyed_vals (opts t) (val x))
                   (handler_calls s)).
Proof.
  intros Hp Ht. unfold payload_free, destroyed_keys, destroyed_vals.
  destruct s as [to ph ch nh b kd vd hc]. cbn [payload_heap tree_obj] in Hp, Ht. subst to.
  destruct x as [xk xv xt xn]. mrun.
  destruct xk as [k0|], (key_destructor (opts t)), xv as [v0|], (val_destructor (opts t)), xt;
    mrun; cbn [option_list payload_type_eqb count_out]; mrun; rewrite ?app_nil_r; reflexivity.
Qed.

Lemma payload_replace_ok older newer ox nx t s :
  payload_heap s !! older = Some ox →
  payload_heap s !! newer = Some nx →
  older ≠ newer →
  tree_obj s = Some t →
  payload_replace older newer s
  = Ret tt (mk_mem (Some (count_out t (type nx)))
                   (delete newer
                      (<[older := mk_payload (key ox) (val nx) (type nx) (next ox)]>
                         (<[newer := set_val nx (val ox)]>
                            (<[older := set_val ox (val nx)]> (payload_heap s)))))
                   (container_heap s) (node_heap s) (brk s)
                   (key_destroyed s ++ destroyed_keys (opts t) (key nx))
                   (val_destroyed s ++ destroyed_vals (opts t) (val ox))
                   (handler_calls s)).
Proof.
  intros Ho Hn Hne Ht. unfold payload_replace.
  destruct s as [to ph ch nh b kd vd hc]. cbn [payload_heap tree_obj] in Ho, Hn, Ht. subst to.
  mrun.
  erewrite payload_free_ok; [|mproj; mlookup; reflexivity|reflexivity].
  mproj. done.
Qed.

(** What one [put] or [del] does to the chain [l] of a leaf root. *)
Inductive write_result (o : bftree_opts) (k : option K) (v : option V)
    (ty : payload_type) (s : mem) (l : list (ptr * payload))
    (s' : mem) (l' : list (ptr * payload)) : Prop :=
  | wr_replace l1 p y l2 :
      l = l1 ++ (p, y) :: l2 →
      Forall (λ ax, 0 < key_compare o k (key ax.2)) l1 →
      key_compare o k (key y) = 0 →
      l' = l1 ++ (p, mk_payload (key y) v ty (next y)) :: l2 →
      key_destroyed s' = key_destroyed s ++ (if key_destructor o then option_list k else []) →
      val_destroyed s' = val_destroyed s ++ (if val_destructor o then option_list (val y) else []) →
      payload_heap s' !! brk s = None →
      write_result o k v ty s l s' l'
  | wr_fresh l1 l2 :
      l = l1 ++ l2 →
      Forall (λ ax, 0 < key_compare o k (key ax.2)) l1 →
      match l2 with [] => True | ax :: _ => key_compare o k (key ax.2) < 0 end →
      contents l' = contents l1 ++ (k, v, ty) :: contents l2 →
      key_destroyed s' = key_destroyed s →
      val_destroyed s' = val_destroyed s →
      write_result o k v ty s l s' l'.

Lemma shape_chain_eq o t ph ch nh b kd vd hc l r c dc pc :
  t = Some (mk_bftree r 1 o 0 dc pc) →
  ph = list_to_map l →
  ch = {[ c := mk_container (head_or l NULL) (wrap32 (Z.of_nat (length l))) NULL ]} →
  nh = {[ r := mk_node NULL [c] BFTREE_DEFAULT_CONTAINER ]} →
  hc = [] →
  l ≠ [] →
  chain_ok (key_compare o) b l →
  shape o (mk_mem t ph ch nh b kd vd hc) l.
Proof. intros -> -> -> -> -> ? ?. by constructor. Qed.

Lemma wrap32_succ z : wrap32 (wrap32 z + 1) = wrap32 (z + 1).
Proof. unfold wrap32. by rewrite Zplus_mod_idemp_l. Qed.

Lemma write_empty o r dc pc b kd vd fuel k v ty :
  0 < BFTREE_DEFAULT_CONTAINER →
  (0 < b)%N →
  (0 < fuel)%nat →
  let s := mk_mem (Some (mk_bftree r 1 o 0 dc pc)) ∅ ∅
                  {[ r := mk_node NULL [] BFTREE_DEFAULT_CONTAINER ]} b kd vd [] in
  ∃ s' l', bftree_write fuel k v ty s = Ret BF_OK s'
           ∧ shape o s' l' ∧ write_result o k v ty s [] s' l'.
Proof.
  intros HD Hb Hfuel s. subst s.
  destruct fuel as [|f]; [lia|].
  unfold bftree_write. mrun.
  erewrite find_container_leaf0 by (mproj; apply lookup_singleton_eq).
  rewrite container_insert_unfold. mrun.
  replace (0 =? BFTREE_DEFAULT_CONTAINER) with false by lia.
  replace (BFTREE_DEFAULT_CONTAINER <=? 0) with false by lia.
  mrun.
  unfold get_payload.
  assert (Hgp : ∀ s, get_payload_loop f (key_compare o) k NULL NULL s = Ret (NULL, false) s)
    by (intros; by destruct f).
  rewrite Hgp. mrun.
  eexists _, [(b, mk_payload k v ty NULL)]. split; [reflexivity|]. split.
  - eapply shape_chain_eq; [reflexivity| | | |reflexivity|done|].
    + cbn [list_to_map foldr]. by rewrite insert_insert_eq, insert_empty.
    + by rewrite !insert_insert_eq, insert_empty.
    + by rewrite insert_singleton_eq.
    + split; cbn [fmap list_fmap fst lseg head_or snd next contents map content].
      * apply NoDup_singleton.
      * split_and!; try done. unfold NULL. lia.
      * repeat constructor.
      * repeat constructor. lia.
  - by apply (wr_fresh _ _ _ _ _ _ _ _ [] []).
Qed.

Lemma contents_app l1 l2 : contents (l1 ++ l2) = contents l1 ++ contents l2.
Proof. apply map_app. Qed.

Lemma Forall_contents (P : option K → Prop) l :
  Forall (λ ax, P (key ax.2)) l → Forall (λ y, P (e_key y)) (contents l).
Proof. induction 1; constructor; auto. Qed.

Lemma model_insert_fresh cmp k v ty l1 l2 :
  Forall (λ ax, 0 < cmp k (key ax.2)) l1 →
  match l2 with [] => True | ax :: _ => cmp k (key ax.2) < 0 end →
  model_insert cmp (k, v, ty) (contents (l1 ++ l2))
  = contents l1 ++ (k, v, ty) :: contents l2.
Proof.
  intros Hl1 Hl2. rewrite contents_app, model_insert_app.
  - f_equal. destruct l2 as [|[a x] l2]; [done|].
    cbn [contents map model_insert]. rewrite e_key_mk. cbn [snd content e_key fst] in *.
    replace (cmp k (key x) <=? 0) with true by lia.
    replace (cmp k (key x) =? 0) with false by lia. done.
  - by apply (Forall_contents (λ k', 0 < cmp k k')).
Qed.

Lemma model_insert_replace cmp k v ty l1 p y l2 :
  Forall (λ ax, 0 < cmp k (key ax.2)) l1 →
  cmp k (key y) = 0 →
  model_insert cmp (k, v, ty) (contents (l1 ++ (p, y) :: l2))
  = contents (l1 ++ (p, mk_payload (key y) v ty (next y)) :: l2).
Proof.
  intros Hl1 Hy. rewrite !contents_app, model_insert_app.
  - f_equal. cbn [contents map model_insert]. rewrite e_key_mk.
    cbn [snd content e_key fst]. rewrite Hy. done.
  - by apply (Forall_contents (λ k', 0 < cmp k k')).
Qed.

Lemma write_chain o r c dc pc b kd vd l fuel k v ty :
  0 < BFTREE_DEFAULT_CONTAINER →
  total_order (key_compare o) →
  l ≠ [] →
  chain_ok (key_compare o) b l →
  (length l < fuel)%nat →
  let s := mk_mem (Some (mk_bftree r 1 o 0 dc pc)) (list_to_map l)
             {[ c := mk_container (head_or l NULL) (wrap32 (Z.of_nat (length l))) NULL ]}
             {[ r := mk_node NULL [c] BFTREE_DEFAULT_CONTAINER ]}
             b kd vd [] in
  ∃ s' l', bftree_write fuel k v ty s = Ret BF_OK s'
           ∧ shape o s' l' ∧ write_result o k v ty s l s' l'.
Proof.
  intros HD Hcmp Hne [Hnd Hseg Hsort Hbelow] Hfuel s. subst s.
  destruct fuel as [|f]; [lia|].
  assert (Hin : ∀ p y, (p, y) ∈ l → (list_to_map l : gmap N payload) !! p = Some y).
  { intros p y. by apply elem_of_list_to_map_1. }
  assert (Hlt : ∀ p y, (p, y) ∈ l → (p < b)%N).
  { intros p y Hp. rewrite Forall_forall in Hbelow. apply Hbelow.
    apply list_elem_of_fmap. by exists (p, y). }
  assert (Hbl : b ∉ l.*1).
  { intros Hb. rewrite Forall_forall in Hbelow. apply Hbelow in Hb. lia. }
  assert (Hbelow' : Forall (λ a, (a < N.succ b)%N) l.*1).
  { eapply Forall_impl; [exact Hbelow|]. simpl. intros. lia. }
  assert (Hbn : (list_to_map l : gmap N payload) !! b = None)
    by (by apply not_elem_of_list_to_map_1).
  destruct l as [|[a0 x0] l0] eqn:Hl; [done|]. rewrite <- Hl in *.
  assert (Ha0 : (a0, x0) ∈ l) by (rewrite Hl; left).
  pose proof (Hin _ _ Ha0) as Hx0. pose proof (Hlt _ _ Ha0) as Ha0b.
  assert (Hb0 : b ≠ NULL) by (unfold NULL; lia).
  unfold bftree_write. mrun.
  erewrite find_container_leaf1.
  2:{ mproj. apply lookup_singleton_eq. }
  2:{ exists (mk_container (head_or l NULL) (wrap32 (Z.of_nat (length l))) NULL), x0.
      mproj. rewrite lookup_singleton_eq. split; [done|].
      rewrite Hl at 1. cbn [head_or fst]. mlookup. done. }
  rewrite container_insert_unfold. mrun.
  unfold get_payload.
  rewrite (get_payload_loop_ok (key_compare o) k l); [|mproj|done|lia].
  2:{ intros [p y] Hp. cbn [fst snd]. pose proof (Hlt _ _ Hp). pose proof (Hin _ _ Hp). by mlookup. }
  pose proof (get_payload_spec_cases (key_compare o) k l NULL) as Hscan.
  set (res := get_payload_spec (key_compare o) k NULL l) in *. clearbody res.
  destruct Hscan as [l1 p y l2 Hl12 Hl1 Hy| Hhd |l1 p y l2 Hl12 Hl1 Hl2].
  - (* an equal key: replace in place *)
    assert (Hp : (p, y) ∈ l) by (rewrite Hl12; set_solver).
    pose proof (Hin _ _ Hp) as Hpy. pose proof (Hlt _ _ Hp) as Hpb.
    mrun.
    erewrite payload_replace_ok; [|mproj; mlookup; reflexivity|mproj; mlookup; reflexivity
                                  |lia|reflexivity].
    mproj.
    assert (∃ dc' pc', count_out (mk_bftree r 1 o 0 dc pc) ty = mk_bftree r 1 o 0 dc' pc')
      as (dc' & pc' & ->) by (destruct ty; eexists _, _; reflexivity).
    mrun.
    eexists _, (l1 ++ (p, mk_payload (key y) v ty (next y)) :: l2).
    split; [reflexivity|]. split.
    + eapply shape_chain_eq; [reflexivity| | | reflexivity | reflexivity | by destruct l1 |].
      * rewrite <- list_to_map_update with (y := y) by (by rewrite <- Hl12).
        rewrite <- Hl12. apply map_eq. intros i.
        repeat (rewrite lookup_insert || rewrite lookup_delete).
        repeat case_decide; subst; try done; try lia; by rewrite ?Hbn.
      * rewrite Hl12 at 1 2. rewrite !length_app. by destruct l1.
      * assert (Haddr : (l1 ++ (p, mk_payload (key y) v ty (next y)) :: l2).*1 = l.*1)
          by (rewrite Hl12, !fmap_app; done).
        split.
        -- by rewrite Haddr.
        -- rewrite Hl12 in Hseg. apply lseg_app in Hseg as [? (? & ? & ?)].
           apply lseg_app. done.
        -- rewrite <- (model_insert_replace (key_compare o) k) by done. rewrite <- Hl12.
           by apply model_insert_sorted.
        -- by rewrite Haddr.
    + eapply wr_replace; try done; try reflexivity.
      mproj. apply lookup_delete_eq.
  - (* smaller than every key: new head *)
    mrun.
    eexists _, ((b, mk_payload k v ty a0) :: l). split; [reflexivity|]. split.
    + eapply shape_chain_eq; [reflexivity| | | reflexivity | reflexivity |done |].
      * cbn [list_to_map foldr]. rewrite insert_insert_eq.
        rewrite Hl at 1. done.
      * rewrite !insert_insert_eq, insert_singleton_eq. cbn [head_or fst length].
        rewrite Nat2Z.inj_succ, <- Z.add_1_r, wrap32_succ. done.
      * split.
        -- rewrite fmap_cons. by apply NoDup_cons.
        -- cbn [lseg fst snd next]. split_and!; [done| |done]. by rewrite Hl.
        -- replace (contents ((b, mk_payload k v ty a0) :: l))
             with (model_insert (key_compare o) (k, v, ty) (contents l));
             [by apply model_insert_sorted|].
           pose proof (model_insert_fresh (key_compare o) k v ty [] l
                         ltac:(constructor) Hhd) as Hm.
           cbn [app] in Hm. by rewrite Hm.
        -- rewrite fmap_cons. constructor; [simpl; lia|done].
    + by apply (wr_fresh _ _ _ _ _ _ _ _ [] l).
  - (* after the payload at [p] *)
    assert (Hp : (p, y) ∈ l) by (rewrite Hl12; set_solver).
    pose proof (Hin _ _ Hp) as Hpy. pose proof (Hlt _ _ Hp) as Hpb.
    rewrite Hl12 in Hseg. apply lseg_app in Hseg as [Hseg1 (Hp0 & Hny & Hseg2)].
    cbn [fst snd] in Hp0, Hny.
    mrun.
    replace (is_null p) with false by (symmetry; by apply N.eqb_neq).
    mrun.
    set (y1 := mk_payload (key y) (val y) (type y) b).
    set (P1 := mk_payload k v ty (next y)).
    eexists _, (l1 ++ (p, y1) :: (b, P1) :: l2).
    split; [reflexivity|]. split.
    + eapply shape_chain_eq; [reflexivity| | | reflexivity | reflexivity | by destruct l1 |].
      * rewrite insert_insert_eq.
        rewrite (insert_insert_ne _ p b) by lia.
        rewrite Hl12.
        rewrite list_to_map_update by (by rewrite <- Hl12).
        replace (l1 ++ (p, y1) :: l2) with ((l1 ++ [(p, y1)]) ++ l2)
          by (by rewrite <- app_assoc).
        replace (l1 ++ (p, y1) :: (b, P1) :: l2) with ((l1 ++ [(p, y1)]) ++ (b, P1) :: l2)
          by (by rewrite <- app_assoc).
        apply list_to_map_add.
        rewrite Hl12 in Hbl. rewrite !fmap_app in *. set_solver.
      * rewrite ?insert_insert_eq, insert_singleton_eq.
        rewrite wrap32_succ. f_equal. f_equal; [rewrite Hl12; by destruct l1|].
        rewrite Hl12, !length_app. cbn [length]. f_equal. lia.
      * assert (Haddr : (l1 ++ (p, y1) :: (b, P1) :: l2).*1 ≡ₚ b :: l.*1).
        { rewrite Hl12, !fmap_app, !fmap_cons. cbn [fst].
          change (l1.*1 ++ p :: b :: l2.*1) with (l1.*1 ++ [p] ++ b :: l2.*1).
          rewrite app_assoc, <- Permutation_middle, <- app_assoc. done. }
        split.
        -- rewrite Haddr. by apply NoDup_cons.
        -- apply lseg_app. cbn [lseg head_or fst snd next y1 P1].
           split_and!; done.
        -- replace (contents (l1 ++ (p, y1) :: (b, P1) :: l2))
             with (model_insert (key_compare o) (k, v, ty) (contents l));
             [by apply model_insert_sorted|].
           rewrite Hl12.
           replace (l1 ++ (p, y) :: l2) with ((l1 ++ [(p, y)]) ++ l2)
             by (by rewrite <- app_assoc).
           rewrite (model_insert_fresh (key_compare o)) by done.
           rewrite !contents_app, <- app_assoc. done.
        -- rewrite Haddr. constructor; [lia|done].
    + apply (wr_fresh _ _ _ _ _ _ _ _ (l1 ++ [(p, y)]) l2); try done.
      * by rewrite <- app_assoc.
      * rewrite !contents_app, <- app_assoc. done.
Qed.

Lemma write_shape o s l fuel k v ty :
  0 < BFTREE_DEFAULT_CONTAINER →
  total_order (key_compare o) →
  shape o s l →
  (length l < fuel)%nat →
  ∃ s' l', bftree_write fuel k v ty s = Ret BF_OK s'
           ∧ shape o s' l' ∧ write_result o k v ty s l s' l'.
Proof.
  intros HD Hcmp Hs Hfuel. destruct Hs.
  - apply write_empty; [done|done|lia].
  - by apply write_chain.
Qed.

Lemma write_result_contents o k v ty s l s' l' :
  write_result o k v ty s l s' l' →
  contents l' = model_insert (key_compare o) (k, v, ty) (contents l).
Proof.
  intros [l1 p y l2 -> Hl1 Hy -> _ _ _|l1 l2 -> Hl1 Hl2 -> _ _].
  - by rewrite model_insert_replace.
  - by rewrite model_insert_fresh.
Qed.

Lemma write_result_length o k v ty s l s' l' :
  write_result o k v ty s l s' l' → (length l' ≤ S (length l))%nat.
Proof.
  intros [l1 p y l2 -> Hl1 Hy -> _ _ _|l1 l2 -> Hl1 Hl2 Hc _ _].
  - rewrite !length_app. simpl. lia.
  - apply (f_equal length) in Hc. unfold contents in Hc.
    rewrite !length_app, !length_map in Hc. simpl in Hc.
    rewrite !length_map in Hc. rewrite length_app. lia.
Qed.

(** ** Lookups on a leaf root *)

Lemma get_payload_spec_model cmp k l : ∀ prev,
  match get_payload_spec cmp k prev l with
  | (p, true) => ∃ y, (p, y) ∈ l ∧ model_find cmp k (contents l) = Some (content y)
  | (_, false) => model_find cmp k (contents l) = None
  end.
Proof.
  induction l as [|[a x] l IH]; intros prev; [done|].
  cbn [get_payload_spec contents map model_find fst snd].
  change (e_key (content x)) with (key x).
  destruct (cmp k (key x) <=? 0).
  - destruct (cmp k (key x) =? 0); [|done]. exists x. split; [left|done].
  - specialize (IH a). fold (contents l).
    destruct (get_payload_spec cmp k a l) as [p []]; [|done].
    destruct IH as (y & Hy & Hfind). exists y. split; [by right|done].
Qed.

Lemma lseg_nonnull l q p y : lseg l q → (p, y) ∈ l → p ≠ NULL.
Proof.
  induction l as [|ax l IH]; intros Hseg Hin; [by apply elem_of_nil in Hin|].
  destruct Hseg as (Hax & _ & Hseg).
  apply elem_of_cons in Hin as [<-|Hin]; [done|by apply IH].
Qed.

Lemma container_get_unfold f node_p container_idx k :
  container_get (S f) node_p container_idx k =
    let* n := load_node node_p in
    if container_size n <=? container_idx then ret NULL
    else
      let* t := load_tree in
      let compare := key_compare (opts t) in
      let* container_p := array_get (containers n) container_idx in
      let* c := load_container container_p in
      let* found := get_payload f compare (payload_first c) k in
      let curr_payload := fst found in
      if snd found then
        let* cp := load_payload curr_payload in
        if payload_type_eqb (type cp) Put then ret curr_payload
        else ret NULL
      else if negb (is_null (child c)) then
        let* container_idx := find_container compare (child c) k 0 in
        container_get f (child c) container_idx k
      else ret NULL.
Proof. reflexivity. Qed.

Lemma get_shape o s l fuel k :
  shape o s l →
  (length l < fuel)%nat →
  bftree_get fuel k s = Ret (model_get (key_compare o) k (contents l)) s.
Proof.
  intros Hs Hfuel. destruct fuel as [|f]; [lia|]. destruct Hs as [|r c dc pc b kd vd l Hne Hok].
  - unfold bftree_get. mrun.
    erewrite find_container_leaf0 by (mproj; apply lookup_singleton_eq).
    rewrite container_get_unfold. mrun. done.
  - destruct Hok as [Hnd Hseg Hsort Hbelow].
    assert (Hin : ∀ p y, (p, y) ∈ l → (list_to_map l : gmap N payload) !! p = Some y).
    { intros p y. by apply elem_of_list_to_map_1. }
    destruct l as [|[a0 x0] l0] eqn:Hl; [done|]. rewrite <- Hl in *.
    assert (Ha0 : (a0, x0) ∈ l) by (rewrite Hl; left).
    pose proof (Hin _ _ Ha0) as Hx0.
    unfold bftree_get. mrun.
    erewrite find_container_leaf1.
    2:{ mproj. apply lookup_singleton_eq. }
    2:{ exists (mk_container (head_or l NULL) (wrap32 (Z.of_nat (length l))) NULL), x0.
        mproj. rewrite lookup_singleton_eq. split; [done|].
        rewrite Hl at 1. cbn [head_or fst]. done. }
    rewrite container_get_unfold. mrun.
    unfold get_payload.
    rewrite (get_payload_loop_ok (key_compare o) k l); [|mproj|done|lia].
    2:{ intros [p y] Hp. cbn [fst snd]. by apply Hin. }
    pose proof (get_payload_spec_model (key_compare o) k l NULL) as Hmodel.
    unfold model_get.
    destruct (get_payload_spec (key_compare o) k NULL l) as [p []].
    + destruct Hmodel as (y & Hy & ->).
      pose proof (Hin _ _ Hy) as Hpy.
      pose proof (lseg_nonnull _ _ _ _ Hseg Hy) as Hp0.
      mrun. change (e_type (content y)) with (type y).
      change (e_val (content y)) with (val y).
      destruct (type y); cbn [payload_type_eqb]; mrun; [|done].
      replace (is_null p) with false by (symmetry; by apply N.eqb_neq).
      mrun. done.
    + rewrite Hmodel. mrun. done.
Qed.


(** ** Destroying a leaf root *)

Definition count_out_all (t : bftree) (l : list (ptr * payload)) : bftree :=
  foldl (λ t ax, count_out t (type ax.2)) t l.

Definition chain_keys (o : bftree_opts) (l : list (ptr * payload)) : list K :=
  flat_map (λ ax, destroyed_keys o (key ax.2)) l.
Definition chain_vals (o : bftree_opts) (l : list (ptr * payload)) : list V :=
  flat_map (λ ax, destroyed_vals o (val ax.2)) l.

Lemma opts_count_out t ty : opts (count_out t ty) = opts t.
Proof. by destruct ty. Qed.

Lemma container_free_loop_ok l : ∀ fuel t ch nh b kd vd hc,
  NoDup l.*1 →
  lseg l NULL →
  (length l ≤ fuel)%nat →
  container_free_loop fuel (head_or l NULL)
    (mk_mem (Some t) (list_to_map l) ch nh b kd vd hc)
  = Ret tt (mk_mem (Some (count_out_all t l)) ∅ ch nh b
                   (kd ++ chain_keys (opts t) l) (vd ++ chain_vals (opts t) l) hc).
Proof.
  induction l as [|[a x] l IH]; intros fuel t ch nh b kd vd hc Hnd Hseg Hfuel.
  - cbn [chain_keys chain_vals flat_map count_out_all foldl]. rewrite !app_nil_r.
    by destruct fuel.
  - destruct Hseg as (Ha & Hnext & Hseg). cbn [fst snd] in Ha, Hnext.
    rewrite fmap_cons in Hnd. apply NoDup_cons in Hnd as [Hal Hnd]. cbn [fst] in Hal.
    destruct fuel as [|f]; [simpl in Hfuel; lia|].
    cbn [container_free_loop head_or fst].
    replace (is_null a) with false by (symmetry; by apply N.eqb_neq).
    cbn [list_to_map foldr]. mrun.
    erewrite payload_free_ok; [|mproj; mlookup; reflexivity|reflexivity].
    mproj. rewrite delete_insert_eq, delete_id by (by apply not_elem_of_list_to_map_1).
    rewrite Hnext, IH; [|done|done|simpl in Hfuel; lia].
    rewrite opts_count_out.
    cbn [chain_keys chain_vals flat_map count_out_all foldl fst snd].
    by rewrite <- !app_assoc.
Qed.

Lemma bftree_free_node_unfold f node_p :
  bftree_free_node (S f) node_p =
    do bftree_free_children f node_p 0 in node_free f node_p.
Proof. reflexivity. Qed.

Lemma bftree_free_children_unfold f node_p i :
  bftree_free_children (S f) node_p i =
    let* n := load_node node_p in
    if to_uint i <? container_size n then
      let* container_p := array_get (containers n) i in
      let* c := load_container container_p in
      do (if is_null (child c) then ret tt else bftree_free_node f (child c)) in
      bftree_free_children f node_p (int_succ i)
    else ret tt.
Proof. reflexivity. Qed.

Lemma free_shape o s l fuel :
  shape o s l →
  (length l + 3 ≤ fuel)%nat →
  ∃ s', bftree_free fuel s = Ret tt s'
        ∧ tree_obj s' = None ∧ payload_heap s' = ∅
        ∧ container_heap s' = ∅ ∧ node_heap s' = ∅
        ∧ key_destroyed s' = key_destroyed s ++ chain_keys o l
        ∧ val_destroyed s' = val_destroyed s ++ chain_vals o l.
Proof.
  intros Hs Hfuel.
  destruct fuel as [|[|[|f]]]; [lia..|].
  destruct Hs as [|r c dc pc b kd vd l Hne [Hnd Hseg Hsort Hbelow]].
  - unfold bftree_free. mrun.
    rewrite bftree_free_node_unfold. munfold.
    rewrite bftree_free_children_unfold. mrun.
    unfold node_free. cbn [node_free_loop]. mrun.
    rewrite delete_singleton_eq.
    eexists. split; [reflexivity|]. mproj.
    cbn [chain_keys chain_vals flat_map]. by rewrite !app_nil_r.
  - unfold bftree_free. mrun.
    rewrite bftree_free_node_unfold. munfold.
    rewrite bftree_free_children_unfold. mrun.
    rewrite bftree_free_children_unfold. mrun.
    unfold node_free. cbn [node_free_loop]. mrun.
    unfold container_free. mrun.
    rewrite container_free_loop_ok; [|done|done|simpl in Hfuel; lia].
    mrun.
    eexists. split; [reflexivity|]. mproj.
    rewrite !delete_singleton_eq. done.
Qed.


(** ** Sequences of operations on a fresh tree *)

Definition apply_op (cmp : key_compare_func) (o : op) (m : list entry) : list entry :=
  match o with
  | OpPut k v => model_insert cmp (k, v, Put) m
  | OpDel k => model_insert cmp (k, None, Del) m
  | OpGet _ => m
  end.

Definition apply_ops (cmp : key_compare_func) (ops : list op) (m : list entry) : list entry :=
  foldl (λ m o, apply_op cmp o m) m ops.

(** A [put] or [del] that hands the tree a non-null key, and a [put] that
    hands it a non-null value. *)
Definition has_key (o : op) : bool :=
  match o with
  | OpPut (Some _) _ | OpDel (Some _) => true
  | _ => false
  end.

Definition has_val (o : op) : bool :=
  match o with
  | OpPut _ (Some _) => true
  | _ => false
  end.

Definition count_ops (f : op → bool) (ops : list op) : nat :=
  length (List.filter f ops).

Definition nn_keys (m : list entry) : nat := length (omap e_key m).
Definition nn_vals (m : list entry) : nat := length (omap e_val m).

Lemma bftree_put_write fuel k v : bftree_put fuel k v = bftree_write fuel k v Put.
Proof. reflexivity. Qed.

Lemma bftree_del_write fuel k : bftree_del fuel k = bftree_write fuel k None Del.
Proof. reflexivity. Qed.

Lemma nn_keys_app m1 m2 : nn_keys (m1 ++ m2) = (nn_keys m1 + nn_keys m2)%nat.
Proof. unfold nn_keys. by rewrite omap_app, length_app. Qed.

Lemma nn_vals_app m1 m2 : nn_vals (m1 ++ m2) = (nn_vals m1 + nn_vals m2)%nat.
Proof. unfold nn_vals. by rewrite omap_app, length_app. Qed.

Lemma nn_keys_cons e m : nn_keys (e :: m) = (length (option_list (e_key e)) + nn_keys m)%nat.
Proof. unfold nn_keys. simpl. by destruct (e_key e). Qed.

Lemma nn_vals_cons e m : nn_vals (e :: m) = (length (option_list (e_val e)) + nn_vals m)%nat.
Proof. unfold nn_vals. simpl. by destruct (e_val e). Qed.

(** Destructor calls and live keys and values balance over one write. *)
Lemma write_result_counts o k v ty s l s' l' :
  write_result o k v ty s l s' l' →
  (key_destructor o = true →
     (length (key_destroyed s') + nn_keys (contents l')
      = length (key_destroyed s) + nn_keys (contents l) + length (option_list k))%nat)
  ∧ (val_destructor o = true →
     (length (val_destroyed s') + nn_vals (contents l')
      = length (val_destroyed s) + nn_vals (contents l) + length (option_list v))%nat).
Proof.
  intros [l1 p y l2 -> Hl1 Hy -> Hkd Hvd _|l1 l2 -> Hl1 Hl2 Hc Hkd Hvd].
  - rewrite Hkd, Hvd. unfold destroyed_keys, destroyed_vals.
    rewrite !contents_app. cbn [contents map].
    rewrite !nn_keys_app, !nn_vals_app, !nn_keys_cons, !nn_vals_cons.
    cbn [snd content e_key e_val fst key val].
    split; intros ->; rewrite length_app; lia.
  - rewrite Hkd, Hvd, Hc, contents_app.
    rewrite !nn_keys_app, !nn_vals_app, !nn_keys_cons, !nn_vals_cons.
    cbn [e_key e_val fst snd]. split; intros _; lia.
Qed.

Lemma count_ops_cons f o ops :
  count_ops f (o :: ops) = ((if f o then 1 else 0) + count_ops f ops)%nat.
Proof. unfold count_ops. simpl. by destruct (f o). Qed.

Lemma exec_op_shape o op s l fuel :
  0 < BFTREE_DEFAULT_CONTAINER →
  total_order (key_compare o) →
  shape o s l →
  (length l < fuel)%nat →
  ∃ s' l', exec_op fuel op s = Ret tt s'
    ∧ shape o s' l'
    ∧ contents l' = apply_op (key_compare o) op (contents l)
    ∧ (length l' ≤ S (length l))%nat
    ∧ (key_destructor o = true →
         (length (key_destroyed s') + nn_keys (contents l')
          = length (key_destroyed s) + nn_keys (contents l)
            + (if has_key op then 1 else 0))%nat)
    ∧ (val_destructor o = true →
         (length (val_destroyed s') + nn_vals (contents l')
          = length (val_destroyed s) + nn_vals (contents l)
            + (if has_val op then 1 else 0))%nat).
Proof.
  intros HD Hcmp Hs Hfuel. destruct op as [k v|k|k]; cbn [exec_op apply_op].
  - rewrite bftree_put_write.
    destruct (write_shape o s l fuel k v Put HD Hcmp Hs Hfuel) as (s' & l' & Hrun & Hs' & Hres).
    exists s', l'. rewrite (bind_Ret _ _ _ _ _ Hrun).
    pose proof (write_result_counts _ _ _ _ _ _ _ _ Hres) as [Hk Hv].
    split_and!; [done|done|by eapply write_result_contents|by eapply write_result_length| |].
    + intros Hkd. rewrite (Hk Hkd). by destruct k.
    + intros Hvd. rewrite (Hv Hvd). by destruct k, v.
  - rewrite bftree_del_write.
    destruct (write_shape o s l fuel k None Del HD Hcmp Hs Hfuel) as (s' & l' & Hrun & Hs' & Hres).
    exists s', l'. rewrite (bind_Ret _ _ _ _ _ Hrun).
    pose proof (write_result_counts _ _ _ _ _ _ _ _ Hres) as [Hk Hv].
    split_and!; [done|done|by eapply write_result_contents|by eapply write_result_length| |].
    + intros Hkd. rewrite (Hk Hkd). by destruct k.
    + intros Hvd. rewrite (Hv Hvd). by destruct k.
  - exists s, l. rewrite (bind_Ret _ _ _ _ _ (get_shape o s l fuel k Hs Hfuel)).
    split_and!; try done; try lia.
Qed.

Lemma exec_ops_shape o ops : ∀ s l fuel,
  0 < BFTREE_DEFAULT_CONTAINER →
  total_order (key_compare o) →
  shape o s l →
  (length l + length ops ≤ fuel)%nat →
  (0 < fuel)%nat →
  ∃ s' l', exec_ops fuel ops s = Ret tt s'
    ∧ shape o s' l'
    ∧ contents l' = apply_ops (key_compare o) ops (contents l)
    ∧ (length l' ≤ length l + length ops)%nat
    ∧ (key_destructor o = true →
         (length (key_destroyed s') + nn_keys (contents l')
          = length (key_destroyed s) + nn_keys (contents l) + count_ops has_key ops)%nat)
    ∧ (val_destructor o = true →
         (length (val_destroyed s') + nn_vals (contents l')
          = length (val_destroyed s) + nn_vals (contents l) + count_ops has_val ops)%nat).
Proof.
  induction ops as [|op ops IH]; intros s l fuel HD Hcmp Hs Hfuel Hpos.
  - exists s, l. cbn [exec_ops apply_ops foldl length]. unfold count_ops. simpl.
    split_and!; try done; lia.
  - cbn [length] in Hfuel.
    destruct (exec_op_shape o op s l fuel HD Hcmp Hs ltac:(lia))
      as (s1 & l1 & Hrun1 & Hs1 & Hc1 & Hlen1 & Hk1 & Hv1).
    destruct (IH s1 l1 fuel HD Hcmp Hs1 ltac:(lia) Hpos)
      as (s2 & l2 & Hrun2 & Hs2 & Hc2 & Hlen2 & Hk2 & Hv2).
    exists s2, l2. cbn [exec_ops]. rewrite (bind_Ret _ _ _ _ _ Hrun1).
    split_and!; [done|done| |cbn [length]; lia| |].
    + rewrite Hc2, Hc1. done.
    + intros Hkd. rewrite count_ops_cons, (Hk2 Hkd), (Hk1 Hkd). lia.
    + intros Hvd. rewrite count_ops_cons, (Hv2 Hvd), (Hv1 Hvd). lia.
Qed.

(** Every run of public operations on a fresh tree ends in a leaf-root
    store whose chain is the model applied to the operations. *)
Lemma run_shape o ops fuel :
  0 < BFTREE_DEFAULT_CONTAINER →
  total_order (key_compare o) →
  (length ops < fuel)%nat →
  ∃ s l, run fuel o ops = Ret tt s
    ∧ shape o s l
    ∧ contents l = apply_ops (key_compare o) ops []
    ∧ (length l ≤ length ops)%nat
    ∧ (key_destructor o = true →
         (length (key_destroyed s) + nn_keys (contents l) = count_ops has_key ops)%nat)
    ∧ (val_destructor o = true →
         (length (val_destroyed s) + nn_vals (contents l) = count_ops has_val ops)%nat).
Proof.
  intros HD Hcmp Hfuel. unfold run, bftree_create, empty_mem. mrun.
  match goal with |- context [exec_ops fuel ops ?s0] =>
    destruct (exec_ops_shape o ops s0 [] fuel HD Hcmp) as (s & l & Hrun & Hs & Hc & Hlen & Hk & Hv)
  end.
  - by constructor.
  - simpl. lia.
  - lia.
  - exists s, l. rewrite Hrun. split_and!; try done.
Qed.


(** ** What later operations leave untouched *)

(** No [put] or [del] of a key equal to [k] occurs in [ops]. *)
Definition no_write_to (cmp : key_compare_func) (k : option K) (ops : list op) : Prop :=
  Forall (λ o, match o with
               | OpPut k2 _ | OpDel k2 => cmp k2 k ≠ 0
               | OpGet _ => True
               end) ops.

(** No [put] of a key equal to [k] occurs in [ops]. *)
Definition no_put_to (cmp : key_compare_func) (k : option K) (ops : list op) : Prop :=
  Forall (λ o, match o with
               | OpPut k2 _ => cmp k2 k ≠ 0
               | OpDel _ | OpGet _ => True
               end) ops.

Lemma apply_ops_app cmp ops1 ops2 m :
  apply_ops cmp (ops1 ++ ops2) m = apply_ops cmp ops2 (apply_ops cmp ops1 m).
Proof. apply foldl_app. Qed.

Lemma apply_ops_cons cmp o ops m :
  apply_ops cmp (o :: ops) m = apply_ops cmp ops (apply_op cmp o m).
Proof. reflexivity. Qed.

Section Sequences.
Context (cmp : key_compare_func) (Hcmp : total_order cmp).

Lemma cmp_other k k' k2 : cmp k' k = 0 → cmp k2 k ≠ 0 → cmp k' k2 ≠ 0.
Proof.
  intros Heq Hne Hz. apply Hne.
  apply (cmp_flip_eq cmp Hcmp) in Hz.
  pose proof (cmp_eq_r cmp Hcmp k2 k k' Heq). lia.
Qed.

Lemma model_find_unwritten k k' ops : ∀ m,
  cmp k' k = 0 →
  no_write_to cmp k ops →
  model_find cmp k' (apply_ops cmp ops m) = model_find cmp k' m.
Proof.
  induction ops as [|o ops IH]; intros m Heq Hops; [done|].
  apply Forall_cons in Hops as [Ho Hops].
  cbn [apply_ops foldl]. fold (apply_ops cmp ops (apply_op cmp o m)).
  rewrite IH by done.
  destruct o as [k2 v2|k2|k2]; cbn [apply_op]; [| |done];
    apply (model_find_insert_other cmp Hcmp); rewrite e_key_mk; by eapply cmp_other.
Qed.

Lemma model_find_masked k k' ops : ∀ m,
  cmp k' k = 0 →
  no_put_to cmp k ops →
  (∃ y, model_find cmp k' m = Some y ∧ e_type y = Del) →
  ∃ y, model_find cmp k' (apply_ops cmp ops m) = Some y ∧ e_type y = Del.
Proof.
  induction ops as [|o ops IH]; intros m Heq Hops Hm; [done|].
  apply Forall_cons in Hops as [Ho Hops].
  cbn [apply_ops foldl]. fold (apply_ops cmp ops (apply_op cmp o m)).
  apply IH; [done|done|].
  destruct o as [k2 v2|k2|k2]; cbn [apply_op]; [| |done].
  - rewrite (model_find_insert_other cmp Hcmp); [done|].
    rewrite e_key_mk. by eapply cmp_other.
  - destruct (decide (cmp k' k2 = 0)) as [Hz|Hz].
    + destruct (model_find_insert_same cmp Hcmp (k2, None, Del) m k' Hz) as (y & Hy & _ & Hty).
      exists y. done.
    + by rewrite (model_find_insert_other cmp Hcmp).
Qed.

End Sequences.


Lemma shape_heap o s l :
  shape o s l →
  payload_heap s = list_to_map l ∧ NoDup l.*1 ∧ sorted (key_compare o) (contents l).
Proof.
  intros [|r c dc pc b kd vd l' Hne [? ? ? ?]]; [|done].
  split_and!; [done|constructor|constructor].
Qed.

(** In a sorted chain the payload with a key equal to [k] is the one a
    write of [k] replaces. *)
Lemma write_result_replaces o k v ty s l s' l' p0 y0 :
  total_order (key_compare o) →
  sorted (key_compare o) (contents l) →
  write_result o k v ty s l s' l' →
  (p0, y0) ∈ l →
  key_compare o k (key y0) = 0 →
  ∃ l1 l2, l = l1 ++ (p0, y0) :: l2
    ∧ l' = l1 ++ (p0, mk_payload (key y0) v ty (next y0)) :: l2
    ∧ key_destroyed s' = key_destroyed s ++ destroyed_keys o k
    ∧ val_destroyed s' = val_destroyed s ++ destroyed_vals o (val y0)
    ∧ payload_heap s' !! brk s = None.
Proof.
  intros Hcmp Hsort Hres Hin Hk.
  assert (Hlater : ∀ ax l2, StronglySorted (key_lt (key_compare o)) (contents (ax :: l2)) →
            key_compare o k (key ax.2) <= 0 → (p0, y0) ∈ l2 → False).
  { intros ax l2 Hs Hax Hin2. cbn [contents map] in Hs.
    apply StronglySorted_inv in Hs as [_ Hall]. rewrite Forall_forall in Hall.
    assert (Hlt : key_lt (key_compare o) (content ax.2) (content y0)).
    { apply Hall. apply (list_elem_of_fmap_2 (λ ax, content ax.2) _ (p0, y0)). done. }
    unfold key_lt in Hlt. change (e_key (content ax.2)) with (key ax.2) in Hlt.
    change (e_key (content y0)) with (key y0) in Hlt.
    pose proof (cmp_le_lt_trans _ Hcmp _ _ _ Hax Hlt). lia. }
  destruct Hres as [l1 p y l2 Hl Hl1 Hy Hl' Hkd Hvd Hfree|l1 l2 Hl Hl1 Hl2 Hc Hkd Hvd];
    subst l; unfold sorted in Hsort; rewrite contents_app in Hsort;
    apply StronglySorted_app_1_r in Hsort;
    apply elem_of_app in Hin as [Hin|Hin].
  - rewrite Forall_forall in Hl1. apply Hl1 in Hin. simpl in Hin. lia.
  - apply elem_of_cons in Hin as [Heq|Hin].
    + injection Heq as -> ->. exists l1, l2. done.
    + exfalso. eapply (Hlater (p, y) l2); [done|simpl; lia|done].
  - rewrite Forall_forall in Hl1. apply Hl1 in Hin. simpl in Hin. lia.
  - exfalso. destruct l2 as [|ax l2]; [by apply elem_of_nil in Hin|].
    apply elem_of_cons in Hin as [Heq|Hin].
    + subst ax. simpl in Hl2. lia.
    + eapply (Hlater ax l2); [done|lia|done].
Qed.

(** * Properties of the public operations *)

(** C1 (read-your-writes): on a tree made by [bftree_create] with a
    total-order comparator, after any operations [ops1], then [put(k, v)],
    then operations [ops2] none of which is a [put] or [del] of a key equal
    to [k], a [get] of any key equal to [k] returns [v]; the run and the
    lookup complete for every fuel above the number of operations. *)
Theorem C1_read_your_writes (o : bftree_opts) (ops1 ops2 : list op)
    (k k' : option K) (v : option V) (fuel : nat) :
  0 < BFTREE_DEFAULT_CONTAINER →
  total_order (key_compare o) →
  key_compare o k' k = 0 →
  no_write_to (key_compare o) k ops2 →
  (length (ops1 ++ OpPut k v :: ops2) < fuel)%nat →
  ∃ s, run fuel o (ops1 ++ OpPut k v :: ops2) = Ret tt s
       ∧ bftree_get fuel k' s = Ret v s.
Proof.
  intros HD Hcmp Heq Hops2 Hfuel.
  destruct (run_shape o _ fuel HD Hcmp Hfuel) as (s & l & Hrun & Hs & Hc & Hlen & _).
  exists s. split; [done|].
  rewrite (get_shape o s l) by (done || lia). f_equal.
  rewrite Hc, apply_ops_app, apply_ops_cons. cbn [apply_op]. unfold model_get.
  rewrite (model_find_unwritten _ Hcmp k) by done.
  destruct (model_find_insert_same _ Hcmp (k, v, Put)
              (apply_ops (key_compare o) ops1 []) k' Heq) as (y & -> & Hv & ->).
  done.
Qed.

(** C2 (last-writer-wins, overwrite in place): after any operations ending
    with [put(k, v)], a [get] of a key equal to [k] returns [v]; and when
    [put(k, v)] meets a payload [x] at address [p] with an equal key, that
    payload keeps its address, key and link and takes the new value and
    kind [Put], every other payload is unchanged, and the new payload
    object (at the address [brk s] that [payload_create] returned) is
    released, its key and the old value going to the destructors. *)
Theorem C2_last_writer_wins (o : bftree_opts) (ops : list op)
    (k k' : option K) (v : option V) (fuel : nat) :
  0 < BFTREE_DEFAULT_CONTAINER →
  total_order (key_compare o) →
  key_compare o k' k = 0 →
  (length (ops ++ [OpPut k v]) < fuel)%nat →
  (∃ s, run fuel o (ops ++ [OpPut k v]) = Ret tt s
        ∧ bftree_get fuel k' s = Ret v s)
  ∧ (∃ s, run fuel o ops = Ret tt s
        ∧ ∀ p x, payload_heap s !! p = Some x →
                 key_compare o k (key x) = 0 →
          ∃ s', bftree_put fuel k v s = Ret BF_OK s'
            ∧ payload_heap s' !! p = Some (mk_payload (key x) v Put (next x))
            ∧ (∀ q, q ≠ p → payload_heap s' !! q = payload_heap s !! q)
            ∧ payload_heap s' !! brk s = None
            ∧ key_destroyed s' = key_destroyed s ++ destroyed_keys o k
            ∧ val_destroyed s' = val_destroyed s ++ destroyed_vals o (val x)).
Proof.
  intros HD Hcmp Heq Hfuel. rewrite length_app in Hfuel. cbn [length] in Hfuel. split.
  - destruct (run_shape o (ops ++ [OpPut k v]) fuel HD Hcmp) as (s & l & Hrun & Hs & Hc & Hlen & _).
    { rewrite length_app. simpl. lia. }
    rewrite length_app in Hlen. cbn [length] in Hlen.
    exists s. split; [done|].
    rewrite (get_shape o s l) by (done || lia). f_equal.
    rewrite Hc, apply_ops_app, apply_ops_cons. cbn [apply_op]. unfold model_get.
    destruct (model_find_insert_same _ Hcmp (k, v, Put)
                (apply_ops (key_compare o) ops []) k' Heq) as (y & Hy & Hv & Ht).
    change (apply_ops (key_compare o) [] ?m) with m.
    rewrite Hy, Ht. done.
  - destruct (run_shape o ops fuel HD Hcmp ltac:(lia)) as (s & l & Hrun & Hs & Hc & Hlen & _).
    exists s. split; [done|]. intros p x Hp Hk.
    destruct (shape_heap _ _ _ Hs) as (Hheap & Hnd & Hsort).
    rewrite Hheap in Hp. apply elem_of_list_to_map_2 in Hp.
    rewrite bftree_put_write.
    destruct (write_shape o s l fuel k v Put HD Hcmp Hs ltac:(lia)) as (s' & l' & Hput & Hs' & Hres).
    destruct (write_result_replaces _ _ _ _ _ _ _ _ _ _ Hcmp Hsort Hres Hp Hk)
      as (l1 & l2 & Hl & Hl' & Hkd & Hvd & Hfree).
    destruct (shape_heap _ _ _ Hs') as (Hheap' & Hnd' & _).
    exists s'. split; [done|]. rewrite Hheap', Hheap.
    split_and!; try done.
    + apply elem_of_list_to_map_1; [done|]. rewrite Hl'. set_solver.
    + intros q Hq. rewrite Hl', Hl.
      rewrite <- (list_to_map_update l1 l2 p x) by (by rewrite <- Hl).
      by rewrite lookup_insert_ne.
    + by rewrite <- Hheap'.
Qed.


(** A lookup that meets an equal key of kind [Del] answers NULL at once,
    whatever the container's child is. *)
Lemma container_get_del (s : mem) (fuel : nat) (node_p : ptr) (idx : Z)
    (k : option K) t n cp c p x :
  tree_obj s = Some t →
  node_heap s !! node_p = Some n →
  0 <= idx < container_size n →
  containers n !! Z.to_nat idx = Some cp →
  container_heap s !! cp = Some c →
  get_payload fuel (key_compare (opts t)) (payload_first c) k s = Ret (p, true) s →
  payload_heap s !! p = Some x →
  type x = Del →
  container_get (S fuel) node_p idx k s = Ret NULL s.
Proof.
  intros Ht Hn Hidx Hcp Hc Hget Hp Hx.
  rewrite container_get_unfold.
  rewrite (bind_Ret _ _ s n s) by (by apply load_node_Some).
  replace (container_size n <=? idx) with false by lia.
  rewrite (bind_Ret _ _ s t s) by (by apply load_tree_Some).
  rewrite (array_get_Some _ _ cp) by (done || lia).
  rewrite (bind_Ret _ _ s cp s) by done.
  rewrite (bind_Ret _ _ s c s) by (by apply load_container_Some).
  rewrite (bind_Ret _ _ s _ s Hget). cbn [fst snd].
  rewrite (bind_Ret _ _ s x s) by (by apply load_payload_Some).
  rewrite Hx. done.
Qed.

(** C3 (delete masking): after any operations [ops1], then [del(k)], then
    operations [ops2] none of which is a [put] of a key equal to [k], a
    [get] of any key equal to [k] returns null.  In particular, in any
    store, [container_get] on a container whose chain holds an equal key of
    kind [Del] returns NULL without looking at the container's child, and
    [bftree_get] then returns null. *)
Theorem C3_delete_masking (o : bftree_opts) (ops1 ops2 : list op)
    (k k' : option K) (fuel : nat) :
  0 < BFTREE_DEFAULT_CONTAINER →
  total_order (key_compare o) →
  key_compare o k' k = 0 →
  no_put_to (key_compare o) k ops2 →
  (length (ops1 ++ OpDel k :: ops2) < fuel)%nat →
  (∃ s, run fuel o (ops1 ++ OpDel k :: ops2) = Ret tt s
        ∧ bftree_get fuel k' s = Ret None s)
  ∧ (∀ (s : mem) (f : nat) (node_p : ptr) (idx : Z) (q : option K) t n cp c p x,
        tree_obj s = Some t →
        node_heap s !! node_p = Some n →
        0 <= idx < container_size n →
        containers n !! Z.to_nat idx = Some cp →
        container_heap s !! cp = Some c →
        get_payload f (key_compare (opts t)) (payload_first c) q s = Ret (p, true) s →
        payload_heap s !! p = Some x →
        type x = Del →
        container_get (S f) node_p idx q s = Ret NULL s).
Proof.
  intros HD Hcmp Heq Hops2 Hfuel. split.
  - destruct (run_shape o _ fuel HD Hcmp Hfuel) as (s & l & Hrun & Hs & Hc & Hlen & _).
    exists s. split; [done|].
    rewrite (get_shape o s l) by (done || lia). f_equal.
    rewrite Hc, apply_ops_app, apply_ops_cons. cbn [apply_op]. unfold model_get.
    destruct (model_find_masked _ Hcmp k k' ops2
                (model_insert (key_compare o) (k, None, Del)
                   (apply_ops (key_compare o) ops1 [])) Heq Hops2) as (y & -> & ->); [|done].
    destruct (model_find_insert_same _ Hcmp (k, None, Del)
                (apply_ops (key_compare o) ops1 []) k' Heq) as (y & Hy & _ & Ht).
    by exists y.
  - intros. by eapply container_get_del.
Qed.

(** ** Structural invariants, read from the store *)

(** [chain_cells s p l]: from [p], the store links exactly the cells of [l]
    in this order, up to NULL. *)
Fixpoint chain_cells (s : mem) (p : ptr) (l : list (ptr * payload)) : Prop :=
  match l with
  | [] => p = NULL
  | ax :: l' =>
    p = ax.1 ∧ p ≠ NULL ∧ payload_heap s !! p = Some ax.2
    ∧ chain_cells s (next ax.2) l'
  end.

(** Nodes reachable from the root through child pointers. *)
Inductive reachable (s : mem) : ptr → Prop :=
  | reach_root t : tree_obj s = Some t → reachable s (root t)
  | reach_child p n cp c :
      reachable s p →
      node_heap s !! p = Some n →
      cp ∈ containers n →
      container_heap s !! cp = Some c →
      child c ≠ NULL →
      reachable s (child c).

(** N1: adjacent containers are strictly ordered by their separator keys. *)
Definition N1 (cmp : key_compare_func) (s : mem) (n : node) : Prop :=
  ∀ i c1 c2 k1 k2,
    containers n !! i = Some c1 → containers n !! S i = Some c2 →
    sep_of s c1 k1 → sep_of s c2 k2 → cmp k1 k2 < 0.

(** P1: the chain of a container is strictly increasing by key. *)
Definition P1 (cmp : key_compare_func) (s : mem) (c : container) : Prop :=
  ∃ l, chain_cells s (payload_first c) l ∧ sorted cmp (contents l).

(** P2: a container holds at least one payload. *)
Definition P2 (s : mem) (c : container) : Prop :=
  payload_first c ≠ NULL ∧ is_Some (payload_heap s !! payload_first c).

Lemma chain_cells_of_list (s : mem) l :
  NoDup l.*1 → lseg l NULL →
  (∀ p y, (p, y) ∈ l → payload_heap s !! p = Some y) →
  chain_cells s (head_or l NULL) l.
Proof.
  induction l as [|[a x] l IH]; intros Hnd Hseg Hin; [done|].
  destruct Hseg as (Ha & Hnext & Hseg). cbn [fst snd] in *.
  rewrite fmap_cons in Hnd. apply NoDup_cons in Hnd as [_ Hnd].
  cbn [chain_cells head_or fst snd]. split_and!; [done|done|apply Hin; left|].
  rewrite Hnext. apply IH; [done|done|]. intros p y Hp. apply Hin. by right.
Qed.


Lemma validate_chain_loop_ok cmp l : ∀ fuel pa px s,
  payload_heap s !! pa = Some px →
  (∀ p y, (p, y) ∈ l → payload_heap s !! p = Some y) →
  lseg l NULL →
  sorted cmp (content px :: contents l) →
  (length l ≤ fuel)%nat →
  validate_chain_loop fuel cmp pa (head_or l NULL) s = Ret tt s.
Proof.
  induction l as [|[a x] l IH]; intros fuel pa px s Hpa Hin Hseg Hsort Hfuel.
  - by destruct fuel.
  - destruct Hseg as (Ha & Hnext & Hseg). cbn [fst snd] in Ha, Hnext.
    destruct fuel as [|f]; [simpl in Hfuel; lia|].
    cbn [validate_chain_loop head_or fst].
    replace (is_null a) with false by (symmetry; by apply N.eqb_neq).
    rewrite (bind_Ret _ _ s px s) by (by apply load_payload_Some).
    rewrite (bind_Ret _ _ s x s) by (apply load_payload_Some, Hin; left).
    apply StronglySorted_inv in Hsort as [Hsort Hall].
    cbn [contents map] in Hall. apply Forall_cons in Hall as [Hlt _].
    unfold key_lt in Hlt. change (key_compare_func) in cmp.
    change (cmp (key px) (key x) < 0) in Hlt.
    replace (cmp (key px) (key x) <? 0) with true by lia.
    rewrite Hnext. apply (IH f a x); [apply Hin; left| |done|done|simpl in Hfuel; lia].
    intros p y Hp. apply Hin. by right.
Qed.

(** What a leaf-root store looks like, in terms of the store alone. *)
Lemma shape_facts o s l fuel :
  shape o s l →
  (length l ≤ fuel)%nat →
  ∃ t n, tree_obj s = Some t ∧ height t = 1 ∧ is_migrated t = 0 ∧ opts t = o
    ∧ node_heap s !! root t = Some n
    ∧ (∀ p, reachable s p → p = root t)
    ∧ handler_calls s = []
    ∧ validate_containers fuel (root t) (key_compare o) s = Ret tt s
    ∧ match containers n with
      | [] => payload_heap s = ∅ ∧ l = []
      | cp :: rest =>
        rest = [] ∧ l ≠ []
        ∧ ∃ c, container_heap s !! cp = Some c ∧ child c = NULL
               ∧ chain_cells s (payload_first c) l
               ∧ (∀ p, is_Some (payload_heap s !! p) ↔ p ∈ l.*1)
               ∧ sorted (key_compare o) (contents l)
      end.
Proof.
  intros Hs Hfuel. destruct Hs as [r dc pc b kd vd Hb|r c dc pc b kd vd l Hne [Hnd Hseg Hsort Hbelow]].
  - eexists _, _. split_and!; try reflexivity.
    + mproj. apply lookup_singleton_eq.
    + intros p Hp. induction Hp as [t Ht|p n cp c Hp IH Hn Hcp Hc Hchild].
      * cbn [tree_obj] in Ht. by injection Ht as <-.
      * cbn [container_heap] in Hc. by rewrite lookup_empty in Hc.
    + unfold validate_containers. mrun. cbn [validate_containers_loop]. mrun. done.
    + done.
  - assert (Hin : ∀ p y, (p, y) ∈ l → (list_to_map l : gmap N payload) !! p = Some y).
    { intros p y. by apply elem_of_list_to_map_1. }
    eexists _, _. split_and!; try reflexivity.
    + mproj. apply lookup_singleton_eq.
    + intros p Hp. induction Hp as [t Ht|p n cp cc Hp IH Hn Hcp Hc Hchild].
      * cbn [tree_obj] in Ht. by injection Ht as <-.
      * cbn [container_heap] in Hc. apply lookup_singleton_Some in Hc as [_ <-].
        by cbn [child] in Hchild.
    + destruct l as [|[a0 x0] l0] eqn:Hl; [done|].
      destruct Hseg as (Ha0 & Hnext & Hseg). cbn [fst snd] in Ha0, Hnext.
      unfold validate_containers. mrun. cbn [validate_containers_loop length]. mrun.
      cbn [head_or fst snd list_to_map foldr]. mlookup. cbn [snd].
      rewrite Hnext.
      rewrite (validate_chain_loop_ok (key_compare o) l0 fuel a0 x0);
        [|mproj; by mlookup| |done|done|simpl in Hfuel; lia].
      * mrun. done.
      * intros p y Hp. mproj. apply (Hin p y). by right.
    + cbn [containers]. split_and!; [done|done|].
      eexists. split_and!; [mproj; apply lookup_singleton_eq|done| | |done].
      * cbn [payload_first]. apply chain_cells_of_list; [done|done|]. done.
      * intros p. cbn [payload_heap]. rewrite <- elem_of_dom, dom_list_to_map_L.
        rewrite elem_of_list_to_set. done.
Qed.

(** C6 (invariants N1, P1, P2): after any sequence of operations on a
    fresh tree, every node reachable from the root has its adjacent
    containers strictly ordered by separator key, every one of its
    containers has a strictly increasing chain and at least one payload;
    and the assertions of [validate_containers] hold at the root. *)
Theorem C6_structural_invariants (o : bftree_opts) (ops : list op) (fuel : nat) :
  0 < BFTREE_DEFAULT_CONTAINER →
  total_order (key_compare o) →
  (length ops < fuel)%nat →
  ∃ s t, run fuel o ops = Ret tt s
    ∧ tree_obj s = Some t
    ∧ (∀ node_p, reachable s node_p →
         ∃ n, node_heap s !! node_p = Some n
              ∧ N1 (key_compare o) s n
              ∧ ∀ cp, cp ∈ containers n →
                  ∃ c, container_heap s !! cp = Some c
                       ∧ P1 (key_compare o) s c ∧ P2 s c)
    ∧ validate_containers fuel (root t) (key_compare o) s = Ret tt s.
Proof.
  intros HD Hcmp Hfuel.
  destruct (run_shape o ops fuel HD Hcmp Hfuel) as (s & l & Hrun & Hs & _ & Hlen & _).
  destruct (shape_facts o s l fuel Hs ltac:(lia))
    as (t & n & Ht & _ & _ & _ & Hn & Hreach & _ & Hval & Hcont).
  exists s, t. split_and!; [done|done| |done].
  intros node_p Hp. rewrite (Hreach _ Hp). exists n. split; [done|].
  destruct (containers n) as [|cp rest] eqn:Hcs.
  - split.
    + intros i c1 c2 k1 k2 H1. rewrite Hcs in H1. done.
    + intros cp Hcp. by apply elem_of_nil in Hcp.
  - destruct Hcont as (-> & Hne & c & Hc & Hchild & Hchain & Hdom & Hsort). split.
    + intros i c1 c2 k1 k2 H1 H2. rewrite Hcs in H2. done.
    + intros cp' Hcp'. apply list_elem_of_singleton in Hcp' as ->.
      exists c. split_and!; [done|by exists l|].
      destruct l as [|[a x] l']; [done|].
      destruct Hchain as (_ & Ha & Hx & _). split; [exact Ha|by eexists].
Qed.

(** C10 (degenerate shape): after any sequence of [bftree_put],
    [bftree_del] and [bftree_get] calls on a fresh tree, the root holds at
    most one container, that container has no child and its single sorted
    chain holds every live payload, the height is 1, [is_migrated] is 0, and
    no call of [push_to_child], [split_container] or [try_split_node] has
    been made. *)
Theorem C10_degenerate_shape (o : bftree_opts) (ops : list op) (fuel : nat) :
  0 < BFTREE_DEFAULT_CONTAINER →
  total_order (key_compare o) →
  (length ops < fuel)%nat →
  ∃ s t n, run fuel o ops = Ret tt s
    ∧ tree_obj s = Some t
    ∧ height t = 1
    ∧ is_migrated t = 0
    ∧ node_heap s !! root t = Some n
    ∧ (length (containers n) ≤ 1)%nat
    ∧ handler_calls s = []
    ∧ match containers n with
      | [] => payload_heap s = ∅
      | cp :: _ =>
        ∃ c l, container_heap s !! cp = Some c
               ∧ child c = NULL
               ∧ chain_cells s (payload_first c) l
               ∧ (∀ p, is_Some (payload_heap s !! p) ↔ p ∈ l.*1)
               ∧ sorted (key_compare o) (contents l)
      end.
Proof.
  intros HD Hcmp Hfuel.
  destruct (run_shape o ops fuel HD Hcmp Hfuel) as (s & l & Hrun & Hs & _ & Hlen & _).
  destruct (shape_facts o s l fuel Hs ltac:(lia))
    as (t & n & Ht & Hh & Hm & _ & Hn & _ & Hcalls & _ & Hcont).
  exists s, t, n. split_and!; try done.
  - destruct (containers n) as [|cp rest]; [simpl; lia|].
    destruct Hcont as (-> & _). simpl. lia.
  - destruct (containers n) as [|cp rest]; [by destruct Hcont|].
    destruct Hcont as (_ & _ & c & Hc & Hchild & Hchain & Hdom & Hsort).
    by exists c, l.
Qed.


(** ** [find_container] on an ordered node *)

Lemma seps_increasing cmp (seps : list (option K)) :
  total_order cmp →
  (∀ i k1 k2, seps !! i = Some k1 → seps !! S i = Some k2 → cmp k1 k2 < 0) →
  ∀ d i k1 k2, seps !! i = Some k1 → seps !! (i + S d)%nat = Some k2 → cmp k1 k2 < 0.
Proof.
  intros Hcmp Hadj. induction d as [|d IH]; intros i k1 k2 H1 H2.
  - apply (Hadj i); [done|]. by replace (S i) with (i + 1)%nat by lia.
  - destruct (lookup_lt_is_Some_2 seps (i + S d)%nat) as [km Hm].
    { apply lookup_lt_Some in H2. lia. }
    assert (cmp km k2 < 0).
    { apply (Hadj (i + S d)%nat); [done|]. by replace (S (i + S d)) with (i + S (S d))%nat by lia. }
    apply (cmp_lt_le_trans cmp Hcmp) with km; [by eapply IH|lia].
Qed.

(** C8, as the code has it: on a node whose containers satisfy N1 (with
    fewer than 2^31 containers, so that the [int] loop counter holds every
    index), for every key [k] and every starting index [start] below 2^31
    (one that the [int] counter holds as it is), [find_container] returns
    the largest index [i >= start] whose separator compares [<= k] when
    there is one; when there is none it returns [start - 1], or [0] when
    [start = 0]. *)
Theorem C8_find_container_contract (cmp : key_compare_func) (s : mem)
    (node_p : ptr) (n : node) (seps : list (option K)) (k : option K) (start : Z) :
  total_order cmp →
  node_heap s !! node_p = Some n →
  node_seps s n seps →
  N1 cmp s n →
  container_size n < 2147483648 →
  0 <= start < 2147483648 →
  ∃ res, find_container cmp node_p k start s = Ret res s
    ∧ ((∃ i sep, start <= Z.of_nat i ∧ seps !! i = Some sep ∧ cmp sep k <= 0) →
         start <= res
         ∧ (∃ sep, seps !! Z.to_nat res = Some sep ∧ cmp sep k <= 0)
         ∧ ∀ i sep, start <= Z.of_nat i → seps !! i = Some sep → cmp sep k <= 0 →
                    Z.of_nat i <= res)
    ∧ (¬ (∃ i sep, start <= Z.of_nat i ∧ seps !! i = Some sep ∧ cmp sep k <= 0) →
         res = if start =? 0 then 0 else start - 1).
Proof.
  intros Hcmp Hn Hseps HN1 Hsize Hstart.
  assert (Hadj : ∀ i k1 k2, seps !! i = Some k1 → seps !! S i = Some k2 → cmp k1 k2 < 0).
  { intros i k1 k2 H1 H2.
    destruct (Forall2_lookup_r _ _ _ _ _ Hseps H1) as (c1 & Hc1 & Hs1).
    destruct (Forall2_lookup_r _ _ _ _ _ Hseps H2) as (c2 & Hc2 & Hs2).
    by apply (HN1 i c1 c2). }
  pose proof (seps_increasing cmp seps Hcmp Hadj) as Hinc.
  assert (Hlen : Z.of_nat (length seps) = container_size n).
  { apply Forall2_length in Hseps. unfold container_size. lia. }
  assert (Hflip : ∀ a b, cmp a b <= 0 ↔ 0 <= cmp b a).
  { intros a b. pose proof (cmp_sgn cmp Hcmp a b). lia. }
  destruct (find_container_ok cmp node_p k s n seps start Hn Hseps Hsize Hstart)
    as (res & Hres & [[Hge ->]|[Hlt (j & Hj & Hbefore & Hat & ->)]]);
    (eexists; split; [exact Hres|]).
  - split.
    + intros (i & sep & Hi & Hsep & _). apply lookup_lt_Some in Hsep. lia.
    + done.
  - assert (Hbelow : ∀ i sep, start <= Z.of_nat i → seps !! i = Some sep →
                      cmp sep k <= 0 → Z.of_nat i < j).
    { intros i sep Hi Hsep Hle.
      destruct (Z_lt_le_dec (Z.of_nat i) j) as [|Hji]; [done|exfalso].
      apply lookup_lt_Some in Hsep as Hilen.
      destruct (lookup_lt_is_Some_2 seps (Z.to_nat j)) as [sj Hsj]; [lia|].
      pose proof (Hat _ Hsj) as Hksj.
      assert (cmp sj sep <= 0) as Hle2.
      { destruct (decide (Z.to_nat j = i)) as [Heq|Hne].
        - rewrite Heq in Hsj. rewrite Hsep in Hsj. injection Hsj as <-.
          rewrite (cmp_refl cmp Hcmp). lia.
        - assert (cmp sj sep < 0); [|lia].
          apply (Hinc (i - Z.to_nat j - 1)%nat (Z.to_nat j)); [done|].
          by replace (Z.to_nat j + S (i - Z.to_nat j - 1))%nat with i by lia. }
      pose proof (cmp_lt_le_trans cmp Hcmp _ _ _ Hksj Hle2) as Hlt'.
      apply Hflip in Hle. lia. }
    split.
    + intros (i & sep & Hi & Hsep & Hle).
      pose proof (Hbelow i sep Hi Hsep Hle) as Hij.
      replace (j =? 0) with false by lia.
      split_and!; [lia| |].
      * destruct (lookup_lt_is_Some_2 seps (Z.to_nat (j - 1))) as [sr Hsr]; [lia|].
        exists sr. split; [done|]. apply Hflip.
        apply (Hbefore (Z.to_nat (j - 1))); [lia|done].
      * intros i' sep' Hi' Hsep' Hle'. pose proof (Hbelow i' sep' Hi' Hsep' Hle'). lia.
    + intros Hnone.
      assert (j = start) as ->.
      { destruct (Z_lt_le_dec start j) as [Hsj|]; [exfalso|lia].
        destruct (lookup_lt_is_Some_2 seps (Z.to_nat start)) as [ss Hss]; [lia|].
        apply Hnone. exists (Z.to_nat start), ss. split_and!; [lia|done|].
        apply Hflip. apply (Hbefore (Z.to_nat start)); [lia|done]. }
      done.
Qed.

(** ** Destructor calls over the lifetime of a tree *)

Lemma chain_keys_length o l :
  key_destructor o = true → length (chain_keys o l) = nn_keys (contents l).
Proof.
  intros Hkd. unfold chain_keys, destroyed_keys, nn_keys. rewrite Hkd.
  induction l as [|[a x] l IH]; [done|].
  cbn [flat_map contents map omap list_omap snd]. rewrite length_app, IH.
  change (e_key (content x)) with (key x). by destruct (key x).
Qed.

Lemma chain_vals_length o l :
  val_destructor o = true → length (chain_vals o l) = nn_vals (contents l).
Proof.
  intros Hvd. unfold chain_vals, destroyed_vals, nn_vals. rewrite Hvd.
  induction l as [|[a x] l IH]; [done|].
  cbn [flat_map contents map omap list_omap snd]. rewrite length_app, IH.
  change (e_val (content x)) with (val x). by destruct (val x).
Qed.

(** C7, as the code has it: with key and value destructors installed, from
    [bftree_create] through any operations to [bftree_free], the key
    destructor is called once for every [put] or [del] that passed a
    non-null key, and the value destructor once for every [put] that passed
    a non-null value; afterwards the store is empty. *)
Theorem C7_destructor_accounting (o : bftree_opts) (ops : list op) (fuel : nat) :
  0 < BFTREE_DEFAULT_CONTAINER →
  total_order (key_compare o) →
  key_destructor o = true →
  val_destructor o = true →
  (length ops + 3 ≤ fuel)%nat →
  ∃ s s', run fuel o ops = Ret tt s
    ∧ bftree_free fuel s = Ret tt s'
    ∧ length (key_destroyed s') = count_ops has_key ops
    ∧ length (val_destroyed s') = count_ops has_val ops
    ∧ tree_obj s' = None ∧ payload_heap s' = ∅
    ∧ container_heap s' = ∅ ∧ node_heap s' = ∅.
Proof.
  intros HD Hcmp Hkd Hvd Hfuel.
  destruct (run_shape o ops fuel HD Hcmp ltac:(lia))
    as (s & l & Hrun & Hs & _ & Hlen & Hk & Hv).
  destruct (free_shape o s l fuel Hs ltac:(lia))
    as (s' & Hfree & Ht & Hp & Hc & Hn & Hkd' & Hvd').
  exists s, s'. split_and!; try done.
  - rewrite Hkd', length_app, chain_keys_length by done. by apply Hk.
  - rewrite Hvd', length_app, chain_vals_length by done. by apply Hv.
Qed.


(** * Further properties of the public operations *)

(** ** What a lookup sees

    [visible cmp k ops] is what a reader of the operations expects a lookup
    of [k] to return after [ops]: the value of the last [put] of a key equal
    to [k], nothing when a [del] of an equal key came later or when no such
    [put] occurs. *)
Definition visible (cmp : key_compare_func) (k : option K) (ops : list op) : option V :=
  foldl (λ seen o,
           match o with
           | OpPut k2 v => if cmp k k2 =? 0 then v else seen
           | OpDel k2 => if cmp k k2 =? 0 then None else seen
           | OpGet _ => seen
           end) None ops.

Lemma model_get_apply_ops cmp (Hcmp : total_order cmp) k ops : ∀ m,
  model_get cmp k (apply_ops cmp ops m)
  = foldl (λ seen o,
             match o with
             | OpPut k2 v => if cmp k k2 =? 0 then v else seen
             | OpDel k2 => if cmp k k2 =? 0 then None else seen
             | OpGet _ => seen
             end) (model_get cmp k m) ops.
Proof.
  induction ops as [|o ops IH]; intros m; [done|].
  rewrite apply_ops_cons, IH. cbn [foldl]. f_equal.
  destruct o as [k2 v|k2|k2]; cbn [apply_op]; [| |done].
  - destruct (Z.eqb_spec (cmp k k2) 0) as [Hz|Hz].
    + by rewrite (model_get_insert_same cmp Hcmp).
    + by rewrite (model_get_insert_other cmp Hcmp).
  - destruct (Z.eqb_spec (cmp k k2) 0) as [Hz|Hz].
    + by rewrite (model_get_insert_same cmp Hcmp).
    + by rewrite (model_get_insert_other cmp Hcmp).
Qed.

(** X1 ([bftree_get] against the sequence of operations): on a fresh tree,
    after any operations, [bftree_get] of [k] returns the value of the last
    [put] of a key equal to [k], and null when the last write to such a key
    was a [del] or when there was none. *)
Theorem get_returns_last_write (o : bftree_opts) (ops : list op)
    (k : option K) (fuel : nat) :
  0 < BFTREE_DEFAULT_CONTAINER →
  total_order (key_compare o) →
  (length ops < fuel)%nat →
  ∃ s, run fuel o ops = Ret tt s
       ∧ bftree_get fuel k s = Ret (visible (key_compare o) k ops) s.
Proof.
  intros HD Hcmp Hfuel.
  destruct (run_shape o ops fuel HD Hcmp Hfuel) as (s & l & Hrun & Hs & Hc & Hlen & _).
  exists s. split; [exact Hrun|].
  rewrite (get_shape o s l fuel k Hs) by lia.
  by rewrite Hc, (model_get_apply_ops _ Hcmp).
Qed.

(** ** Lookups leave the tree as it is *)

Lemma exec_ops_app fuel ops1 ops2 s :
  exec_ops fuel (ops1 ++ ops2) s
  = match exec_ops fuel ops1 s with
    | Ret _ s' => exec_ops fuel ops2 s'
    | Fault f => Fault f
    | OutOfFuel => OutOfFuel
    end.
Proof.
  revert s. induction ops1 as [|o ops1 IH]; intros s; [done|].
  cbn [app exec_ops]. unfold bind.
  destruct (exec_op fuel o s) as [[] s'| |]; [apply IH|done|done].
Qed.

Lemma create_shape o :
  ∃ s0, bftree_create o empty_mem = Ret tt s0 ∧ shape o s0 [].
Proof.
  unfold bftree_create, empty_mem. mrun. eexists. split; [done|]. by constructor.
Qed.

(** X2 ([bftree_get] is read-only): a lookup anywhere in a sequence of
    operations on a fresh tree changes nothing: the run with the lookup
    ends in the same store as the run without it. *)
Theorem get_leaves_store (o : bftree_opts) (ops1 ops2 : list op)
    (k : option K) (fuel : nat) :
  0 < BFTREE_DEFAULT_CONTAINER →
  total_order (key_compare o) →
  (length ops1 < fuel)%nat →
  run fuel o (ops1 ++ OpGet k :: ops2) = run fuel o (ops1 ++ ops2).
Proof.
  intros HD Hcmp Hfuel. unfold run.
  destruct (create_shape o) as (s0 & Hcreate & Hs0).
  unfold bind. rewrite Hcreate, !exec_ops_app.
  destruct (exec_ops_shape o ops1 s0 [] fuel HD Hcmp Hs0) as (s & l & -> & Hs & _ & Hlen & _);
    [simpl; lia|lia|].
  cbn [exec_ops exec_op]. unfold bind.
  rewrite (get_shape o s l fuel k Hs) by (simpl in Hlen; lia).
  done.
Qed.

(** ** [find_container] stays within the node *)

(** X3 ([find_container] returns a valid index): on a node whose containers
    are all allocated and non-empty, for a starting index inside the node,
    [find_container] returns, without changing the store, an index of the
    node that is not below [start - 1]; with [start = 0] it is an index the
    caller can use on [node->containers]. *)
Theorem find_container_in_bounds (cmp : key_compare_func) (s : mem)
    (node_p : ptr) (n : node) (seps : list (option K)) (k : option K) (start : Z) :
  node_heap s !! node_p = Some n →
  node_seps s n seps →
  container_size n < 2147483648 →
  0 <= start < container_size n →
  ∃ res, find_container cmp node_p k start s = Ret res s
    ∧ 0 <= res < container_size n
    ∧ start - 1 <= res.
Proof.
  intros Hn Hseps Hsize Hstart.
  destruct (find_container_ok cmp node_p k s n seps start Hn Hseps Hsize)
    as (res & Hres & [[? _]|(_ & j & Hj & _ & _ & ->)]); [lia|lia|].
  exists (if j =? 0 then 0 else j - 1). split; [exact Hres|].
  destruct (Z.eqb_spec j 0); lia.
Qed.

(** ** How many payloads a tree holds *)

(** The keys written by [ops], one for each class of equal keys, in the
    order of their first write. *)
Definition key_seen (cmp : key_compare_func) (k : option K) (ks : list (option K)) : bool :=
  existsb (λ k', cmp k k' =? 0) ks.

Definition written_keys (cmp : key_compare_func) (ops : list op) : list (option K) :=
  foldl (λ ks o,
           match o with
           | OpPut k _ | OpDel k => if key_seen cmp k ks then ks else ks ++ [k]
           | OpGet _ => ks
           end) [] ops.

Lemma model_insert_length cmp e m :
  length (model_insert cmp e m)
  = match model_find cmp (e_key e) m with
    | Some _ => length m
    | None => S (length m)
    end.
Proof.
  induction m as [|y m IH]; cbn [model_insert model_find]; [done|].
  destruct (cmp (e_key e) (e_key y) <=? 0); [by destruct (_ =? 0)|].
  cbn [length]. rewrite IH. by destruct (model_find _ _ _).
Qed.

Lemma model_find_equiv cmp (Hcmp : total_order cmp) k k2 m :
  cmp k k2 = 0 → model_find cmp k m = model_find cmp k2 m.
Proof.
  intros Heq. induction m as [|y m IH]; cbn [model_find]; [done|].
  pose proof (cmp_eq_l cmp Hcmp k2 k (e_key y) Heq) as Hsgn.
  destruct (Z.leb_spec (cmp k (e_key y)) 0), (Z.leb_spec (cmp k2 (e_key y)) 0); try lia.
  - destruct (Z.eqb_spec (cmp k (e_key y)) 0), (Z.eqb_spec (cmp k2 (e_key y)) 0);
      done || lia.
  - exact IH.
Qed.

Lemma key_seen_app cmp k ks k2 :
  key_seen cmp k (ks ++ [k2]) = key_seen cmp k ks || (cmp k k2 =? 0).
Proof. unfold key_seen. rewrite existsb_app. cbn [existsb]. by rewrite orb_false_r. Qed.

Lemma written_keys_model cmp (Hcmp : total_order cmp) ops : ∀ m ks,
  length m = length ks →
  (∀ k, is_Some (model_find cmp k m) ↔ key_seen cmp k ks = true) →
  length (apply_ops cmp ops m)
  = length (foldl (λ ks o,
                     match o with
                     | OpPut k _ | OpDel k => if key_seen cmp k ks then ks else ks ++ [k]
                     | OpGet _ => ks
                     end) ks ops).
Proof.
  induction ops as [|o ops IH]; intros m ks Hlen Hseen; [done|].
  rewrite apply_ops_cons. cbn [foldl].
  assert (∀ e, let k2 := e_key e in
            length (model_insert cmp e m)
            = length (if key_seen cmp k2 ks then ks else ks ++ [k2])
            ∧ ∀ k, is_Some (model_find cmp k (model_insert cmp e m))
                   ↔ key_seen cmp k (if key_seen cmp k2 ks then ks else ks ++ [k2]) = true)
    as Hstep.
  { intros e k2. rewrite model_insert_length. fold k2.
    pose proof (Hseen k2) as Hk2.
    assert (∀ k, is_Some (model_find cmp k (model_insert cmp e m))
                 ↔ cmp k k2 = 0 ∨ is_Some (model_find cmp k m)) as Hfind.
    { intros k. destruct (decide (cmp k k2 = 0)) as [Hz|Hz].
      - destruct (model_find_insert_same cmp Hcmp e m k Hz) as (y & -> & _). naive_solver.
      - rewrite (model_find_insert_other cmp Hcmp e m k Hz). naive_solver. }
    destruct (key_seen cmp k2 ks) eqn:Hs.
    - destruct (model_find cmp k2 m) eqn:Hf; [|by destruct Hk2 as [_ [? ?]]].
      split; [done|]. intros k. rewrite Hfind, <- Hseen. split; [|by right].
      intros [Hz|?]; [|done]. by rewrite (model_find_equiv cmp Hcmp k k2 m Hz), Hf.
    - destruct (model_find cmp k2 m) eqn:Hf.
      { destruct Hk2 as [Hk2 _]. discriminate Hk2. by eexists. }
      split; [rewrite length_app; simpl; lia|].
      intros k. rewrite Hfind, key_seen_app, orb_true_iff, <- Hseen, Z.eqb_eq. tauto. }
  destruct o as [k2 v|k2|k2]; cbn [apply_op].
  - destruct (Hstep (k2, v, Put)) as [? ?]. by apply IH.
  - destruct (Hstep (k2, None, Del)) as [? ?]. by apply IH.
  - by apply IH.
Qed.

Lemma shape_size o s l : shape o s l → size (payload_heap s) = length l.
Proof.
  intros Hs. destruct (shape_heap o s l Hs) as (-> & Hnd & _).
  by apply map_size_list_to_map.
Qed.

(** X4 (one payload for each key): after any operations on a fresh tree the
    number of live payloads is the number of distinct keys put or deleted so
    far (a [del] leaves its marker, nothing is released before
    [bftree_free]), and the [payload_size] of the root's container is that
    number as a [uint32_t]. *)
Theorem payloads_count_written_keys (o : bftree_opts) (ops : list op) (fuel : nat) :
  0 < BFTREE_DEFAULT_CONTAINER →
  total_order (key_compare o) →
  (length ops < fuel)%nat →
  ∃ s t n, run fuel o ops = Ret tt s
    ∧ size (payload_heap s) = length (written_keys (key_compare o) ops)
    ∧ tree_obj s = Some t
    ∧ node_heap s !! root t = Some n
    ∧ ∀ cp, cp ∈ containers n →
        ∃ c, container_heap s !! cp = Some c
             ∧ payload_size c = wrap32 (Z.of_nat (size (payload_heap s))).
Proof.
  intros HD Hcmp Hfuel.
  destruct (run_shape o ops fuel HD Hcmp Hfuel) as (s & l & Hrun & Hs & Hc & _).
  pose proof (shape_size o s l Hs) as Hsize.
  assert (length l = length (written_keys (key_compare o) ops)) as Hlen.
  { rewrite <- (length_map (λ ax, content ax.2) l). fold (contents l). rewrite Hc.
    apply (written_keys_model _ Hcmp); [done|].
    intros k. cbn. split; [by intros [? ?]|done]. }
  destruct Hs as [r dc pc b kd vd Hb|r c dc pc b kd vd l Hne Hok].
  - eexists _, _, _. split; [exact Hrun|]. cbn [payload_heap tree_obj node_heap root] in *.
    split; [by rewrite <- Hlen|]. split; [done|].
    split; [apply lookup_singleton_eq|]. intros cp Hcp. by apply elem_of_nil in Hcp.
  - eexists _, _, _. split; [exact Hrun|]. cbn [payload_heap tree_obj node_heap root] in *.
    split; [by rewrite <- Hlen|]. split; [done|].
    split; [apply lookup_singleton_eq|]. intros cp Hcp.
    apply list_elem_of_singleton in Hcp as ->.
    eexists. cbn [container_heap]. split; [apply lookup_singleton_eq|].
    cbn [payload_size]. by rewrite Hsize.
Qed.

(** ** What [bftree_del] does to the store *)

(** X5 ([bftree_del] marks, it does not remove): after any operations on a
    fresh tree, [bftree_del] of [k] returns [BF_OK].  When a payload with an
    equal key is live, that payload stays where it is, keeps its key and link
    and becomes a [Del] marker without value; the old value goes to the value
    destructor, the key passed to [bftree_del] to the key destructor, and the
    number of live payloads is unchanged.  When no live payload has an equal
    key, one payload is added and no destructor is called. *)
Theorem del_marks_in_place (o : bftree_opts) (ops : list op)
    (k : option K) (fuel : nat) :
  0 < BFTREE_DEFAULT_CONTAINER →
  total_order (key_compare o) →
  (S (length ops) < fuel)%nat →
  ∃ s s', run fuel o ops = Ret tt s
    ∧ bftree_del fuel k s = Ret BF_OK s'
    ∧ (∀ p x, payload_heap s !! p = Some x →
              key_compare o k (key x) = 0 →
         payload_heap s' !! p = Some (mk_payload (key x) None Del (next x))
         ∧ size (payload_heap s') = size (payload_heap s)
         ∧ key_destroyed s' = key_destroyed s ++ destroyed_keys o k
         ∧ val_destroyed s' = val_destroyed s ++ destroyed_vals o (val x))
    ∧ ((∀ p x, payload_heap s !! p = Some x → key_compare o k (key x) ≠ 0) →
         size (payload_heap s') = S (size (payload_heap s))
         ∧ key_destroyed s' = key_destroyed s
         ∧ val_destroyed s' = val_destroyed s).
Proof.
  intros HD Hcmp Hfuel.
  destruct (run_shape o ops fuel HD Hcmp ltac:(lia)) as (s & l & Hrun & Hs & Hc & Hlen & _).
  rewrite bftree_del_write.
  destruct (write_shape o s l fuel k None Del HD Hcmp Hs ltac:(lia))
    as (s' & l' & Hdel & Hs' & Hres).
  exists s, s'. split; [exact Hrun|]. split; [exact Hdel|].
  destruct (shape_heap _ _ _ Hs) as (Hheap & Hnd & Hsort).
  destruct (shape_heap _ _ _ Hs') as (Hheap' & Hnd' & _).
  rewrite (shape_size o s l Hs), (shape_size o s' l' Hs'). split.
  - intros p x Hp Hk. rewrite Hheap in Hp. apply elem_of_list_to_map_2 in Hp.
    destruct (write_result_replaces _ _ _ _ _ _ _ _ _ _ Hcmp Hsort Hres Hp Hk)
      as (l1 & l2 & Hl & Hl' & Hkd & Hvd & _).
    split_and!; [|by rewrite Hl', Hl, !length_app|done|done].
    rewrite Hheap'. apply elem_of_list_to_map_1; [done|]. rewrite Hl'. set_solver.
  - intros Hnone.
    destruct Hres as [l1 p y l2 Hl _ Heq _ _ _ _|l1 l2 Hl _ _ Hc' Hkd Hvd].
    + exfalso. apply (Hnone p y); [|done].
      rewrite Hheap. apply elem_of_list_to_map_1; [done|]. rewrite Hl. set_solver.
    + split_and!; [|done|done].
      rewrite <- (length_map (λ ax, content ax.2) l'). fold (contents l').
      rewrite Hc', Hl, !length_app. cbn [length]. unfold contents.
      rewrite !length_map. lia.
Qed.

(** ** What [bftree_free] releases *)

Lemma chain_keys_sorted o l :
  sorted (key_compare o) (contents l) →
  StronglySorted (λ a b, key_compare o (Some a) (Some b) < 0) (chain_keys o l).
Proof.
  unfold chain_keys, destroyed_keys.
  induction l as [|[p x] l IH]; intros Hsort; cbn [flat_map]; [constructor|].
  change (contents ((p, x) :: l)) with (content x :: contents l) in Hsort.
  apply StronglySorted_inv in Hsort as [Hl Hall]. specialize (IH Hl).
  cbn [snd]. destruct (key_destructor o); [|exact IH].
  destruct (key x) as [a|] eqn:Hx; cbn [option_list app]; [|exact IH].
  constructor; [done|]. apply Forall_forall. intros b Hb.
  apply list_elem_of_In, in_flat_map in Hb as ([q y] & Hin & Hb).
  cbn [snd] in Hb. destruct (key y) as [b'|] eqn:Hy; cbn [option_list] in Hb; [|done].
  destruct Hb as [<-|[]].
  assert (content y ∈ contents l) as Hcy.
  { apply list_elem_of_In in Hin.
    exact (list_elem_of_fmap_2 (λ ax, content ax.2) l (q, y) Hin). }
  rewrite Forall_forall in Hall. specialize (Hall _ Hcy).
  unfold key_lt, content in Hall. cbn in Hall. by rewrite Hx, Hy in Hall.
Qed.

(** X6 ([bftree_free] releases everything, in key order): with any options,
    after any operations on a fresh tree, [bftree_free] returns and leaves
    no payload, container, node or tree handle allocated; the keys it hands
    to the key destructor come in strictly ascending order of the
    comparator. *)
Theorem free_releases_in_order (o : bftree_opts) (ops : list op) (fuel : nat) :
  0 < BFTREE_DEFAULT_CONTAINER →
  total_order (key_compare o) →
  (length ops + 3 ≤ fuel)%nat →
  ∃ s s' ks, run fuel o ops = Ret tt s
    ∧ bftree_free fuel s = Ret tt s'
    ∧ tree_obj s' = None ∧ payload_heap s' = ∅
    ∧ container_heap s' = ∅ ∧ node_heap s' = ∅
    ∧ key_destroyed s' = key_destroyed s ++ ks
    ∧ StronglySorted (λ a b, key_compare o (Some a) (Some b) < 0) ks.
Proof.
  intros HD Hcmp Hfuel.
  destruct (run_shape o ops fuel HD Hcmp ltac:(lia)) as (s & l & Hrun & Hs & Hc & Hlen & _).
  destruct (free_shape o s l fuel Hs ltac:(lia))
    as (s' & Hfree & Ht & Hp & Hch & Hn & Hkd & _).
  destruct (shape_heap _ _ _ Hs) as (_ & _ & Hsort).
  exists s, s', (chain_keys o l). split; [exact Hrun|]. split; [exact Hfree|].
  split_and!; try done. by apply chain_keys_sorted.
Qed.

(** ** The scan of a chain *)

Lemma sorted_above cmp (Hcmp : total_order cmp) k l :
  sorted cmp (contents l) →
  match l with [] => True | ax :: _ => cmp k (key ax.2) < 0 end →
  ∀ ax, ax ∈ l → cmp k (key ax.2) < 0.
Proof.
  destruct l as [|[p x] l]; intros Hsort Hhead ax Hin; [by apply elem_of_nil in Hin|].
  change (contents ((p, x) :: l)) with (content x :: contents l) in Hsort.
  apply StronglySorted_inv in Hsort as [_ Hall].
  apply elem_of_cons in Hin as [->|Hin]; [done|].
  rewrite Forall_forall in Hall.
  specialize (Hall (content ax.2) (list_elem_of_fmap_2 (λ ax, content ax.2) l ax Hin)).
  unfold key_lt, content in Hall. cbn in Hall. cbn [snd] in Hhead.
  apply (cmp_lt_le_trans cmp Hcmp k (key x) (key ax.2)); lia.
Qed.

(** X7 (the contract of [get_payload]): on a null-terminated chain sorted by
    key, [get_payload] reads without writing and returns either a payload
    whose key equals [k], with [*is_equal] set, or, with [*is_equal] clear,
    the last payload whose key is below [k] (null when the chain is empty
    or starts above [k]); in the second case no payload of the chain has a
    key equal to [k]. *)
Theorem get_payload_contract (cmp : key_compare_func) (s : mem)
    (l : list (ptr * payload)) (k : option K) (fuel : nat) :
  total_order cmp →
  (∀ ax, ax ∈ l → payload_heap s !! ax.1 = Some ax.2) →
  lseg l NULL →
  sorted cmp (contents l) →
  (length l ≤ fuel)%nat →
  ∃ p eq, get_payload fuel cmp (head_or l NULL) k s = Ret (p, eq) s
    ∧ (eq = true → ∃ y, (p, y) ∈ l ∧ cmp k (key y) = 0)
    ∧ (eq = false →
         ∃ l1 l2, l = l1 ++ l2
           ∧ p = match reverse l1 with [] => NULL | ax :: _ => ax.1 end
           ∧ (∀ ax, ax ∈ l1 → 0 < cmp k (key ax.2))
           ∧ (∀ ax, ax ∈ l2 → cmp k (key ax.2) < 0)).
Proof.
  intros Hcmp Hheap Hseg Hsort Hfuel.
  unfold get_payload. rewrite (get_payload_loop_ok cmp k l fuel NULL s Hheap Hseg Hfuel).
  pose proof (get_payload_spec_cases cmp k l NULL) as Hscan.
  set (res := get_payload_spec cmp k NULL l) in *. clearbody res.
  destruct Hscan as [l1 p y l2 Hl Hl1 Heq|Hhead|l1 p y l2 Hl Hl1 Hl2].
  - exists p, true. split; [done|]. split; [|done].
    intros _. exists y. split; [|done]. rewrite Hl. set_solver.
  - exists NULL, false. split; [done|]. split; [done|].
    intros _. exists [], l. split_and!; [done|done|set_solver|].
    by apply sorted_above.
  - exists p, false. split; [done|]. split; [done|].
    intros _. exists (l1 ++ [(p, y)]), l2. split_and!.
    + by rewrite <- app_assoc.
    + by rewrite reverse_app.
    + by apply Forall_forall.
    + apply (sorted_above cmp Hcmp); [|done].
      rewrite Hl in Hsort. unfold contents in Hsort.
      rewrite map_app in Hsort. apply StronglySorted_app_1_r in Hsort.
      change (map (λ ax, content ax.2) ((p, y) :: l2))
        with (content y :: contents l2) in Hsort.
      by apply StronglySorted_inv in Hsort as [? _].
Qed.

(** ** The array of containers *)

Lemma delete_take_drop {A} (l : list A) (i : nat) (x : A) :
  (i ≤ length l)%nat → delete i (take i l ++ x :: drop i l) = l.
Proof.
  intros Hi.
  assert (length (take i l) = i) as Hlen by (rewrite length_take; lia).
  rewrite <- Hlen at 1. rewrite delete_middle. apply take_drop.
Qed.

(** X8 ([insert_after_container] then [remove_container]): on a node with
    at least one container and room accounted for by [container_count],
    inserting a container after index [idx] and then removing the container
    at [idx + 1] returns the inserted container and leaves the node's
    containers as they were; only the capacity has doubled if the node was
    full. *)
Theorem insert_then_remove (s : mem) (node_p container_p : ptr) (n : node) (idx : Z) :
  node_heap s !! node_p = Some n →
  0 <= idx < container_size n →
  container_size n <= container_count n < 2147483648 →
  (do insert_after_container node_p container_p idx in
   remove_container node_p (idx + 1)) s
  = Ret container_p
      (with_nodes s
         (<[node_p := mk_node (parent n) (containers n)
                        (if container_size n =? container_count n
                         then container_count n * 2 else container_count n)]>
            (node_heap s))).
Proof.
  intros Hn Hidx Hcap.
  destruct s as [t ph ch nh b kd vd hc], n as [pa cs cnt].
  unfold container_size in *. cbn [containers container_count node_heap parent] in *.
  unfold insert_after_container, remove_container, bind, load_node, store_node,
    set_containers, with_nodes, array_get, ret, container_size.
  cbn [node_heap]. rewrite Hn.
  cbn [node_heap containers container_count parent
       tree_obj payload_heap container_heap brk key_destroyed val_destroyed handler_calls].
  rewrite (wrap32_small (idx + 1)) by lia.
  set (cap := if Z.of_nat (length cs) =? cnt then wrap32 (cnt * 2) else cnt).
  assert (cap = if Z.of_nat (length cs) =? cnt then cnt * 2 else cnt) as Hcap'.
  { unfold cap. destruct (_ =? _); [apply wrap32_small; lia|done]. }
  assert (Z.of_nat (length cs) < cap) as Hlt.
  { rewrite Hcap'. destruct (Z.eqb_spec (Z.of_nat (length cs)) cnt); lia. }
  replace (cap <=? Z.of_nat (length cs)) with false by lia.
  replace (Z.of_nat (length cs) =? 0) with false by lia.
  replace (Z.of_nat (length cs) <? idx + 1) with false by lia.
  replace (idx + 1 <? 0) with false by lia.
  assert (Z.to_nat (idx + 1) ≤ length cs)%nat as Hle by lia.
  assert ((take (Z.to_nat (idx + 1)) cs ++ container_p :: drop (Z.to_nat (idx + 1)) cs)
            !! Z.to_nat (idx + 1) = Some container_p) as Hat.
  { rewrite lookup_app_r by (rewrite length_take; lia).
    by rewrite length_take, Nat.min_l, Nat.sub_diag by lia. }
  repeat first
    [ progress cbn [node_heap containers container_count parent tree_obj payload_heap
                    container_heap brk key_destroyed val_destroyed handler_calls]
    | rewrite Hn | rewrite lookup_insert_eq | rewrite Hat ].
  rewrite insert_insert_eq, delete_take_drop by lia.
  by rewrite Hcap'.
Qed.

(** ** Lookups in trees of any height *)

(** [wf_node s m d node_p]: below [node_p] the store holds a tree of at most
    [d] further levels; every node has its containers allocated and
    non-empty, every chain is null-terminated with at most [m] payloads. *)
Fixpoint wf_node (s : mem) (m d : nat) (node_p : ptr) : Prop :=
  ∃ n seps,
    node_heap s !! node_p = Some n
    ∧ container_size n < 2147483648
    ∧ node_seps s n seps
    ∧ ∀ cp, cp ∈ containers n →
        ∃ c l, container_heap s !! cp = Some c
               ∧ chain_cells s (payload_first c) l
               ∧ (length l ≤ m)%nat
               ∧ (child c ≠ NULL →
                  match d with
                  | O => False
                  | S d' => wf_node s m d' (child c)
                  end).

Lemma wf_node_unfold s m d node_p :
  wf_node s m d node_p ↔
  ∃ n seps,
    node_heap s !! node_p = Some n
    ∧ container_size n < 2147483648
    ∧ node_seps s n seps
    ∧ ∀ cp, cp ∈ containers n →
        ∃ c l, container_heap s !! cp = Some c
               ∧ chain_cells s (payload_first c) l
               ∧ (length l ≤ m)%nat
               ∧ (child c ≠ NULL →
                  match d with
                  | O => False
                  | S d' => wf_node s m d' (child c)
                  end).
Proof. by destruct d. Qed.

Lemma chain_cells_list (s : mem) l : ∀ p,
  chain_cells s p l →
  p = head_or l NULL ∧ lseg l NULL ∧ ∀ ax, ax ∈ l → payload_heap s !! ax.1 = Some ax.2.
Proof.
  induction l as [|ax l IH]; intros p Hc; cbn [chain_cells] in Hc.
  - subst p. split_and!; [done|done|]. intros ax Hin. by apply elem_of_nil in Hin.
  - destruct Hc as (-> & Hne & Hax & Hrest).
    destruct (IH _ Hrest) as (Hnext & Hseg & Hall).
    split_and!; [done|by cbn [lseg]|].
    intros ax' Hin. apply elem_of_cons in Hin as [->|Hin]; [done|by apply Hall].
Qed.

Lemma container_get_wf (s : mem) (t : bftree) (m : nat) (k : option K) :
  tree_obj s = Some t →
  ∀ d fuel node_p idx,
    wf_node s m d node_p →
    (d + m + 1 ≤ fuel)%nat →
    0 <= idx →
    ∃ r, container_get fuel node_p idx k s = Ret r s
         ∧ (r ≠ NULL →
            ∃ x, payload_heap s !! r = Some x ∧ type x = Put
                 ∧ key_compare (opts t) k (key x) = 0).
Proof.
  intros Ht. induction d as [|d IH]; intros fuel node_p idx Hwf Hfuel Hidx;
    (destruct fuel as [|f]; [lia|]);
    cbn [wf_node] in Hwf; destruct Hwf as (n & seps & Hn & Hsize & Hseps & Hcs);
    rewrite container_get_unfold;
    rewrite (bind_Ret _ _ s n s) by (by apply load_node_Some);
    (destruct (Z.leb_spec (container_size n) idx) as [Hout|Hin];
       [by exists NULL|]);
    rewrite (bind_Ret _ _ s t s) by (by apply load_tree_Some);
    (destruct (lookup_lt_is_Some_2 (containers n) (Z.to_nat idx)) as [cp Hcp];
       [unfold container_size in Hin; lia|]);
    rewrite (array_get_Some _ _ cp) by done;
    rewrite (bind_Ret _ _ s cp s) by done;
    (destruct (Hcs cp) as (c & l & Hc & Hchain & Hlen & Hchild);
       [by eapply list_elem_of_lookup_2|]);
    rewrite (bind_Ret _ _ s c s) by (by apply load_container_Some);
    destruct (chain_cells_list s l _ Hchain) as (Hfirst & Hseg & Hheap);
    unfold get_payload;
    rewrite Hfirst, (bind_Ret _ _ s _ s
      (get_payload_loop_ok (key_compare (opts t)) k l f NULL s Hheap Hseg ltac:(lia)));
    pose proof (get_payload_spec_cases (key_compare (opts t)) k l NULL) as Hscan;
    set (res := get_payload_spec (key_compare (opts t)) k NULL l) in *; clearbody res;
    destruct Hscan as [l1 p y l2 Hl Hl1 Heq|Hhead|l1 p y l2 Hl Hl1 Hl2]; cbn [fst snd].
  1, 4:
    assert (payload_heap s !! p = Some y) as Hp
      by (apply (Hheap (p, y)); rewrite Hl; set_solver);
    rewrite (bind_Ret _ _ s y s) by (by apply load_payload_Some);
    (destruct (type y) eqn:Hty; cbn [payload_type_eqb];
       [exists p; split; [done|]; intros _; by exists y|by exists NULL]).
  1, 2:
    destruct (decide (child c = NULL)) as [Hnull|Hnn];
      [rewrite Hnull; by exists NULL|by destruct (Hchild Hnn)].
  all:
    (destruct (decide (child c = NULL)) as [Hnull|Hnn];
       [rewrite Hnull; by exists NULL|]);
    specialize (Hchild Hnn);
    replace (negb (is_null (child c))) with true
      by (unfold is_null, NULL in *; destruct (child c); done);
    pose proof Hchild as Hwf'; apply wf_node_unfold in Hwf';
    destruct Hwf' as (n' & seps' & Hn' & Hsize' & Hseps' & _);
    destruct (find_container_ok (key_compare (opts t)) (child c) k s n' seps' 0
                Hn' Hseps' Hsize' ltac:(lia)) as (res & Hres & Hcase);
    rewrite (bind_Ret _ _ s res s Hres);
    apply IH; [done|lia|];
    destruct Hcase as [[_ ->]|(_ & j & Hj & _ & _ & ->)]; [done|];
    destruct (Z.eqb_spec j 0); lia.
Qed.

(** X9 ([bftree_get] on a tree of any height): in any store that holds a
    well-formed tree (nodes, containers and null-terminated chains
    allocated, containers non-empty, finitely many levels), [bftree_get]
    returns without a fault and without writing; a non-null result is the
    value of a live [Put] payload whose key equals the key looked up. *)
Theorem get_safe_on_any_tree (s : mem) (t : bftree) (m d fuel : nat) (k : option K) :
  tree_obj s = Some t →
  wf_node s m d (root t) →
  (d + m + 1 ≤ fuel)%nat →
  ∃ v, bftree_get fuel k s = Ret v s
       ∧ (v ≠ None →
          ∃ p x, payload_heap s !! p = Some x ∧ type x = Put
                 ∧ key_compare (opts t) k (key x) = 0 ∧ val x = v).
Proof.
  intros Ht Hwf Hfuel. unfold bftree_get.
  rewrite (bind_Ret _ _ s t s) by (by apply load_tree_Some).
  pose proof Hwf as Hwf'. apply wf_node_unfold in Hwf'.
    destruct Hwf' as (n & seps & Hn & Hsize & Hseps & _);
    destruct (find_container_ok (key_compare (opts t)) (root t) k s n seps 0
                Hn Hseps Hsize ltac:(lia)) as (res & Hres & Hcase);
    rewrite (bind_Ret _ _ s res s Hres);
    (assert (0 <= res) as Hpos
       by (destruct Hcase as [[_ ->]|(_ & j & Hj & _ & _ & ->)]; [done|];
           destruct (Z.eqb_spec j 0); lia));
    destruct (container_get_wf s t m k Ht _ fuel (root t) res Hwf Hfuel Hpos)
      as (r & Hget & Hr);
    rewrite (bind_Ret _ _ s r s Hget);
    (destruct (decide (r = NULL)) as [->|Hnn];
       [by exists None|]);
    destruct (Hr Hnn) as (x & Hx & Hty & Heq);
    replace (negb (is_null r)) with true
      by (unfold is_null, NULL in *; destruct r; done);
    rewrite (bind_Ret _ _ s x s) by (by apply load_payload_Some);
    exists (val x); (split; [done|]); intros _; by exists r, x.
Qed.

(** ** Splitting a container *)

Lemma chain_cells_functional (s : mem) l1 : ∀ l2 p,
  chain_cells s p l1 → chain_cells s p l2 → l1 = l2.
Proof.
  induction l1 as [|[a x] l1 IH]; intros [|[a' x'] l2] p H1 H2;
    cbn [chain_cells fst snd] in *; [done|naive_solver|naive_solver|].
  destruct H1 as (-> & _ & Hx & H1), H2 as (-> & _ & Hx' & H2).
  rewrite Hx in Hx'. injection Hx' as <-. f_equal. by eapply IH.
Qed.

Lemma chain_cells_app (s : mem) l1 : ∀ l2 p,
  chain_cells s p (l1 ++ l2) →
  ∃ q, chain_cells s q l2 ∧ q = head_or l2 NULL.
Proof.
  induction l1 as [|ax l1 IH]; intros l2 p Hc; cbn [app] in Hc.
  - exists p. split; [done|]. by destruct (chain_cells_list s l2 p Hc) as (-> & _).
  - destruct Hc as (_ & _ & _ & Hc). by eapply IH.
Qed.

Lemma chain_cells_NoDup (s : mem) l : ∀ p, chain_cells s p l → NoDup l.*1.
Proof.
  induction l as [|[a x] l IH]; intros p Hc; [constructor|].
  pose proof Hc as (-> & Hne & Hx & Hrest). cbn [fst snd] in *.
  cbn [fmap list_fmap fst]. constructor; [|by eapply IH].
  intros Hin. apply list_elem_of_fmap in Hin as ([a' x'] & Ha & Hin). cbn [fst] in Ha. subst a'.
  apply list_elem_of_split in Hin as (l1 & l2 & ->).
  destruct (chain_cells_app s _ _ _ Hrest) as (q & Hq & _).
  pose proof Hq as (-> & _ & Hx' & _). cbn [fst snd] in *.
  rewrite Hx in Hx'. injection Hx' as <-.
  pose proof (chain_cells_functional s _ _ _ Hc Hq) as Heq.
  apply (f_equal length) in Heq. cbn [length] in Heq. rewrite length_app in Heq.
  cbn [length] in Heq. lia.
Qed.

(** The walk of [split_container] stops on the cell [steps] links after the
    one it starts from. *)
Lemma split_walk_loop_ok (s : mem) (bound : Z) l1 : ∀ fuel i p ax l2,
  chain_cells s p (l1 ++ ax :: l2) →
  0 <= i →
  bound = i + Z.of_nat (length l1) →
  bound < 4294967296 →
  (length l1 ≤ fuel)%nat →
  split_walk_loop fuel i bound p s = Ret ax.1 s.
Proof.
  induction l1 as [|ay l1 IH]; intros fuel i p ax l2 Hc Hi Hb Hlt Hfuel;
    cbn [app length] in *.
  - destruct Hc as (-> & _). destruct fuel; cbn [split_walk_loop];
      by replace (i <? bound) with false by lia.
  - destruct Hc as (-> & _ & Hy & Hc).
    destruct fuel as [|f]; [lia|]. cbn [split_walk_loop].
    replace (i <? bound) with true by lia.
    rewrite (bind_Ret _ _ s ay.2 s) by (by apply load_payload_Some).
    rewrite wrap32_small by lia.
    apply (IH f (i + 1) _ ax l2 Hc); lia.
Qed.

Lemma split_container_unfold f node_p container_idx :
  split_container (S f) node_p container_idx =
    do enter SplitContainer in
    let* new_container := container_create in
    do insert_after_container node_p new_container container_idx in
    let* n := load_node node_p in
    let* target := array_get (containers n) container_idx in
    let* tc := load_container target in
    let half_count := payload_size tc / 2 in
    let* payload_p := split_walk_loop f 0 (wrap32 (half_count - 1)) (payload_first tc) in
    let* x := load_payload payload_p in
    do write_payload_first new_container (next x) in
    do write_next payload_p NULL in
    let* tc := load_container target in
    do write_payload_size new_container (wrap32 (payload_size tc - half_count)) in
    do write_payload_size target half_count in
    try_split_node f node_p.
Proof. reflexivity. Qed.

Lemma try_split_node_below f node_p n s :
  node_heap s !! node_p = Some n →
  container_size n < BFTREE_CONTAINER_THRESHOLD →
  try_split_node (S f) node_p s
  = Ret tt (mk_mem (tree_obj s) (payload_heap s) (container_heap s) (node_heap s) (brk s)
                   (key_destroyed s) (val_destroyed s) (handler_calls s ++ [TrySplitNode])).
Proof.
  intros Hn Hlt. cbn [try_split_node]. unfold bind at 1. unfold enter at 1.
  unfold bind at 1. unfold load_node at 1. cbn [node_heap]. rewrite Hn.
  by replace (container_size n <? BFTREE_CONTAINER_THRESHOLD) with true by lia.
Qed.

Lemma chain_cells_heap (s s' : mem) l : ∀ p,
  payload_heap s = payload_heap s' → chain_cells s p l → chain_cells s' p l.
Proof.
  intros p Heq. revert p. induction l as [|ax l IH]; intros p; cbn [chain_cells]; [done|].
  rewrite Heq. naive_solver.
Qed.

Lemma chain_cells_update_other (s s' : mem) p0 y l : ∀ q,
  payload_heap s' = <[p0 := y]> (payload_heap s) →
  p0 ∉ l.*1 →
  chain_cells s q l → chain_cells s' q l.
Proof.
  intros q Heq. revert q. induction l as [|ax l IH]; intros q Hnin Hc; [done|].
  cbn [chain_cells] in *. destruct Hc as (-> & Hne & Hax & Hc).
  rewrite fmap_cons, not_elem_of_cons in Hnin. destruct Hnin as [Hne0 Hnin].
  split_and!; [done|done| |by apply IH].
  by rewrite Heq, lookup_insert_ne.
Qed.

Lemma chain_cells_cut (s s' : mem) p0 x l1 l2 : ∀ q,
  payload_heap s' = <[p0 := set_next x NULL]> (payload_heap s) →
  p0 ∉ l1.*1 →
  chain_cells s q (l1 ++ (p0, x) :: l2) →
  chain_cells s' q (l1 ++ [(p0, set_next x NULL)]).
Proof.
  intros q Heq. revert q. induction l1 as [|ax l1 IH]; intros q Hnin Hc; cbn [app chain_cells] in *.
  - destruct Hc as (-> & Hne & _). cbn [fst snd]. split_and!; [done|done| |done].
    by rewrite Heq, lookup_insert_eq.
  - destruct Hc as (-> & Hne & Hax & Hc).
    rewrite fmap_cons, not_elem_of_cons in Hnin. destruct Hnin as [Hne0 Hnin].
    split_and!; [done|done| |by apply IH].
    by rewrite Heq, lookup_insert_ne.
Qed.

(** X10 ([split_container] halves a chain): on a node with room below the
    container threshold, [split_container] of a container whose chain holds
    [len >= 2] payloads cuts the chain after its first [len / 2] payloads:
    the container keeps those, a new container placed right after it takes
    the rest, with [payload_size] set accordingly; the only payload cell
    written is the last one of the first half, whose link becomes null, so
    every payload stays in the node, in the same order. *)
Theorem split_container_halves (s : mem) (t : bftree) (node_p target : ptr)
    (n : node) (tc : container) (l : list (ptr * payload)) (idx : Z) (fuel : nat) :
  tree_obj s = Some t →
  node_heap s !! node_p = Some n →
  0 <= idx < container_size n →
  containers n !! Z.to_nat idx = Some target →
  container_size n <= container_count n < 2147483648 →
  container_size n + 1 < BFTREE_CONTAINER_THRESHOLD →
  container_heap s !! target = Some tc →
  container_heap s !! brk s = None →
  chain_cells s (payload_first tc) l →
  payload_size tc = Z.of_nat (length l) →
  (2 ≤ length l)%nat →
  Z.of_nat (length l) < 4294967296 →
  (length l + 2 ≤ fuel)%nat →
  ∃ s' l1 l2 p x,
    split_container fuel node_p idx s = Ret tt s'
    ∧ l = l1 ++ (p, x) :: l2
    ∧ Z.of_nat (length l1) + 1 = Z.of_nat (length l) / 2
    ∧ payload_heap s' = <[p := set_next x NULL]> (payload_heap s)
    ∧ container_heap s'
      = <[target := mk_container (payload_first tc) (Z.of_nat (length l) / 2) (child tc)]>
          (<[brk s := mk_container (next x)
                        (Z.of_nat (length l) - Z.of_nat (length l) / 2) NULL]>
             (container_heap s))
    ∧ (∃ cap, node_heap s'
              = <[node_p := mk_node (parent n)
                              (take (Z.to_nat (idx + 1)) (containers n) ++ brk s
                                 :: drop (Z.to_nat (idx + 1)) (containers n)) cap]>
                  (node_heap s))
    ∧ chain_cells s' (payload_first tc) (l1 ++ [(p, set_next x NULL)])
    ∧ chain_cells s' (next x) l2
    ∧ tree_obj s' = Some t
    ∧ key_destroyed s' = key_destroyed s
    ∧ val_destroyed s' = val_destroyed s.
Proof.
  intros Ht Hn Hidx Htarget Hcap HCT Htc Hfresh Hchain Hsize Hlen2 Hlen32 Hfuel.
  destruct fuel as [|[|f]]; [lia|lia|]. rewrite split_container_unfold.
  set (h := Z.of_nat (length l) / 2).
  pose proof (chain_cells_NoDup s l _ Hchain) as Hnd.
  assert (1 <= h ∧ 2 * h <= Z.of_nat (length l)) as Hh.
  { unfold h. pose proof (Z.div_mod (Z.of_nat (length l)) 2 ltac:(lia)).
    pose proof (Z.mod_pos_bound (Z.of_nat (length l)) 2 ltac:(lia)). lia. }
  destruct (lookup_lt_is_Some_2 l (Z.to_nat (h - 1))) as [[p x] Hpx]; [lia|].
  pose proof (take_drop_middle l _ _ Hpx) as Hl.
  set (l1 := take (Z.to_nat (h - 1)) l) in *.
  set (l2 := drop (S (Z.to_nat (h - 1))) l) in *.
  assert (Z.of_nat (length l1) = h - 1) as Hl1 by (unfold l1; rewrite length_take; lia).
  assert (target ≠ brk s) as Hne by congruence.
  pose proof Hchain as Hchain0. rewrite <- Hl in Hchain0.
  assert (payload_heap s !! p = Some x) as Hp.
  { destruct (chain_cells_list s l _ Hchain) as (_ & _ & Hall).
    apply (Hall (p, x)). rewrite <- Hl. set_solver. }
  destruct s as [t0 ph ch nh b kd vd hc].
  cbn [tree_obj node_heap container_heap brk payload_heap] in *. subst t0.
  munfold; mproj; mlookup.
  rewrite (wrap32_small (idx + 1)) by lia.
  set (cap := if container_size n =? container_count n
              then wrap32 (container_count n * 2) else container_count n).
  assert (container_size n < cap) as Hcap'.
  { unfold cap. destruct (Z.eqb_spec (container_size n) (container_count n));
      [rewrite wrap32_small; lia|lia]. }
  replace (cap <=? container_size n) with false by lia.
  replace (container_size n =? 0) with false by lia.
  replace (container_size n <? idx + 1) with false by lia.
  mproj; mlookup.
  replace (idx <? 0) with false by lia.
  assert ((take (Z.to_nat (idx + 1)) (containers n) ++ b
             :: drop (Z.to_nat (idx + 1)) (containers n)) !! Z.to_nat idx = Some target)
    as Hat.
  { rewrite lookup_app_l by (rewrite length_take; unfold container_size in *; lia).
    rewrite lookup_take_lt by lia. done. }
  mproj. mlookup. mproj. rewrite Hat. mproj. mlookup.
  rewrite Hsize. fold h. rewrite (wrap32_small (h - 1)) by lia.
  match goal with |- context [split_walk_loop (S f) 0 (h - 1) (payload_first tc) ?s1] =>
    rewrite (split_walk_loop_ok s1 (h - 1) l1 (S f) 0 (payload_first tc) (p, x) l2);
      [|by eapply chain_cells_heap; [|exact Hchain0]|lia|lia|lia|lia]
  end.
  cbn [fst]. do 12 (mproj; mlookup).
  rewrite !insert_insert_eq, Hsize, (wrap32_small (Z.of_nat (length l) - h)) by lia.
  match goal with |- context [try_split_node (S f) node_p ?s1] =>
    rewrite (try_split_node_below f node_p _ s1 (lookup_insert_eq _ _ _))
  end.
  2: { unfold container_size in *. cbn [containers].
       rewrite length_app, length_take. cbn [length]. rewrite length_drop. lia. }
  mproj.
  assert (p ∉ l1.*1 ∧ p ∉ l2.*1) as [Hp1 Hp2].
  { rewrite <- Hl, fmap_app, fmap_cons in Hnd. cbn [fst] in Hnd.
    apply NoDup_app in Hnd as (_ & Hd & Hnd). apply NoDup_cons in Hnd as [? _].
    split; [|done]. intros Hin. apply (Hd p Hin). left. }
  destruct (chain_cells_app _ l1 ((p, x) :: l2) _ Hchain0) as (q & Hq & _).
  destruct Hq as (_ & _ & _ & Hnext). cbn [snd] in Hnext.
  eexists _, l1, l2, p, x. split; [reflexivity|]. mproj.
  split_and!; try done; try lia.
  - by eexists.
  - by eapply (chain_cells_cut _ _ p x l1 l2); [|done|exact Hchain0].
  - by eapply (chain_cells_update_other _ _ p (set_next x NULL) l2); [|done|exact Hnext].
Qed.

(** ** One round of a caller's loop *)

Lemma write_result_quiet o k v ty s l s' l' :
  write_result o k v ty s l s' l' →
  key_destructor o = false → val_destructor o = false →
  key_destroyed s' = key_destroyed s ∧ val_destroyed s' = val_destroyed s.
Proof.
  intros [l1 p y l2 _ _ _ _ Hkd Hvd _|l1 l2 _ _ _ _ Hkd Hvd] Hk Hv; [|done].
  rewrite Hk in Hkd. rewrite Hv in Hvd. by rewrite Hkd, Hvd, !app_nil_r.
Qed.

Lemma put_get_step o s l fuel k v :
  0 < BFTREE_DEFAULT_CONTAINER →
  total_order (key_compare o) →
  shape o s l →
  (S (length l) < fuel)%nat →
  ∃ s' l', bftree_put fuel k v s = Ret BF_OK s'
    ∧ shape o s' l'
    ∧ (length l' ≤ S (length l))%nat
    ∧ bftree_get fuel k s' = Ret v s'
    ∧ (key_destructor o = false → val_destructor o = false →
       key_destroyed s' = key_destroyed s ∧ val_destroyed s' = val_destroyed s).
Proof.
  intros HD Hcmp Hs Hfuel. rewrite bftree_put_write.
  destruct (write_shape o s l fuel k v Put HD Hcmp Hs ltac:(lia)) as (s' & l' & Hput & Hs' & Hres).
  pose proof (write_result_length _ _ _ _ _ _ _ _ Hres) as Hlen.
  exists s', l'. split_and!; [done|done|done| |by apply (write_result_quiet _ _ _ _ _ _ _ _ Hres)].
  rewrite (get_shape o s' l' fuel k Hs') by lia.
  rewrite (write_result_contents _ _ _ _ _ _ _ _ Hres).
  rewrite (model_get_insert_same _ Hcmp); [done|]. apply (cmp_refl _ Hcmp).
Qed.

Lemma del_step o s l fuel k :
  0 < BFTREE_DEFAULT_CONTAINER →
  total_order (key_compare o) →
  shape o s l →
  (length l < fuel)%nat →
  ∃ s' l', bftree_del fuel k s = Ret BF_OK s'
    ∧ shape o s' l'
    ∧ (length l' ≤ S (length l))%nat
    ∧ (key_destructor o = false → val_destructor o = false →
       key_destroyed s' = key_destroyed s ∧ val_destroyed s' = val_destroyed s).
Proof.
  intros HD Hcmp Hs Hfuel. rewrite bftree_del_write.
  destruct (write_shape o s l fuel k None Del HD Hcmp Hs Hfuel) as (s' & l' & Hdel & Hs' & Hres).
  pose proof (write_result_length _ _ _ _ _ _ _ _ Hres) as Hlen.
  exists s', l'. split_and!; [done|done|done|by apply (write_result_quiet _ _ _ _ _ _ _ _ Hres)].
Qed.

Lemma chain_quiet o l :
  key_destructor o = false → val_destructor o = false →
  chain_keys o l = [] ∧ chain_vals o l = [].
Proof.
  intros Hk Hv. unfold chain_keys, chain_vals, destroyed_keys, destroyed_vals.
  rewrite Hk, Hv. split; by induction l.
Qed.

Lemma shape_height o s l :
  shape o s l → ∃ t, tree_obj s = Some t ∧ height t = 1.
Proof. intros []; eexists; done. Qed.

(** ** Splitting the root *)

(** Appending to a node through [insert_after_container]: the index of the
    last container, or any index when the node is empty. *)
Lemma insert_after_container_append (s : mem) (nn c pa : ptr) (acc : list ptr)
    (cap idx : Z) :
  node_heap s !! nn = Some (mk_node pa acc cap) →
  Z.of_nat (length acc) <= cap < 2147483648 →
  0 < cap →
  (acc ≠ [] → idx = Z.of_nat (length acc) - 1) →
  insert_after_container nn c idx s
  = Ret tt (with_nodes s
              (<[nn := mk_node pa (acc ++ [c])
                         (if Z.of_nat (length acc) =? cap then cap * 2 else cap)]>
                 (node_heap s))).
Proof.
  intros Hn Hcap Hpos Hidx.
  unfold insert_after_container, bind, load_node, store_node. rewrite Hn.
  unfold container_size. cbn [containers container_count parent].
  set (cap' := if Z.of_nat (length acc) =? cap then wrap32 (cap * 2) else cap).
  assert (cap' = if Z.of_nat (length acc) =? cap then cap * 2 else cap) as Hcap'.
  { unfold cap'. destruct (_ =? _); [apply wrap32_small; lia|done]. }
  assert (Z.of_nat (length acc) < cap') as Hlt.
  { rewrite Hcap'. destruct (Z.eqb_spec (Z.of_nat (length acc)) cap); lia. }
  replace (cap' <=? Z.of_nat (length acc)) with false by lia.
  destruct acc as [|a acc].
  - change (Z.of_nat (length (@nil ptr)) =? 0) with true. cbv beta iota. rewrite Hn.
    cbn [app length] in *. by rewrite Hcap'.
  - assert (Z.of_nat (length (a :: acc)) = Z.of_nat (length acc) + 1) as Hlen
      by (rewrite length_cons; lia).
    replace (Z.of_nat (length (a :: acc)) =? 0) with false by lia.
    rewrite (Hidx ltac:(done)).
    replace (Z.of_nat (length (a :: acc)) - 1 + 1) with (Z.of_nat (length (a :: acc))) by lia.
    rewrite wrap32_small by lia.
    replace (Z.of_nat (length (a :: acc)) <? Z.of_nat (length (a :: acc))) with false by lia.
    rewrite Hn, Nat2Z.id, firstn_all, drop_all, Hcap'. done.
Qed.

Lemma with_nodes_id (s : mem) : with_nodes s (node_heap s) = s.
Proof. by destruct s. Qed.

Lemma with_nodes_twice (s : mem) h1 h2 : with_nodes (with_nodes s h1) h2 = with_nodes s h2.
Proof. done. Qed.

(** The copy loop of [try_split_node] appends the containers from index
    [i] on to the new node. *)
Lemma move_containers_loop_ok (node_p nn pa : ptr) (n : node) (mid : Z) :
  node_p ≠ nn →
  container_size n < 1073741824 →
  0 <= mid →
  ∀ steps i acc cap s,
    node_heap s !! node_p = Some n →
    node_heap s !! nn = Some (mk_node pa acc cap) →
    i = mid + 1 + Z.of_nat (length acc) →
    i <= container_size n →
    Z.of_nat (length acc) <= cap < 2147483648 →
    0 < cap →
    container_size n - i <= Z.of_nat steps →
    ∃ cap',
      move_containers_loop steps node_p nn mid i s
      = Ret (container_size n)
          (with_nodes s
             (<[nn := mk_node pa (acc ++ drop (Z.to_nat i) (containers n)) cap']>
                (node_heap s)))
      ∧ 0 < cap' < 2147483648.
Proof.
  intros Hne Hsize Hmid.
  induction steps as [|steps IH]; intros i acc cap s Hn Hnn Hi Hle Hcap Hpos Hsteps.
  - assert (i = container_size n) as -> by lia.
    exists cap. split; [|lia]. cbn [move_containers_loop].
    rewrite (bind_Ret _ _ s n s) by (by apply load_node_Some).
    unfold to_uint. rewrite wrap32_small by lia.
    replace (container_size n <? container_size n) with false by lia.
    unfold container_size. rewrite Nat2Z.id, drop_all, app_nil_r.
    by rewrite insert_id, with_nodes_id.
  - cbn [move_containers_loop].
    rewrite (bind_Ret _ _ s n s) by (by apply load_node_Some).
    unfold to_uint. rewrite wrap32_small by lia.
    destruct (Z.ltb_spec i (container_size n)) as [Hlt|Hge].
    2: { assert (i = container_size n) as -> by lia.
         exists cap. split; [|lia].
         unfold container_size. rewrite Nat2Z.id, drop_all, app_nil_r.
         by rewrite insert_id, with_nodes_id. }
    destruct (lookup_lt_is_Some_2 (containers n) (Z.to_nat i)) as [c Hc];
      [unfold container_size in Hlt; lia|].
    rewrite (array_get_Some _ _ c) by (done || lia).
    rewrite (bind_Ret _ _ s c s) by done.
    rewrite (bind_Ret _ _ _ _ _
               (insert_after_container_append s nn c pa acc cap
                  (wrap32 (i - mid - 2)) Hnn Hcap Hpos
                  ltac:(intros Hacc; rewrite wrap32_small;
                        [lia|destruct acc; [done|cbn [length] in *; lia]]))).
    unfold int_succ. rewrite to_int_small by lia.
    set (cap1 := if Z.of_nat (length acc) =? cap then cap * 2 else cap).
    assert (Z.of_nat (length acc) < cap1 < 2147483648) as Hcap1.
    { unfold cap1. unfold container_size in *.
      destruct (Z.eqb_spec (Z.of_nat (length acc)) cap); lia. }
    destruct (IH (i + 1) (acc ++ [c]) cap1
                (with_nodes s (<[nn := mk_node pa (acc ++ [c]) cap1]> (node_heap s))))
      as (cap' & Hloop & Hcap').
    + cbn [with_nodes node_heap]. by rewrite lookup_insert_ne.
    + cbn [with_nodes node_heap]. by rewrite lookup_insert_eq.
    + rewrite length_app. cbn [length]. lia.
    + lia.
    + rewrite length_app. cbn [length]. lia.
    + lia.
    + lia.
    + exists cap'. split; [|done]. rewrite Hloop.
      rewrite with_nodes_twice. cbn [with_nodes node_heap].
      rewrite insert_insert_eq, <- app_assoc. cbn [app].
      replace (Z.to_nat (i + 1)) with (S (Z.to_nat i)) by lia.
      by rewrite <- (drop_S (containers n) c (Z.to_nat i) Hc).
Qed.

Lemma try_split_node_unfold f node_p :
  try_split_node (S f) node_p =
    do enter TrySplitNode in
    let* n := load_node node_p in
    if container_size n <? BFTREE_CONTAINER_THRESHOLD then ret tt
    else
      let middle_container_idx := container_size n / 2 in
      let* new_node := node_create (parent n) in
      let* new_node_first_container := array_get (containers n) middle_container_idx in
      do write_child new_node_first_container new_node in
      let* i := move_containers_loop (length (containers n)) node_p new_node
                  middle_container_idx (to_int (middle_container_idx + 1)) in
      let* n := load_node node_p in
      let size' := wrap32 (container_size n - wrap32 (i - middle_container_idx)) in
      do (if size' <=? container_size n
          then store_node node_p (set_containers n (take (Z.to_nat size') (containers n)))
          else fail OutOfBounds) in
      let* t := load_tree in
      if N.eqb node_p (root t) then
        let* new_root := node_create NULL in
        do store_tree (set_root t new_root) in
        let* t := load_tree in
        do store_tree (set_height t (wrap32 (height t + 1))) in
        do write_parent node_p new_root in
        do write_parent new_node new_root in
        let* container_p := remove_container node_p 0 in
        do write_child container_p node_p in
        do insert_after_container new_root container_p 0 in
        insert_after_container new_root new_node_first_container 0
      else
        let* n := load_node node_p in
        let* seam := load_container new_node_first_container in
        let* first := load_payload (payload_first seam) in
        let* parent_container_idx :=
          find_container (key_compare (opts t)) (parent n) (key first) 0 in
        let* n := load_node node_p in
        do insert_after_container (parent n) new_node_first_container
             parent_container_idx in
        let* n := load_node node_p in
        do order_container_payload f (parent n) parent_container_idx
             (wrap32 (parent_container_idx + 1)) in
        let* n := load_node node_p in
        try_split_node f (parent n).
Proof. reflexivity. Qed.

(** X12 ([try_split_node] at the root): when the root holds at least
    [BFTREE_CONTAINER_THRESHOLD] (and at least two) containers,
    [try_split_node] makes a new root of two containers, the first container
    of the old root and its middle one; the old root keeps the containers
    between them and becomes the child of the first, a new node takes the
    containers after the middle one and becomes the child of the middle one;
    the height grows by one.  No payload cell is touched and no other node
    changes. *)
Theorem try_split_node_root (s : mem) (t : bftree) (n : node) (c0 cm : ptr)
    (cc0 ccm : container) (fuel : nat) :
  tree_obj s = Some t →
  node_heap s !! root t = Some n →
  BFTREE_CONTAINER_THRESHOLD <= container_size n →
  2 <= container_size n < 1073741824 →
  0 < BFTREE_DEFAULT_CONTAINER < 1073741824 →
  containers n !! 0%nat = Some c0 →
  containers n !! Z.to_nat (container_size n / 2) = Some cm →
  c0 ≠ cm →
  container_heap s !! c0 = Some cc0 →
  container_heap s !! cm = Some ccm →
  node_heap s !! brk s = None →
  node_heap s !! N.succ (brk s) = None →
  (0 < fuel)%nat →
  ∃ s' capN capR,
    try_split_node fuel (root t) s = Ret tt s'
    ∧ tree_obj s' = Some (mk_bftree (N.succ (brk s)) (wrap32 (height t + 1)) (opts t)
                            (is_migrated t) (del_payload_count t) (put_payload_count t))
    ∧ node_heap s' !! N.succ (brk s) = Some (mk_node NULL [c0; cm] capR)
    ∧ node_heap s' !! root t
      = Some (mk_node (N.succ (brk s))
                (drop 1 (take (Z.to_nat (container_size n / 2)) (containers n)))
                (container_count n))
    ∧ node_heap s' !! brk s
      = Some (mk_node (N.succ (brk s))
                (drop (S (Z.to_nat (container_size n / 2))) (containers n)) capN)
    ∧ (∀ q, q ≠ root t → q ≠ brk s → q ≠ N.succ (brk s) →
            node_heap s' !! q = node_heap s !! q)
    ∧ container_heap s'
      = <[c0 := set_child cc0 (root t)]> (<[cm := set_child ccm (brk s)]> (container_heap s))
    ∧ payload_heap s' = payload_heap s.
Proof.
  intros Ht Hn HCT Hsize HD Hc0 Hcm Hne Hcc0 Hccm Hb Hb1 Hfuel.
  destruct fuel as [|f]; [lia|]. rewrite try_split_node_unfold.
  set (mid := container_size n / 2).
  assert (1 <= mid ∧ 2 * mid <= container_size n) as Hmid.
  { unfold mid. pose proof (Z.div_mod (container_size n) 2 ltac:(lia)).
    pose proof (Z.mod_pos_bound (container_size n) 2 ltac:(lia)). lia. }
  assert (root t ≠ brk s) as Hr by congruence.
  assert (root t ≠ N.succ (brk s)) as Hr1 by congruence.
  destruct s as [t0 ph ch nh b kd vd hc].
  cbn [tree_obj node_heap container_heap brk payload_heap] in *. subst t0.
  munfold; mproj; mlookup.
  replace (container_size n <? BFTREE_CONTAINER_THRESHOLD) with false by lia.
  fold mid.
  replace (mid <? 0) with false by lia. do 6 (mproj; mlookup).
  rewrite (to_int_small (mid + 1)) by lia.
  match goal with |- context [move_containers_loop _ _ _ _ _ ?s1] =>
    destruct (move_containers_loop_ok (root t) b (parent n) n mid Hr ltac:(lia) ltac:(lia)
                (length (containers n)) (mid + 1) [] BFTREE_DEFAULT_CONTAINER s1)
      as (capN & Hloop & HcapN)
  end.
  { cbn [node_heap]. by rewrite lookup_insert_ne. }
  { cbn [node_heap]. by rewrite lookup_insert_eq. }
  { cbn [length]. lia. }
  { lia. }
  { cbn [length]. lia. }
  { lia. }
  { unfold container_size. lia. }
  rewrite Hloop. cbn [app]. do 3 (munfold; mproj; mlookup).
  replace (mid + 1) with (Z.succ mid) in * by lia.
  rewrite (wrap32_small (container_size n - mid)) by lia.
  replace (container_size n - (container_size n - mid)) with mid by lia.
  rewrite (wrap32_small mid) by lia.
  replace (mid <=? container_size n) with true by lia.
  do 3 (mproj; mlookup).
  rewrite N.eqb_refl. do 8 (mproj; mlookup).
  assert (take (Z.to_nat mid) (containers n) !! 0%nat = Some c0) as Htake0
    by (rewrite lookup_take_lt; [done|lia]).
  unfold remove_container. munfold; mproj; mlookup; mint.
  mproj. rewrite Htake0. do 8 (munfold; mproj; mlookup).
  mint. replace (0 =? BFTREE_DEFAULT_CONTAINER) with false by lia.
  replace (BFTREE_DEFAULT_CONTAINER <=? 0) with false by lia.
  do 3 (mproj; mlookup). mint.
  set (capR := if 1 =? BFTREE_DEFAULT_CONTAINER
               then wrap32 (BFTREE_DEFAULT_CONTAINER * 2) else BFTREE_DEFAULT_CONTAINER).
  assert (1 < capR) as HcapR.
  { unfold capR. destruct (Z.eqb_spec 1 BFTREE_DEFAULT_CONTAINER) as [<-|?]; [done|lia]. }
  replace (capR <=? 1) with false by lia.
  do 3 (mproj; mlookup). mint.
  assert (b ≠ N.succ b) as Hbb by lia.
  eexists _, capN, capR. split; [reflexivity|]. mproj.
  replace (Z.to_nat (Z.succ mid)) with (S (Z.to_nat mid)) by lia.
  split_and!; [done| | | | |done|done].
  - by rewrite lookup_insert_eq.
  - rewrite lookup_insert_ne, lookup_insert_ne, lookup_insert_eq by done.
    by destruct (take (Z.to_nat mid) (containers n)).
  - rewrite lookup_insert_ne, lookup_insert_ne, lookup_insert_ne, lookup_insert_eq by done.
    done.
  - intros q Hq1 Hq2 Hq3. by rewrite !lookup_insert_ne by done.
Qed.

(** ** What [validate_containers] checks *)

Lemma validate_chain_loop_sound cmp (Hcmp : total_order cmp) l : ∀ fuel pa px s,
  payload_heap s !! pa = Some px →
  (∀ ax, ax ∈ l → payload_heap s !! ax.1 = Some ax.2) →
  lseg l NULL →
  (length l ≤ fuel)%nat →
  (validate_chain_loop fuel cmp pa (head_or l NULL) s = Ret tt s
   ∧ sorted cmp (content px :: contents l))
  ∨ validate_chain_loop fuel cmp pa (head_or l NULL) s = Fault AssertFailed.
Proof.
  induction l as [|[a x] l IH]; intros fuel pa px s Hpa Hheap Hseg Hfuel.
  - left. split; [by destruct fuel|]. repeat constructor.
  - destruct Hseg as (Ha & Hnext & Hseg). cbn [fst snd] in Ha, Hnext.
    destruct fuel as [|f]; [simpl in Hfuel; lia|].
    cbn [validate_chain_loop head_or fst].
    replace (is_null a) with false
      by (symmetry; unfold is_null, NULL in *; by apply N.eqb_neq).
    assert (payload_heap s !! a = Some x) as Hx by (apply (Hheap (a, x)); left).
    rewrite (bind_Ret _ _ s px s) by (by apply load_payload_Some).
    rewrite (bind_Ret _ _ s x s) by (by apply load_payload_Some).
    destruct (Z.ltb_spec (cmp (key px) (key x)) 0) as [Hlt|Hge]; [|by right].
    rewrite Hnext.
    destruct (IH f a x s Hx) as [[Hret Hsort]|Hfail];
      [intros ax Hin; apply Hheap; by right|done|simpl in Hfuel; lia| |by right].
    left. split; [done|].
    change (contents ((a, x) :: l)) with (content x :: contents l).
    constructor; [done|].
    apply StronglySorted_inv in Hsort as [_ Hall].
    constructor; [done|].
    eapply Forall_impl; [exact Hall|]. intros e He. unfold key_lt in *.
    apply (cmp_lt_le_trans cmp Hcmp _ (e_key (content x))); [done|lia].
Qed.

(** The containers of a node are allocated and hold null-terminated chains
    of at least one and at most [m] payloads. *)
Definition node_chains (s : mem) (n : node) (m : nat) : Prop :=
  ∀ cp, cp ∈ containers n →
    ∃ c l, container_heap s !! cp = Some c
           ∧ chain_cells s (payload_first c) l
           ∧ l ≠ [] ∧ (length l ≤ m)%nat.

Lemma validate_containers_loop_sound cmp (Hcmp : total_order cmp) (s : mem)
    (node_p : ptr) (n : node) (fuel : nat) :
  node_heap s !! node_p = Some n →
  container_size n < 2147483648 →
  node_chains s n (S fuel) →
  ∀ steps i,
    0 <= i <= container_size n →
    container_size n - i <= Z.of_nat steps →
    (validate_containers_loop steps fuel node_p cmp i s = Ret tt s
     ∧ ∀ j cp, i <= Z.of_nat j → containers n !! j = Some cp →
         (∃ c, container_heap s !! cp = Some c ∧ P1 cmp s c)
         ∧ ∀ j' cq k1 k2, j = S j' → containers n !! j' = Some cq →
             sep_of s cq k1 → sep_of s cp k2 → cmp k1 k2 < 0)
    ∨ validate_containers_loop steps fuel node_p cmp i s = Fault AssertFailed.
Proof.
  intros Hn Hsize Hchains.
  assert (∀ steps, validate_containers_loop steps fuel node_p cmp (container_size n) s
                   = Ret tt s) as Hexit.
  { intros steps. destruct steps; cbn [validate_containers_loop];
      rewrite (bind_Ret _ _ s n s) by (by apply load_node_Some);
      unfold to_uint; rewrite wrap32_small by (unfold container_size in *; lia);
      by replace (container_size n <? container_size n) with false by lia. }
  induction steps as [|steps IH]; intros i Hi Hsteps.
  - assert (i = container_size n) as -> by lia. left. split; [apply Hexit|].
    intros j cp Hj Hcp. apply lookup_lt_Some in Hcp. unfold container_size in Hj. lia.
  - destruct (decide (i = container_size n)) as [->|Hne].
    { left. split; [apply Hexit|].
      intros j cp Hj Hcp. apply lookup_lt_Some in Hcp. unfold container_size in Hj. lia. }
    cbn [validate_containers_loop].
    rewrite (bind_Ret _ _ s n s) by (by apply load_node_Some).
    unfold to_uint. rewrite wrap32_small by lia.
    replace (i <? container_size n) with true by lia.
    destruct (lookup_lt_is_Some_2 (containers n) (Z.to_nat i)) as [ci Hci];
      [unfold container_size in *; lia|].
    rewrite (array_get_Some _ _ ci) by (done || lia).
    rewrite (bind_Ret _ _ s ci s) by done.
    destruct (Hchains ci) as (c & l & Hc & Hchain & Hl & Hlen);
      [by eapply list_elem_of_lookup_2|].
    rewrite (bind_Ret _ _ s c s) by (by apply load_container_Some).
    destruct l as [|[p0 x0] l]; [done|]. rewrite length_cons in Hlen.
    destruct Hchain as (Hp0 & Hp0n & Hx0 & Hrest). cbn [fst snd] in *.
    rewrite (bind_Ret _ _ s x0 s) by (by apply load_payload_Some).
    destruct (chain_cells_list s l _ Hrest) as (Hnext & Hseg & Hheap).
    rewrite Hnext.
    destruct (validate_chain_loop_sound cmp Hcmp l fuel (payload_first c) x0 s Hx0 Hheap Hseg
                ltac:(lia)) as [[Hret Hsort]|Hfail].
    2: { right. unfold bind at 1. by rewrite Hfail. }
    rewrite (bind_Ret _ _ s tt s Hret).
    assert (P1 cmp s c) as HP1.
    { exists ((p0, x0) :: l). split; [|done]. cbn [chain_cells fst snd]. done. }
    assert ((i = 0 ∨
             ∃ cj c' f', 0 < i ∧ containers n !! Z.to_nat (i - 1) = Some cj
               ∧ container_heap s !! cj = Some c'
               ∧ payload_heap s !! payload_first c' = Some f')) as [->|Hprev].
    { destruct (decide (i = 0)) as [?|Hi0]; [by left|right].
      destruct (lookup_lt_is_Some_2 (containers n) (Z.to_nat (i - 1))) as [cj Hcj];
        [unfold container_size in *; lia|].
      destruct (Hchains cj) as (c' & l' & Hc' & Hchain' & Hl' & _);
        [by eapply list_elem_of_lookup_2|].
      destruct l' as [|[p1 x1] l']; [done|].
      destruct Hchain' as (Hp1 & _ & Hx1 & _). cbn [fst snd] in *.
      exists cj, c', x1. split_and!; [lia|done|done|done]. }
    + change (0 =? 0) with true. cbv iota.
      rewrite (bind_Ret _ _ s tt s) by done.
      change (int_succ 0) with 1.
      destruct (IH 1 ltac:(lia) ltac:(lia)) as [[Hloop Hall]|Hfail]; [|by right].
      left. split; [done|]. intros j cp Hj Hcp.
      destruct j as [|j].
      * change (Z.to_nat 0) with 0%nat in Hci. rewrite Hci in Hcp. injection Hcp as <-.
        split; [by exists c|]. intros j' ? ? ? [=].
      * apply Hall; [lia|done].
    + destruct Hprev as (cj & c' & f' & Hipos & Hcj & Hc' & Hf').
      replace (i =? 0) with false by lia.
      rewrite (array_get_Some _ _ cj) by (done || lia).
      match goal with
      | |- context [bind ?m (λ _, validate_containers_loop steps fuel node_p cmp (int_succ i))] =>
        assert ((m s = Ret tt s ∧ cmp (key f') (key x0) < 0) ∨ m s = Fault AssertFailed)
          as [[Hchk Hlt]|Hchk]
      end.
      { rewrite (bind_Ret _ _ s cj s) by done.
        rewrite (bind_Ret _ _ s c' s) by (by apply load_container_Some).
        rewrite (bind_Ret _ _ s f' s) by (by apply load_payload_Some).
        rewrite (bind_Ret _ _ s x0 s) by (by apply load_payload_Some).
        destruct (Z.ltb_spec (cmp (key f') (key x0)) 0); [by left|by right]. }
      2: { right. unfold bind at 1. by rewrite Hchk. }
      rewrite (bind_Ret _ _ s tt s Hchk).
      unfold int_succ. rewrite to_int_small by lia.
      destruct (IH (i + 1) ltac:(lia) ltac:(lia)) as [[Hloop Hall]|Hfail]; [|by right].
      left. split; [done|]. intros j cp Hj Hcp.
      destruct (decide (Z.of_nat j = i)) as [Hji|Hji].
      * replace (Z.to_nat i) with j in Hci by lia. rewrite Hci in Hcp. injection Hcp as <-.
        split; [by exists c|]. intros j' cq k1 k2 -> Hcq Hs1 Hs2.
        replace (Z.to_nat (i - 1)) with j' in Hcj by lia.
        rewrite Hcj in Hcq. injection Hcq as <-.
        destruct Hs1 as (cc1 & y1 & Hcc1 & Hy1 & <-), Hs2 as (cc2 & y2 & Hcc2 & Hy2 & <-).
        rewrite Hc' in Hcc1. injection Hcc1 as <-.
        rewrite Hc in Hcc2. injection Hcc2 as <-.
        rewrite Hf' in Hy1. injection Hy1 as <-.
        rewrite Hx0 in Hy2. injection Hy2 as <-. done.
      * apply Hall; [lia|done].
Qed.

(** X14 ([validate_containers] is a sound check): on a node whose
    containers hold null-terminated, non-empty chains, [validate_containers]
    either returns, leaving the store as it is, and then the node satisfies
    N1 and every one of its containers P1, or it stops at a failed
    assertion; it never faults otherwise. *)
Theorem validate_containers_sound (cmp : key_compare_func) (s : mem)
    (node_p : ptr) (n : node) (fuel : nat) :
  total_order cmp →
  node_heap s !! node_p = Some n →
  container_size n < 2147483648 →
  node_chains s n (S fuel) →
  (validate_containers fuel node_p cmp s = Ret tt s
   ∧ N1 cmp s n
   ∧ ∀ cp, cp ∈ containers n → ∃ c, container_heap s !! cp = Some c ∧ P1 cmp s c)
  ∨ validate_containers fuel node_p cmp s = Fault AssertFailed.
Proof.
  intros Hcmp Hn Hsize Hchains. unfold validate_containers.
  rewrite (bind_Ret _ _ s n s) by (by apply load_node_Some).
  destruct (validate_containers_loop_sound cmp Hcmp s node_p n fuel Hn Hsize Hchains
              (length (containers n)) 0) as [[Hret Hall]|Hfail];
    [unfold container_size; lia|unfold container_size; lia| |by right].
  left. split; [done|]. split.
  - intros i c1 c2 k1 k2 H1 H2 Hs1 Hs2.
    destruct (Hall (S i) c2 ltac:(lia) H2) as [_ Hadj]. by eapply Hadj.
  - intros cp Hcp. apply list_elem_of_lookup_1 in Hcp as [j Hj].
    by destruct (Hall j cp ltac:(lia) Hj) as [? _].
Qed.

(** ** [order_container_payload] on containers already in order *)

Lemma get_payload_spec_below cmp k l : ∀ prev,
  Forall (λ ax, 0 < cmp k (key ax.2)) l →
  get_payload_spec cmp k prev l
  = (match reverse l with [] => prev | ax :: _ => ax.1 end, false).
Proof.
  induction l as [|ax l IH]; intros prev Hall; [done|].
  apply Forall_cons in Hall as [Hax Hall]. cbn [get_payload_spec].
  replace (cmp k (key ax.2) <=? 0) with false by lia.
  rewrite (IH _ Hall), reverse_cons.
  destruct (reverse l) as [|ay r] eqn:Hr; [done|done].
Qed.

Lemma chain_cells_last (s : mem) l : ∀ p ax r,
  chain_cells s p l → reverse l = ax :: r →
  ax.1 ≠ NULL ∧ payload_heap s !! ax.1 = Some ax.2 ∧ next ax.2 = NULL.
Proof.
  induction l as [|ay l IH]; intros p ax r Hc Hrev; [done|].
  destruct Hc as (-> & Hne & Hay & Hc).
  destruct l as [|az l].
  - cbn in Hrev. injection Hrev as <- <-. cbn [chain_cells] in Hc. done.
  - rewrite reverse_cons in Hrev.
    destruct (reverse (az :: l)) as [|b r'] eqn:Hr.
    { apply (f_equal length) in Hr. rewrite length_reverse in Hr. done. }
    cbn [app] in Hrev. injection Hrev as <- <-. by eapply IH.
Qed.

Lemma order_container_payload_unfold f node_p migrated_idx import_idx :
  order_container_payload (S f) node_p migrated_idx import_idx =
    let* n := load_node node_p in
    let* left := array_get (containers n) migrated_idx in
    let* right := array_get (containers n) import_idx in
    let* t := load_tree in
    let compare := key_compare (opts t) in
    let* lc := load_container left in
    let* rc := load_container right in
    let* rfirst := load_payload (payload_first rc) in
    let* found := get_payload f compare (payload_first lc) (key rfirst) in
    let is_equal := snd found in
    let* separator :=
      (if is_equal then
         let* lc := load_container left in
         let* prev := find_prev_loop f (payload_first lc) (fst found) in
         let* rc := load_container right in
         do payload_replace (payload_first rc) (fst found) in
         let* lc := load_container left in
         do write_payload_size left (wrap32 (payload_size lc - 1)) in
         ret prev
       else ret (fst found)) in
    if negb (is_null separator) then
      let* sp := load_payload separator in
      let curr := next sp in
      do write_next separator NULL in
      let* t := load_tree in
      do store_tree (set_is_migrated t 1) in
      do order_container_payload_loop f node_p left import_idx curr in
      let* t := load_tree in
      store_tree (set_is_migrated t 0)
    else ret tt.
Proof. reflexivity. Qed.

(** X15 ([order_container_payload] on separated containers): when every key
    of the left container's chain is below the first key of the right
    container, and no migration is under way, [order_container_payload]
    moves nothing: it returns with the store exactly as it was. *)
Theorem order_container_payload_separated (s : mem) (t : bftree) (node_p left right : ptr)
    (n : node) (lc rc : container) (rfirst : payload) (l : list (ptr * payload))
    (migrated_idx import_idx : Z) (fuel : nat) :
  tree_obj s = Some t →
  is_migrated t = 0 →
  node_heap s !! node_p = Some n →
  0 <= migrated_idx → 0 <= import_idx →
  containers n !! Z.to_nat migrated_idx = Some left →
  containers n !! Z.to_nat import_idx = Some right →
  container_heap s !! left = Some lc →
  container_heap s !! right = Some rc →
  payload_heap s !! payload_first rc = Some rfirst →
  chain_cells s (payload_first lc) l →
  (∀ ax, ax ∈ l → 0 < key_compare (opts t) (key rfirst) (key ax.2)) →
  (length l + 2 ≤ fuel)%nat →
  order_container_payload fuel node_p migrated_idx import_idx s = Ret tt s.
Proof.
  intros Ht Hmig Hn Hmi Hii Hleft Hright Hlc Hrc Hrf Hchain Hbelow Hfuel.
  destruct fuel as [|[|f]]; [lia|lia|]. rewrite order_container_payload_unfold.
  rewrite (bind_Ret _ _ s n s) by (by apply load_node_Some).
  rewrite (array_get_Some _ _ left) by done.
  rewrite (bind_Ret _ _ s left s) by done.
  rewrite (array_get_Some _ _ right) by done.
  rewrite (bind_Ret _ _ s right s) by done.
  rewrite (bind_Ret _ _ s t s) by (by apply load_tree_Some).
  rewrite (bind_Ret _ _ s lc s) by (by apply load_container_Some).
  rewrite (bind_Ret _ _ s rc s) by (by apply load_container_Some).
  rewrite (bind_Ret _ _ s rfirst s) by (by apply load_payload_Some).
  destruct (chain_cells_list s l _ Hchain) as (Hfirst & Hseg & Hheap).
  unfold get_payload.
  rewrite Hfirst, (bind_Ret _ _ s _ s
    (get_payload_loop_ok (key_compare (opts t)) (key rfirst) l (S f) NULL s Hheap Hseg
       ltac:(lia))).
  rewrite get_payload_spec_below by (by apply Forall_forall).
  cbn [fst snd]. rewrite (bind_Ret _ _ s _ s eq_refl).
  destruct (reverse l) as [|ax r] eqn:Hrev; [done|].
  destruct (chain_cells_last s l _ ax r Hchain Hrev) as (Hne & Hax & Hnext).
  replace (negb (is_null ax.1)) with true
    by (unfold is_null, NULL in *; destruct ax.1; done).
  rewrite (bind_Ret _ _ s ax.2 s) by (by apply load_payload_Some).
  rewrite Hnext.
  destruct s as [t0 ph ch nh b kd vd hc]. cbn [tree_obj payload_heap] in *. subst t0.
  cbn [order_container_payload_loop]. change (is_null NULL) with true. cbv iota.
  munfold; mproj; mlookup. do 4 (mproj; mlookup).
  rewrite insert_id by (rewrite Hax; destruct ax.2; cbn in *; by subst).
  destruct t. cbn in Hmig. by subst.
Qed.

(** ** A node needs room for one container *)

Lemma create_write_zero (o : bftree_opts) (k : option K) (v : option V)
    (ty : payload_type) (fuel : nat) :
  BFTREE_DEFAULT_CONTAINER = 0 →
  (0 < fuel)%nat →
  (do bftree_create o in bftree_write fuel k v ty) empty_mem = Fault OutOfBounds.
Proof.
  intros HD Hfuel. destruct fuel as [|f]; [lia|].
  unfold bftree_create, bftree_write, empty_mem. mrun.
  erewrite find_container_leaf0 by (mproj; apply lookup_insert_eq).
  rewrite container_insert_unfold. mrun.
  rewrite HD. mrun. done.
Qed.

(** X16 (an initial capacity of zero): were [BFTREE_DEFAULT_CONTAINER] zero,
    the first [put] or [del] on a fresh tree would store its container
    outside the node's array, which [realloc] leaves with no slot
    ([0 * 2 = 0]); the capacity has to be positive. *)
Theorem zero_capacity_overflows (o : bftree_opts) (k : option K) (v : option V)
    (fuel : nat) :
  BFTREE_DEFAULT_CONTAINER = 0 →
  (0 < fuel)%nat →
  run fuel o [OpPut k v] = Fault OutOfBounds
  ∧ run fuel o [OpDel k] = Fault OutOfBounds.
Proof.
  intros HD Hfuel.
  pose proof (create_write_zero o k v Put fuel HD Hfuel) as Hput.
  pose proof (create_write_zero o k None Del fuel HD Hfuel) as Hdel.
  unfold run. cbn [exec_ops exec_op]. rewrite bftree_put_write, bftree_del_write.
  unfold bind in *. revert Hput Hdel.
  destruct (bftree_create o empty_mem) as [[] s0| |];
    [intros -> ->|intros [= ->] _; by split|intros [=]]. done.
Qed.
End BufferedTree.

(** * The harness of [main]: string keys under [strcmp] *)

Definition byte_of (c : Ascii.ascii) : Z := Z.of_N (Ascii.N_of_ascii c).

(** The byte a C string pointer points at; the terminator past the end. *)
Definition head_byte (s : string) : Z :=
  match s with
  | String.EmptyString => 0
  | String.String c _ => byte_of c
  end.

Definition tail (s : string) : string :=
  match s with
  | String.EmptyString => String.EmptyString
  | String.String _ r => r
  end.

(** [strcmp]: the difference of the first two bytes that differ, 0 when
    both strings end first. *)
Fixpoint strcmp (s1 s2 : string) : Z :=
  let c1 := head_byte s1 in
  let c2 := head_byte s2 in
  if c1 =? c2 then
    if c1 =? 0 then 0
    else match s1 with
         | String.EmptyString => 0
         | String.String _ r1 => strcmp r1 (tail s2)
         end
  else c1 - c2.

(** [compare] of [main].  [strcmp] on a null pointer is undefined and the
    harness never passes one; here null sorts first, which keeps the
    comparator total. *)
Definition compare (key1 key2 : option string) : Z :=
  match key1, key2 with
  | Some a, Some b => strcmp a b
  | None, None => 0
  | None, Some _ => -1
  | Some _, None => 1
  end.

(** [opts] as [main] fills it (no destructors), and with both destructors
    installed. *)
Definition main_opts : @bftree_opts string := mk_opts false false compare.
Definition counting_opts : @bftree_opts string := mk_opts true true compare.

(** The zero-padded keys and values of the bulk scenarios. *)
Definition digit (n : N) : Ascii.ascii := Ascii.ascii_of_N (48 + n).

Definition pad4 (n : N) : string :=
  String.String (digit (n / 1000 mod 10))
    (String.String (digit (n / 100 mod 10))
       (String.String (digit (n / 10 mod 10))
          (String.String (digit (n mod 10)) String.EmptyString))).

Definition key_of (n : N) : string := "key" +:+ pad4 n.
Definition val_of (n : N) : string := "val" +:+ pad4 n.

Definition indices (count : N) : list N := map N.of_nat (seq 0 (N.to_nat count)).

Definition scenario_puts (count : N) : list (@op string string) :=
  map (λ n, OpPut (Some (key_of n)) (Some (val_of n))) (indices count).

Definition scenario_dels (count : N) : list (@op string string) :=
  map (λ n, OpDel (Some (key_of n))) (indices count).

(** The number of live payloads of a kind in the store. *)
Definition live_payloads {K V : Type} (ty : payload_type) (s : @mem K V) : nat :=
  length (List.filter (λ ax, payload_type_eqb (type ax.2) ty)
                      (map_to_list (payload_heap s))).

Definition is_put {K V : Type} (o : @op K V) : bool :=
  match o with
  | OpPut _ _ => true
  | _ => false
  end.

Fixpoint increasingb (l : list string) : bool :=
  match l with
  | a :: (b :: _) as l' => (strcmp a b <? 0) && increasingb l'
  | _ => true
  end.

Example key_of_first : key_of 0 = "key0000".
Proof. reflexivity. Qed.

Example key_of_last : key_of 9999 = "key9999".
Proof. reflexivity. Qed.

Example val_of_sample : val_of 42 = "val0042".
Proof. reflexivity. Qed.

Lemma head_byte_nonneg s : 0 <= head_byte s.
Proof. destruct s; simpl; unfold byte_of; lia. Qed.

Lemma strcmp_sgn a : ∀ b, Z.sgn (strcmp a b) = - Z.sgn (strcmp b a).
Proof.
  induction a as [|c a IH]; intros b; destruct b as [|d b]; cbn [strcmp head_byte tail].
  - done.
  - destruct (Z.eqb_spec 0 (byte_of d)) as [<-|?]; [done|].
    destruct (Z.eqb_spec (byte_of d) 0); lia.
  - destruct (Z.eqb_spec (byte_of c) 0) as [->|?]; [done|].
    destruct (Z.eqb_spec 0 (byte_of c)); lia.
  - destruct (Z.eqb_spec (byte_of c) (byte_of d)) as [Heq|?].
    + rewrite Heq, Z.eqb_refl. destruct (byte_of d =? 0); [done|apply IH].
    + destruct (Z.eqb_spec (byte_of d) (byte_of c)); lia.
Qed.

Lemma byte_of_nonneg c : 0 <= byte_of c.
Proof. unfold byte_of. lia. Qed.

Lemma strcmp_trans a : ∀ b c, strcmp a b <= 0 → strcmp b c <= 0 → strcmp a c <= 0.
Proof.
  induction a as [|x a IH]; intros b c; destruct b as [|y b], c as [|z c];
    cbn [strcmp head_byte tail];
    repeat match goal with
      | |- context [byte_of ?u] =>
        lazymatch goal with
        | H : 0 <= byte_of u |- _ => fail
        | _ => pose proof (byte_of_nonneg u)
        end
      end;
    repeat match goal with
      | |- context [?u =? ?w] => destruct (Z.eqb_spec u w)
      end; try lia.
  apply IH.
Qed.

Lemma compare_total_order : total_order compare.
Proof.
  split.
  - intros [a|] [b|]; cbn [compare]; try done. apply strcmp_sgn.
  - intros [a|] [b|] [c|]; cbn [compare]; try lia. apply strcmp_trans.
Qed.

(** ** The keys of the bulk scenarios are strictly increasing *)

Lemma strcmp_lt_trans a b c : strcmp a b < 0 → strcmp b c < 0 → strcmp a c < 0.
Proof.
  intros Hab Hbc.
  apply (cmp_lt_le_trans compare compare_total_order (Some a) (Some b) (Some c));
    cbn [compare]; lia.
Qed.

Lemma increasingb_sorted l :
  increasingb l = true → StronglySorted (λ a b, strcmp a b < 0) l.
Proof.
  induction l as [|a l IH]; intros H; [constructor|].
  destruct l as [|b l]; [repeat constructor|].
  cbn [increasingb] in H. apply andb_prop in H as [Hab Hl].
  apply Z.ltb_lt in Hab. specialize (IH Hl).
  constructor; [done|]. constructor; [done|].
  apply StronglySorted_inv in IH as [_ Hall].
  eapply Forall_impl; [exact Hall|].
  intros c Hc. cbn beta. by eapply strcmp_lt_trans.
Qed.

Lemma keys_increasing :
  StronglySorted (λ a b, strcmp a b < 0) (map key_of (indices 10000)).
Proof. apply increasingb_sorted. vm_compute. reflexivity. Qed.

Lemma indices_split (count : N) (i : nat) :
  (i < N.to_nat count)%nat →
  indices count
  = indices (N.of_nat i) ++ N.of_nat i
      :: map N.of_nat (seq (S i) (N.to_nat count - S i)).
Proof.
  intros Hi. unfold indices. rewrite Nat2N.id.
  replace (N.to_nat count) with (i + S (N.to_nat count - S i))%nat at 1 by lia.
  by rewrite seq_app, map_app.
Qed.

Lemma later_keys_differ (count : N) (i : nat) :
  StronglySorted (λ a b, strcmp a b < 0) (map key_of (indices count)) →
  (i < N.to_nat count)%nat →
  Forall (λ m, strcmp (key_of m) (key_of (N.of_nat i)) ≠ 0)
         (map N.of_nat (seq (S i) (N.to_nat count - S i))).
Proof.
  intros Hs Hi. rewrite (indices_split count i Hi), map_app in Hs.
  apply StronglySorted_app_1_r in Hs. cbn [map] in Hs.
  apply StronglySorted_inv in Hs as [_ Hall].
  rewrite Forall_map in Hall.
  eapply Forall_impl; [exact Hall|].
  intros m Hm. cbn beta in Hm.
  pose proof (strcmp_sgn (key_of (N.of_nat i)) (key_of m)). lia.
Qed.

Lemma scenario_puts_length count : length (scenario_puts count) = N.to_nat count.
Proof. unfold scenario_puts, indices. by rewrite !length_map, length_seq. Qed.

Lemma scenario_dels_length count : length (scenario_dels count) = N.to_nat count.
Proof. unfold scenario_dels, indices. by rewrite !length_map, length_seq. Qed.

(** A fresh tree after any run has height 1. *)
Lemma run_height {K V : Type} (D CT PT : Z) (o : @bftree_opts K) (ops : list (@op K V)) fuel :
  0 < D → total_order (key_compare o) → (length ops < fuel)%nat →
  ∃ s t l, run D CT PT fuel o ops = Ret tt s
    ∧ tree_obj s = Some t ∧ height t = 1
    ∧ shape D o s l
    ∧ contents l = apply_ops (key_compare o) ops []
    ∧ (length l ≤ length ops)%nat.
Proof.
  intros HD Hcmp Hfuel.
  destruct (run_shape D CT PT o ops fuel HD Hcmp Hfuel) as (s & l & Hrun & Hs & Hc & Hl & _).
  assert (∃ t, tree_obj s = Some t ∧ height t = 1) as (t & Ht & Hh)
    by (destruct Hs; eexists; done).
  by exists s, t, l.
Qed.

(** * Scenario S3: ten thousand zero-padded keys *)

(** C5 fails on the code in its second half.  From an empty tree with
    [strcmp] as comparator, after [put] of the 10,000 keys key0000 ..
    key9999 with values valNNNN, every [get] of keyNNNN does return valNNNN,
    but the height of the tree is still 1, whatever the thresholds of the
    missing header: [container_insert] calls an overflow handler only while
    [is_migrated] is set, and the one place that sets it,
    [order_container_payload], is itself reached only through such a
    handler, so the tree never grows. *)
Theorem C5_growth_scenario (D CT PT : Z) (fuel : nat) (n : N) :
  0 < D →
  (10000 < N.of_nat fuel)%N →
  (n < 10000)%N →
  ∃ s t, run D CT PT fuel main_opts (scenario_puts 10000) = Ret tt s
    ∧ tree_obj s = Some t
    ∧ height t = 1
    ∧ bftree_get fuel (Some (key_of n)) s = Ret (Some (val_of n)) s.
Proof.
  intros HD Hfuel Hn.
  pose proof (scenario_puts_length 10000) as Hlen.
  destruct (run_height D CT PT main_opts (scenario_puts 10000) fuel HD compare_total_order)
    as (s & t & l & Hrun & Ht & Hh & Hs & Hc & Hl); [lia|].
  exists s, t. split; [exact Hrun|]. split; [exact Ht|]. split; [exact Hh|].
  clear Hrun.
  rewrite (get_shape D main_opts s l fuel _ Hs); [|lia]. f_equal.
  assert (N.to_nat n < N.to_nat 10000)%nat as Hi by lia.
  rewrite Hc. change (key_compare main_opts) with compare. unfold scenario_puts.
  rewrite (indices_split 10000 (N.to_nat n) Hi), N2Nat.id, map_app. cbn [map].
  rewrite apply_ops_app, apply_ops_cons. cbn [apply_op]. unfold model_get.
  rewrite (model_find_unwritten compare compare_total_order (Some (key_of n))).
  - destruct (model_find_insert_same compare compare_total_order
                (Some (key_of n), Some (val_of n), Put)
                (apply_ops compare
                   (map (λ m, OpPut (Some (key_of m)) (Some (val_of m)))
                        (indices n)) [])
                (Some (key_of n))
                (cmp_refl compare compare_total_order _))
      as (y & -> & Hv & ->).
    exact Hv.
  - apply (cmp_refl compare compare_total_order).
  - unfold no_write_to. rewrite Forall_map.
    pose proof (later_keys_differ 10000 (N.to_nat n) keys_increasing Hi) as Hd.
    rewrite N2Nat.id in Hd.
    eapply Forall_impl; [exact Hd|]. intros m Hm. exact Hm.
Qed.

Lemma C5_growth_scenario_witness :
  ∃ s t, run 16 8 8 (N.to_nat 10001) main_opts (scenario_puts 10000) = Ret tt s
    ∧ tree_obj s = Some t
    ∧ height t = 1
    ∧ bftree_get (N.to_nat 10001) (Some (key_of 1234)) s = Ret (Some (val_of 1234)) s.
Proof.
  apply (C5_growth_scenario 16 8 8 (N.to_nat 10001) 1234); lia.
Defined.

(** Whatever the thresholds, the height after the 10,000 insertions is not
    2 or more. *)
Lemma C5_height_counterexample :
  ¬ (∃ (D CT PT : Z) (fuel : nat) s t,
       0 < D ∧ (10000 < N.of_nat fuel)%N
       ∧ run D CT PT fuel main_opts (scenario_puts 10000) = Ret tt s
       ∧ tree_obj s = Some t
       ∧ 2 <= height t).
Proof.
  intros (D & CT & PT & fuel & s & t & HD & Hfuel & Hrun & Ht & Hh).
  pose proof (scenario_puts_length 10000) as Hlen.
  destruct (run_height D CT PT main_opts (scenario_puts 10000) fuel HD compare_total_order)
    as (s' & t' & l & Hrun' & Ht' & Hh' & _); [lia|].
  rewrite Hrun in Hrun'. injection Hrun' as <-.
  rewrite Ht in Ht'. injection Ht' as <-. lia.
Qed.

(** * The theorems at concrete inputs *)

Lemma C1_read_your_writes_witness :
  ∃ s, run 16 8 8 8 main_opts
         ([OpPut (Some "pear") (Some "1")]
            ++ OpPut (Some "fig") (Some "2")
            :: [OpGet (Some "fig"); OpDel (Some "kiwi"); OpPut (Some "pear") (Some "3")])
       = Ret tt s
       ∧ bftree_get 8 (Some "fig") s = Ret (Some "2") s.
Proof.
  apply (C1_read_your_writes 16 8 8 main_opts).
  - lia.
  - exact compare_total_order.
  - reflexivity.
  - repeat constructor; vm_compute; discriminate.
  - simpl. lia.
Defined.

Lemma C2_last_writer_wins_witness :
  ∃ s, run 16 8 8 8 main_opts
         ([OpPut (Some "fig") (Some "1"); OpDel (Some "fig"); OpPut (Some "kiwi") (Some "2")]
            ++ [OpPut (Some "fig") (Some "3")])
       = Ret tt s
       ∧ bftree_get 8 (Some "fig") s = Ret (Some "3") s.
Proof.
  apply (C2_last_writer_wins 16 8 8 main_opts).
  - lia.
  - exact compare_total_order.
  - reflexivity.
  - simpl. lia.
Defined.

Lemma C3_delete_masking_witness :
  ∃ s, run 16 8 8 8 main_opts
         ([OpPut (Some "fig") (Some "1")]
            ++ OpDel (Some "fig")
            :: [OpPut (Some "kiwi") (Some "2"); OpDel (Some "fig"); OpGet (Some "fig")])
       = Ret tt s
       ∧ bftree_get 8 (Some "fig") s = Ret None s.
Proof.
  apply (C3_delete_masking 16 8 8 main_opts).
  - lia.
  - exact compare_total_order.
  - reflexivity.
  - repeat constructor; vm_compute; discriminate.
  - simpl. lia.
Defined.

Lemma C6_structural_invariants_witness :
  ∃ s t, run 16 8 8 8 main_opts
           [OpPut (Some "pear") (Some "1"); OpPut (Some "fig") (Some "2");
            OpDel (Some "kiwi"); OpPut (Some "fig") (Some "3")]
         = Ret tt s
    ∧ tree_obj s = Some t
    ∧ (∀ node_p, reachable s node_p →
         ∃ n, node_heap s !! node_p = Some n
              ∧ N1 compare s n
              ∧ ∀ cp, cp ∈ containers n →
                  ∃ c, container_heap s !! cp = Some c
                       ∧ P1 compare s c ∧ P2 s c)
    ∧ validate_containers 8 (root t) compare s = Ret tt s.
Proof.
  apply (C6_structural_invariants 16 8 8 main_opts).
  - lia.
  - exact compare_total_order.
  - simpl. lia.
Defined.

Lemma C10_degenerate_shape_witness :
  ∃ s t n, run 16 2 2 8 main_opts
             [OpPut (Some "pear") (Some "1"); OpPut (Some "fig") (Some "2");
              OpPut (Some "kiwi") (Some "3"); OpPut (Some "plum") (Some "4");
              OpDel (Some "fig"); OpGet (Some "kiwi")]
           = Ret tt s
    ∧ tree_obj s = Some t
    ∧ height t = 1
    ∧ is_migrated t = 0
    ∧ node_heap s !! root t = Some n
    ∧ (length (containers n) ≤ 1)%nat
    ∧ handler_calls s = [].
Proof.
  destruct (C10_degenerate_shape 16 2 2 main_opts
              [OpPut (Some "pear") (Some "1"); OpPut (Some "fig") (Some "2");
               OpPut (Some "kiwi") (Some "3"); OpPut (Some "plum") (Some "4");
               OpDel (Some "fig"); OpGet (Some "kiwi")] 8)
    as (s & t & n & Hrun & Ht & Hh & Hm & Hn & Hlen & Hcalls & _).
  - lia.
  - exact compare_total_order.
  - simpl. lia.
  - exists s, t, n. tauto.
Defined.

(** * Scenario S6: destructor accounting *)

(** The numbers of destructor calls over the lifetime of a tree, from
    [bftree_create] through [ops] to [bftree_free]. *)
Definition destructor_calls {K V : Type} (D CT PT : Z) (fuel : nat)
    (o : @bftree_opts K) (ops : list (@op K V)) : option (N * N) :=
  match run D CT PT fuel o ops with
  | Ret _ s =>
    match bftree_free fuel s with
    | Ret _ s' => Some (N.of_nat (length (key_destroyed s')),
                        N.of_nat (length (val_destroyed s')))
    | _ => None
    end
  | _ => None
  end.

Lemma scenario_S6_counts :
  N.of_nat (count_ops has_key (scenario_puts 10000 ++ scenario_dels 10000)) = 20000%N
  ∧ N.of_nat (count_ops has_val (scenario_puts 10000 ++ scenario_dels 10000)) = 10000%N.
Proof. split; vm_compute; reflexivity. Qed.

Lemma C7_destructor_accounting_witness :
  destructor_calls 16 8 8 (N.to_nat 20003) counting_opts
    (scenario_puts 10000 ++ scenario_dels 10000)
  = Some (20000%N, 10000%N).
Proof.
  destruct (C7_destructor_accounting 16 8 8 counting_opts
              (scenario_puts 10000 ++ scenario_dels 10000) (N.to_nat 20003))
    as (s & s' & Hrun & Hfree & Hk & Hv & _).
  - lia.
  - exact compare_total_order.
  - reflexivity.
  - reflexivity.
  - rewrite length_app, scenario_puts_length, scenario_dels_length. lia.
  - unfold destructor_calls. rewrite Hrun, Hfree, Hk, Hv.
    destruct scenario_S6_counts as [-> ->]. reflexivity.
Defined.

(** A [put] with a null value: one [put] call, no value-destructor call. *)
Lemma C7_null_value_counterexample :
  ∃ kc vc : N,
    destructor_calls 16 8 8 8 counting_opts [OpPut (Some "k") (@None string)]
    = Some (kc, vc)
    ∧ vc ≠ N.of_nat (count_ops is_put [OpPut (Some "k") (@None string)]).
Proof. exists 1%N, 0%N. split; [vm_compute; reflexivity|vm_compute; lia]. Qed.

(** * [find_container] on a node of two containers *)

(** A root with two containers whose separators are "b" and "d". *)
Definition two_containers_node : node := mk_node NULL [2%N; 3%N] 16.

Definition two_containers : @mem string string :=
  mk_mem (Some (mk_bftree 1%N 1 main_opts 0 0 0))
         {[ 10%N := mk_payload (Some "b") (Some "1") Put NULL;
            11%N := mk_payload (Some "d") (Some "2") Put NULL ]}
         {[ 2%N := mk_container 10%N 1 NULL;
            3%N := mk_container 11%N 1 NULL ]}
         {[ 1%N := two_containers_node ]}
         12%N [] [] [].

Lemma two_containers_seps :
  node_seps two_containers two_containers_node [Some "b"; Some "d"].
Proof.
  repeat constructor.
  - by exists (mk_container 10%N 1 NULL), (mk_payload (Some "b") (Some "1") Put NULL).
  - by exists (mk_container 11%N 1 NULL), (mk_payload (Some "d") (Some "2") Put NULL).
Qed.

Lemma two_containers_sep_of c k :
  sep_of two_containers c k →
  (c = 2%N ∧ k = Some "b") ∨ (c = 3%N ∧ k = Some "d").
Proof.
  intros (cc & x & Hc & Hx & <-).
  destruct (decide (c = 2%N)) as [->|?]; [left|right].
  - vm_compute in Hc. injection Hc as <-.
    vm_compute in Hx. by injection Hx as <-.
  - destruct (decide (c = 3%N)) as [->|?].
    + vm_compute in Hc. injection Hc as <-.
      vm_compute in Hx. by injection Hx as <-.
    + unfold two_containers in Hc. cbn [container_heap] in Hc.
      by rewrite lookup_insert_ne, lookup_singleton_ne in Hc.
Qed.

Lemma two_containers_N1 : N1 compare two_containers two_containers_node.
Proof.
  intros i c1 c2 k1 k2 H1 H2 Hs1 Hs2.
  destruct i as [|[|i]]; cbn in H1, H2; try discriminate.
  injection H1 as <-. injection H2 as <-.
  apply two_containers_sep_of in Hs1 as [[_ ->]|[? _]]; [|discriminate].
  apply two_containers_sep_of in Hs2 as [[? _]|[_ ->]]; [discriminate|].
  vm_compute. reflexivity.
Qed.

Lemma C8_find_container_contract_witness :
  ∃ res, find_container compare 1%N (Some "c") 0 two_containers = Ret res two_containers
    ∧ ((∃ i sep, 0 <= Z.of_nat i ∧ [Some "b"; Some "d"] !! i = Some sep
                 ∧ compare sep (Some "c") <= 0) →
         0 <= res
         ∧ (∃ sep, [Some "b"; Some "d"] !! Z.to_nat res = Some sep
                   ∧ compare sep (Some "c") <= 0)
         ∧ ∀ i sep, 0 <= Z.of_nat i → [Some "b"; Some "d"] !! i = Some sep →
                    compare sep (Some "c") <= 0 → Z.of_nat i <= res)
    ∧ (¬ (∃ i sep, 0 <= Z.of_nat i ∧ [Some "b"; Some "d"] !! i = Some sep
                   ∧ compare sep (Some "c") <= 0) →
         res = if 0 =? 0 then 0 else 0 - 1).
Proof.
  apply (C8_find_container_contract compare two_containers 1%N two_containers_node).
  - exact compare_total_order.
  - reflexivity.
  - exact two_containers_seps.
  - exact two_containers_N1.
  - vm_compute. reflexivity.
  - lia.
Defined.

(** With starting index 1 and the key "c", no container from index 1 on
    has a separator [<= "c"], and [find_container] returns 0, not 1. *)
Lemma C8_find_container_counterexample :
  N1 compare two_containers two_containers_node
  ∧ ¬ (∃ i sep, 1 <= Z.of_nat i ∧ [Some "b"; Some "d"] !! i = Some sep
                ∧ compare sep (Some "c") <= 0)
  ∧ find_container compare 1%N (Some "c") 1 two_containers = Ret 0 two_containers.
Proof.
  split; [exact two_containers_N1|]. split; [|vm_compute; reflexivity].
  intros (i & sep & Hi & Hsep & Hle).
  destruct i as [|[|i]]; [lia| |done].
  injection Hsep as <-. vm_compute in Hle. by apply Hle.
Qed.

(** * The payload counters *)

(** The counters of the tree and the numbers of live [Put] and [Del]
    payloads after a run:
    [(put_payload_count, del_payload_count, live Put, live Del)]. *)
Definition counters_after {K V : Type} (D CT PT : Z) (fuel : nat)
    (o : @bftree_opts K) (ops : list (@op K V)) : option (Z * Z * nat * nat) :=
  match run D CT PT fuel o ops with
  | Ret _ s =>
    t ← tree_obj s;
    Some (put_payload_count t, del_payload_count t,
          live_payloads Put s, live_payloads Del s)
  | _ => None
  end.

(** C4 fails on the code: [payload_create] does not count the payload it
    makes, while [payload_free] counts down.  After one [put] the counter of
    puts is 0 with one live [Put] payload; after a second [put] of the same
    key the counter has wrapped to 4294967295. *)
Theorem C4_counters_not_maintained :
  counters_after 16 8 8 8 main_opts [OpPut (Some "a") (Some "1")]
  = Some (0, 0, 1%nat, 0%nat)
  ∧ counters_after 16 8 8 8 main_opts
      [OpPut (Some "a") (Some "1"); OpPut (Some "a") (Some "2")]
    = Some (4294967295, 0, 1%nat, 0%nat).
Proof. split; vm_compute; reflexivity. Qed.

(** * [push_to_child] and the suppression of deletes *)

(** A root container with a child node, holding the chain a, b, c, d where
    b is a delete marker, in a tree whose counters are [del] and [put];
    [push_to_child] pushes the two payloads b and c. *)
Definition delete_pending (del put : Z) : @mem string string :=
  mk_mem (Some (mk_bftree 1%N 2 main_opts 1 del put))
         {[ 10%N := mk_payload (Some "a") (Some "1") Put 11%N;
            11%N := mk_payload (Some "b") None Del 12%N;
            12%N := mk_payload (Some "c") (Some "3") Put 13%N;
            13%N := mk_payload (Some "d") (Some "4") Put NULL ]}
         {[ 2%N := mk_container 10%N 4 4%N ]}
         {[ 1%N := mk_node NULL [2%N] 16;
            4%N := mk_node 1%N [] 16 ]}
         20%N [] [] [].

(** C9 fails on the code.  When the counter of deletes does not exceed the
    counter of puts, [skip_delete] has never been assigned when the first
    pushed delete marker makes [push_to_child] read it.  When it does
    exceed it, the marker is freed but [curr_payload] is not advanced, and
    the next round of the loop reads the freed payload. *)
Theorem C9_skip_delete_undefined :
  push_to_child 16 8 8 10 1%N 2%N (delete_pending 0 0) = Fault Uninitialized
  ∧ push_to_child 16 8 8 10 1%N 2%N (delete_pending 1 0) = Fault BadPointer.
Proof. split; vm_compute; reflexivity. Qed.

(** * The program [main] *)

(** [%d] of a non-negative [int] (at most ten digits). *)
Fixpoint decimal_digits (fuel : nat) (n : N) (acc : string) : string :=
  match fuel with
  | O => acc
  | S f =>
    let acc' := String.String (digit (n mod 10)) acc in
    if (n / 10 =? 0)%N then acc' else decimal_digits f (n / 10) acc'
  end.

Definition decimal (i : Z) : string :=
  if i <? 0 then "-" +:+ decimal_digits 10 (Z.to_N (- i)) String.EmptyString
  else decimal_digits 10 (Z.to_N i) String.EmptyString.

(** The first [n] bytes of a string. *)
Fixpoint string_take (n : nat) (s : string) : string :=
  match n, s with
  | S n', String.String c r => String.String c (string_take n' r)
  | _, _ => String.EmptyString
  end.

(** [snprintf(buf, 10, "%s%d", prefix, i)]: at most nine bytes are kept. *)
Definition snprintf10 (prefix : string) (i : Z) : string :=
  string_take 9 (prefix +:+ decimal i).

Example snprintf10_key0 : snprintf10 "key" 0 = "key0".
Proof. reflexivity. Qed.

Example snprintf10_key9999 : snprintf10 "key" 9999 = "key9999".
Proof. reflexivity. Qed.

Example snprintf10_long : snprintf10 "key" 1234567 = "key123456".
Proof. reflexivity. Qed.

Section Main.

Variables BFTREE_DEFAULT_CONTAINER BFTREE_CONTAINER_THRESHOLD BFTREE_PAYLOAD_THRESHOLD : Z.

Notation "'let*' x := m 'in' k" := (bind m (fun x => k))
  (at level 10, x name, m at level 100, k at level 200).
Notation "'do' m 'in' k" := (bind m (fun _ => k))
  (at level 10, m at level 100, k at level 200).

Notation put := (bftree_put BFTREE_DEFAULT_CONTAINER BFTREE_CONTAINER_THRESHOLD
                            BFTREE_PAYLOAD_THRESHOLD).
Notation del := (bftree_del BFTREE_DEFAULT_CONTAINER BFTREE_CONTAINER_THRESHOLD
                            BFTREE_PAYLOAD_THRESHOLD).

(** The first loop of [main]: [put] of key<i> and val<i>, then the check
    that [get] returns a string equal to the value.  When the check fails
    [main] prints the root and stops at [assert(0)]. *)
Fixpoint main_put_loop (steps fuel : nat) (i : Z) : @M string string unit :=
  if i <? 10000 then
    match steps with
    | O => out_of_fuel
    | S steps' =>
      let key := snprintf10 "key" i in
      let val := snprintf10 "val" i in
      let* st := put fuel (Some key) (Some val) in
      do (match st with BF_OK => ret tt end) in
      let* r := bftree_get fuel (Some key) in
      do (match r with
          | Some r' => if strcmp r' val =? 0 then ret tt else fail AssertFailed
          | None => fail AssertFailed
          end) in
      main_put_loop steps' fuel (int_succ i)
    end
  else ret tt.

(** The second loop: [del] of every key. *)
Fixpoint main_del_loop (steps fuel : nat) (i : Z) : @M string string unit :=
  if i <? 10000 then
    match steps with
    | O => out_of_fuel
    | S steps' =>
      let key := snprintf10 "key" i in
      let* st := del fuel (Some key) in
      do (match st with BF_OK => ret tt end) in
      main_del_loop steps' fuel (int_succ i)
    end
  else ret tt.

(** [main]: what it prints (the height, twice) and what it returns. *)
Definition main (fuel : nat) : outcome (@mem string string) (list Z * Z) :=
  (do bftree_create BFTREE_DEFAULT_CONTAINER main_opts in
   do main_put_loop (N.to_nat 10000) fuel 0 in
   let* t := load_tree in
   let printed1 := height t in
   do main_del_loop (N.to_nat 10000) fuel 0 in
   let* t := load_tree in
   let printed2 := height t in
   do bftree_free fuel in
   ret ([printed1; printed2], 0)) empty_mem.

Hypothesis HD : 0 < BFTREE_DEFAULT_CONTAINER.

Lemma main_put_loop_ok (fuel : nat) (steps : nat) : ∀ i s l,
  shape BFTREE_DEFAULT_CONTAINER main_opts s l →
  0 <= i <= 10000 →
  10000 - i <= Z.of_nat steps →
  Z.of_nat (length l) + (10000 - i) < Z.of_nat fuel →
  ∃ s' l', main_put_loop steps fuel i s = Ret tt s'
    ∧ shape BFTREE_DEFAULT_CONTAINER main_opts s' l'
    ∧ Z.of_nat (length l') <= Z.of_nat (length l) + (10000 - i)
    ∧ key_destroyed s' = key_destroyed s ∧ val_destroyed s' = val_destroyed s.
Proof.
  induction steps as [|steps IH]; intros i s l Hs Hi Hsteps Hfuel.
  - assert (i = 10000) as -> by lia. exists s, l. cbn [main_put_loop].
    replace (10000 <? 10000) with false by lia. split_and!; [done|done|lia|done|done].
  - cbn [main_put_loop]. destruct (Z.ltb_spec i 10000) as [Hlt|Hge].
    2: { exists s, l. split_and!; [done|done|lia|done|done]. }
    destruct (put_get_step BFTREE_DEFAULT_CONTAINER BFTREE_CONTAINER_THRESHOLD
                BFTREE_PAYLOAD_THRESHOLD main_opts s l fuel
                (Some (snprintf10 "key" i)) (Some (snprintf10 "val" i))
                HD compare_total_order Hs ltac:(lia))
      as (s1 & l1 & Hput & Hs1 & Hlen1 & Hget & Hquiet).
    destruct (Hquiet eq_refl eq_refl) as [Hkd Hvd].
    unfold bind at 1. rewrite Hput. unfold bind at 1. unfold ret at 1.
    unfold bind at 1. rewrite Hget. unfold bind at 1.
    pose proof (cmp_refl compare compare_total_order (Some (snprintf10 "val" i))) as Hrefl.
    cbn [compare] in Hrefl. rewrite Hrefl. cbn [Z.eqb]. unfold ret at 1.
    unfold int_succ. rewrite to_int_small by lia.
    destruct (IH (i + 1) s1 l1 Hs1 ltac:(lia) ltac:(lia) ltac:(lia))
      as (s' & l' & Hloop & Hs' & Hlen' & Hkd' & Hvd').
    exists s', l'. split_and!; [done|done|lia|congruence|congruence].
Qed.

Lemma main_del_loop_ok (fuel : nat) (steps : nat) : ∀ i s l,
  shape BFTREE_DEFAULT_CONTAINER main_opts s l →
  0 <= i <= 10000 →
  10000 - i <= Z.of_nat steps →
  Z.of_nat (length l) + (10000 - i) < Z.of_nat fuel →
  ∃ s' l', main_del_loop steps fuel i s = Ret tt s'
    ∧ shape BFTREE_DEFAULT_CONTAINER main_opts s' l'
    ∧ Z.of_nat (length l') <= Z.of_nat (length l) + (10000 - i)
    ∧ key_destroyed s' = key_destroyed s ∧ val_destroyed s' = val_destroyed s.
Proof.
  induction steps as [|steps IH]; intros i s l Hs Hi Hsteps Hfuel.
  - assert (i = 10000) as -> by lia. exists s, l. cbn [main_del_loop].
    replace (10000 <? 10000) with false by lia. split_and!; [done|done|lia|done|done].
  - cbn [main_del_loop]. destruct (Z.ltb_spec i 10000) as [Hlt|Hge].
    2: { exists s, l. split_and!; [done|done|lia|done|done]. }
    destruct (del_step BFTREE_DEFAULT_CONTAINER BFTREE_CONTAINER_THRESHOLD
                BFTREE_PAYLOAD_THRESHOLD main_opts s l fuel
                (Some (snprintf10 "key" i)) HD compare_total_order Hs ltac:(lia))
      as (s1 & l1 & Hdel & Hs1 & Hlen1 & Hquiet).
    destruct (Hquiet eq_refl eq_refl) as [Hkd Hvd].
    unfold bind at 1. rewrite Hdel. unfold bind at 1. unfold ret at 1.
    unfold int_succ. rewrite to_int_small by lia.
    destruct (IH (i + 1) s1 l1 Hs1 ltac:(lia) ltac:(lia) ltac:(lia))
      as (s' & l' & Hloop & Hs' & Hlen' & Hkd' & Hvd').
    exists s', l'. split_and!; [done|done|lia|congruence|congruence].
Qed.

(** X11 ([main] runs to its end): whatever the thresholds, for a positive
    initial capacity, [main] passes every one of its assertions ([put]
    returns [BF_OK], and [get] right after it returns a string equal to the
    value just put), prints the height 1 twice, frees the tree and returns
    0.  No payload, container or node stays allocated; the key and value
    buffers themselves are never handed to a destructor. *)
Theorem main_runs (fuel : nat) :
  (20003 <= N.of_nat fuel)%N →
  ∃ s, main fuel = Ret ([1; 1], 0) s
    ∧ tree_obj s = None ∧ payload_heap s = ∅
    ∧ container_heap s = ∅ ∧ node_heap s = ∅
    ∧ key_destroyed s = [] ∧ val_destroyed s = [].
Proof.
  intros Hfuel. unfold main.
  destruct (create_shape BFTREE_DEFAULT_CONTAINER (V := string) main_opts)
    as (s0 & Hcreate & Hs0).
  assert (key_destroyed s0 = [] ∧ val_destroyed s0 = []) as [Hk0 Hv0].
  { revert Hcreate. unfold bftree_create, node_create, malloc_node, malloc, bind, empty_mem.
    by intros [= <-]. }
  unfold bind at 1. rewrite Hcreate.
  destruct (main_put_loop_ok fuel (N.to_nat 10000) 0 s0 [] Hs0)
    as (s1 & l1 & Hputs & Hs1 & Hlen1 & Hk1 & Hv1); [lia|lia|cbn [length]; lia|].
  cbn [length] in Hlen1.
  unfold bind at 1. rewrite Hputs.
  destruct (shape_height _ _ _ _ Hs1) as (t1 & Ht1 & Hh1).
  unfold bind at 1. unfold load_tree at 1. rewrite Ht1.
  destruct (main_del_loop_ok fuel (N.to_nat 10000) 0 s1 l1 Hs1)
    as (s2 & l2 & Hdels & Hs2 & Hlen2 & Hk2 & Hv2); [lia|lia|lia|].
  unfold bind at 1. rewrite Hdels.
  destruct (shape_height _ _ _ _ Hs2) as (t2 & Ht2 & Hh2).
  unfold bind at 1. unfold load_tree at 1. rewrite Ht2.
  destruct (free_shape BFTREE_DEFAULT_CONTAINER main_opts s2 l2 fuel Hs2)
    as (s3 & Hfree & Ht3 & Hp3 & Hc3 & Hn3 & Hk3 & Hv3); [lia|].
  unfold bind at 1. rewrite Hfree. unfold ret. rewrite Hh1, Hh2.
  destruct (chain_quiet main_opts l2 eq_refl eq_refl) as [Hck Hcv].
  exists s3. split_and!; try done.
  - rewrite Hk3, Hck, Hk2, Hk1, Hk0. done.
  - rewrite Hv3, Hcv, Hv2, Hv1, Hv0. done.
Qed.

End Main.

(** X13 (the comparator of [main]): on strings, [compare] is a total order
    up to the equivalence [compare a b = 0]: exchanging its arguments flips
    the sign of the result, [<=] is transitive, and every string compares
    equal to itself. *)
Theorem compare_orders_strings :
  (∀ a b : string, Z.sgn (compare (Some a) (Some b)) = - Z.sgn (compare (Some b) (Some a)))
  ∧ (∀ a b c : string,
       compare (Some a) (Some b) <= 0 → compare (Some b) (Some c) <= 0 →
       compare (Some a) (Some c) <= 0)
  ∧ (∀ a : string, compare (Some a) (Some a) = 0).
Proof.
  split_and!.
  - intros a b. apply strcmp_sgn.
  - intros a b c. apply strcmp_trans.
  - intros a. cbn [compare]. pose proof (strcmp_sgn a a). lia.
Qed.

(** * The further properties at concrete inputs *)

Definition sample_ops : list (@op string string) :=
  [OpPut (Some "fig") (Some "1"); OpPut (Some "kiwi") (Some "2");
   OpDel (Some "fig"); OpPut (Some "fig") (Some "3"); OpDel (Some "kiwi")].

Example visible_sample :
  visible compare (Some "fig") sample_ops = Some "3"
  ∧ visible compare (Some "kiwi") sample_ops = None
  ∧ visible compare (Some "plum") sample_ops = None.
Proof. repeat split. Qed.

Example written_keys_sample :
  written_keys compare sample_ops = [Some "fig"; Some "kiwi"].
Proof. reflexivity. Qed.

Lemma get_returns_last_write_witness :
  ∃ s, run 16 8 8 8 main_opts sample_ops = Ret tt s
       ∧ bftree_get 8 (Some "fig") s = Ret (visible compare (Some "fig") sample_ops) s.
Proof.
  apply (get_returns_last_write 16 8 8 main_opts sample_ops (Some "fig") 8).
  - lia.
  - exact compare_total_order.
  - simpl. lia.
Defined.

Lemma get_leaves_store_witness :
  run 16 8 8 8 main_opts
    ([OpPut (Some "fig") (Some "1")] ++ OpGet (Some "fig") :: [OpDel (Some "fig")])
  = run 16 8 8 8 main_opts ([OpPut (Some "fig") (Some "1")] ++ [OpDel (Some "fig")]).
Proof.
  apply (get_leaves_store 16 8 8 main_opts).
  - lia.
  - exact compare_total_order.
  - simpl. lia.
Defined.

Lemma find_container_in_bounds_witness :
  ∃ res, find_container compare 1%N (Some "c") 1 two_containers = Ret res two_containers
    ∧ 0 <= res < container_size two_containers_node
    ∧ 1 - 1 <= res.
Proof.
  apply (find_container_in_bounds compare two_containers 1%N two_containers_node
           [Some "b"; Some "d"]).
  - reflexivity.
  - exact two_containers_seps.
  - vm_compute. reflexivity.
  - vm_compute. split; [discriminate|reflexivity].
Defined.

Lemma payloads_count_written_keys_witness :
  ∃ s, run 16 8 8 8 main_opts sample_ops = Ret tt s
       ∧ size (payload_heap s) = 2%nat.
Proof.
  destruct (payloads_count_written_keys 16 8 8 main_opts sample_ops 8)
    as (s & t & n & Hrun & Hsize & _).
  - lia.
  - exact compare_total_order.
  - simpl. lia.
  - exists s. split; [exact Hrun|exact Hsize].
Defined.

Lemma del_marks_in_place_witness :
  ∃ s s', run 16 8 8 8 main_opts sample_ops = Ret tt s
          ∧ bftree_del 16 8 8 8 (Some "fig") s = Ret BF_OK s'.
Proof.
  destruct (del_marks_in_place 16 8 8 main_opts sample_ops (Some "fig") 8)
    as (s & s' & Hrun & Hdel & _).
  - lia.
  - exact compare_total_order.
  - simpl. lia.
  - exists s, s'. split; [exact Hrun|exact Hdel].
Defined.

Lemma free_releases_in_order_witness :
  ∃ s s', run 16 8 8 8 counting_opts sample_ops = Ret tt s
          ∧ bftree_free 8 s = Ret tt s'
          ∧ payload_heap s' = ∅.
Proof.
  destruct (free_releases_in_order 16 8 8 counting_opts sample_ops 8)
    as (s & s' & ks & Hrun & Hfree & _ & Hp & _).
  - lia.
  - exact compare_total_order.
  - simpl. lia.
  - exists s, s'. split; [exact Hrun|]. split; [exact Hfree|exact Hp].
Defined.

(** The chain a, b, c, d of [delete_pending]. *)
Definition pending_chain : list (ptr * @payload string string) :=
  [(10%N, mk_payload (Some "a") (Some "1") Put 11%N);
   (11%N, mk_payload (Some "b") None Del 12%N);
   (12%N, mk_payload (Some "c") (Some "3") Put 13%N);
   (13%N, mk_payload (Some "d") (Some "4") Put NULL)].

Lemma pending_chain_cells : chain_cells (delete_pending 0 0) 10%N pending_chain.
Proof. cbn [chain_cells pending_chain fst snd next]. repeat split; done. Qed.

Lemma pending_chain_sorted : sorted compare (contents pending_chain).
Proof. repeat constructor. Qed.

Lemma get_payload_contract_witness :
  ∃ p eq, get_payload 4 compare (head_or pending_chain NULL) (Some "c") (delete_pending 0 0)
          = Ret (p, eq) (delete_pending 0 0)
    ∧ (eq = true → ∃ y, (p, y) ∈ pending_chain ∧ compare (Some "c") (key y) = 0)
    ∧ (eq = false →
         ∃ l1 l2, pending_chain = l1 ++ l2
           ∧ p = match reverse l1 with [] => NULL | ax :: _ => ax.1 end
           ∧ (∀ ax, ax ∈ l1 → 0 < compare (Some "c") (key ax.2))
           ∧ (∀ ax, ax ∈ l2 → compare (Some "c") (key ax.2) < 0)).
Proof.
  destruct (chain_cells_list (delete_pending 0 0) pending_chain 10%N pending_chain_cells)
    as (_ & Hseg & Hheap).
  apply (get_payload_contract compare (delete_pending 0 0) pending_chain (Some "c") 4).
  - exact compare_total_order.
  - exact Hheap.
  - exact Hseg.
  - exact pending_chain_sorted.
  - simpl. lia.
Defined.

Lemma insert_then_remove_witness :
  ∃ s', (bind (insert_after_container 1%N 7%N 0) (λ _, remove_container 1%N (0 + 1)))
          two_containers = Ret 7%N s'.
Proof.
  eexists.
  apply (insert_then_remove two_containers 1%N 7%N two_containers_node 0).
  - reflexivity.
  - vm_compute. split; [discriminate|reflexivity].
  - vm_compute. split; [discriminate|reflexivity].
Defined.

Lemma delete_pending_wf : wf_node (delete_pending 0 0) 4 1 1%N.
Proof.
  cbn [wf_node].
  exists (mk_node NULL [2%N] 16), [Some "a"]. split_and!.
  - reflexivity.
  - vm_compute. reflexivity.
  - constructor; [|constructor].
    by exists (mk_container 10%N 4 4%N), (mk_payload (Some "a") (Some "1") Put 11%N).
  - intros cp Hcp. apply list_elem_of_singleton in Hcp as ->.
    exists (mk_container 10%N 4 4%N), pending_chain. split_and!.
    + reflexivity.
    + exact pending_chain_cells.
    + simpl. lia.
    + intros _. exists (mk_node 1%N [] 16), []. split_and!.
      * reflexivity.
      * vm_compute. reflexivity.
      * constructor.
      * intros cp Hcp. by apply elem_of_nil in Hcp.
Qed.

Lemma get_safe_on_any_tree_witness :
  ∃ v, bftree_get 6 (Some "c") (delete_pending 0 0) = Ret v (delete_pending 0 0)
       ∧ (v ≠ None →
          ∃ p x, payload_heap (delete_pending 0 0) !! p = Some x ∧ type x = Put
                 ∧ compare (Some "c") (key x) = 0 ∧ val x = v).
Proof.
  apply (get_safe_on_any_tree (delete_pending 0 0)
           (mk_bftree 1%N 2 main_opts 1 0 0) 4 1 6 (Some "c")).
  - reflexivity.
  - exact delete_pending_wf.
  - simpl. lia.
Defined.

Lemma split_container_halves_witness :
  ∃ s' l1 l2 p x,
    split_container 16 8 8 6 1%N 0 (delete_pending 0 0) = Ret tt s'
    ∧ pending_chain = l1 ++ (p, x) :: l2
    ∧ Z.of_nat (length l1) + 1 = Z.of_nat (length pending_chain) / 2
    ∧ payload_heap s' = <[p := set_next x NULL]> (payload_heap (delete_pending 0 0)).
Proof.
  destruct (split_container_halves 16 8 8 (delete_pending 0 0)
              (mk_bftree 1%N 2 main_opts 1 0 0) 1%N 2%N (mk_node NULL [2%N] 16)
              (mk_container 10%N 4 4%N) pending_chain 0 6)
    as (s' & l1 & l2 & p & x & Hsplit & Hl & Hlen & Hheap & _).
  - reflexivity.
  - reflexivity.
  - vm_compute. split; [discriminate|reflexivity].
  - reflexivity.
  - vm_compute. split; [discriminate|reflexivity].
  - vm_compute. reflexivity.
  - reflexivity.
  - reflexivity.
  - exact pending_chain_cells.
  - reflexivity.
  - simpl. lia.
  - vm_compute. reflexivity.
  - simpl. lia.
  - exists s', l1, l2, p, x. split_and!; [exact Hsplit|exact Hl|exact Hlen|exact Hheap].
Defined.

Lemma try_split_node_root_witness :
  ∃ s' t', try_split_node 16 2 8 1 1%N two_containers = Ret tt s'
    ∧ tree_obj s' = Some t'
    ∧ height t' = 2
    ∧ root t' = 13%N
    ∧ ∃ cap, node_heap s' !! 13%N = Some (mk_node NULL [2%N; 3%N] cap).
Proof.
  destruct (try_split_node_root 16 2 8 two_containers
              (mk_bftree 1%N 1 main_opts 0 0 0) two_containers_node 2%N 3%N
              (mk_container 10%N 1 NULL) (mk_container 11%N 1 NULL) 1)
    as (s' & capN & capR & Hsplit & Ht & Hroot & _).
  - reflexivity.
  - reflexivity.
  - vm_compute. discriminate.
  - vm_compute. split; [discriminate|reflexivity].
  - lia.
  - reflexivity.
  - reflexivity.
  - discriminate.
  - reflexivity.
  - reflexivity.
  - reflexivity.
  - reflexivity.
  - lia.
  - exists s', (mk_bftree 13%N 2 main_opts 0 0 0).
    split; [exact Hsplit|]. split; [exact Ht|]. split; [reflexivity|].
    split; [reflexivity|]. exists capR. exact Hroot.
Defined.

Lemma main_runs_witness :
  ∃ s, main 16 8 8 (N.to_nat 20003) = Ret ([1; 1], 0) s
    ∧ tree_obj s = None ∧ payload_heap s = ∅
    ∧ container_heap s = ∅ ∧ node_heap s = ∅
    ∧ key_destroyed s = [] ∧ val_destroyed s = [].
Proof.
  apply (main_runs 16 8 8); lia.
Defined.

Lemma two_containers_chains : node_chains two_containers two_containers_node 5.
Proof.
  intros cp Hcp. apply elem_of_cons in Hcp as [->|Hcp].
  - exists (mk_container 10%N 1 NULL), [(10%N, mk_payload (Some "b") (Some "1") Put NULL)].
    split_and!; [reflexivity| |done|simpl; lia].
    cbn [chain_cells fst snd next]. repeat split; done.
  - apply list_elem_of_singleton in Hcp as ->.
    exists (mk_container 11%N 1 NULL), [(11%N, mk_payload (Some "d") (Some "2") Put NULL)].
    split_and!; [reflexivity| |done|simpl; lia].
    cbn [chain_cells fst snd next]. repeat split; done.
Qed.

Lemma validate_containers_sound_witness :
  (validate_containers 4 1%N compare two_containers = Ret tt two_containers
   ∧ N1 compare two_containers two_containers_node
   ∧ ∀ cp, cp ∈ containers two_containers_node →
       ∃ c, container_heap two_containers !! cp = Some c ∧ P1 compare two_containers c)
  ∨ validate_containers 4 1%N compare two_containers = Fault AssertFailed.
Proof.
  apply (validate_containers_sound compare two_containers 1%N two_containers_node 4).
  - exact compare_total_order.
  - reflexivity.
  - vm_compute. reflexivity.
  - exact two_containers_chains.
Defined.

Lemma order_container_payload_separated_witness :
  order_container_payload 16 8 8 3 1%N 0 1 two_containers = Ret tt two_containers.
Proof.
  apply (order_container_payload_separated 16 8 8 two_containers
           (mk_bftree 1%N 1 main_opts 0 0 0) 1%N 2%N 3%N two_containers_node
           (mk_container 10%N 1 NULL) (mk_container 11%N 1 NULL)
           (mk_payload (Some "d") (Some "2") Put NULL)
           [(10%N, mk_payload (Some "b") (Some "1") Put NULL)]).
  - reflexivity.
  - reflexivity.
  - reflexivity.
  - lia.
  - lia.
  - reflexivity.
  - reflexivity.
  - reflexivity.
  - reflexivity.
  - reflexivity.
  - cbn [chain_cells fst snd next]. repeat split; done.
  - intros ax Hin. apply list_elem_of_singleton in Hin as ->. vm_compute. reflexivity.
  - simpl. lia.
Defined.

Lemma zero_capacity_overflows_witness :
  run 0 8 8 1 main_opts [OpPut (Some "a") (Some "1")] = Fault OutOfBounds
  ∧ run 0 8 8 1 main_opts [@OpDel string string (Some "a")] = Fault OutOfBounds.
Proof.
  apply (zero_capacity_overflows 0 8 8 main_opts (Some "a") (Some "1") 1).
  - reflexivity.
  - lia.
Defined.
